(** * Paint calculator: the calculation engine, the unit toggle and the
      CSV export, embedded from [PaintCalculator.js]

    JavaScript Numbers are IEEE 754 binary64 values.  They are modelled by
    the Standard Library's [spec_float] at precision 53 and maximal exponent
    1024, whose operations are the executable specification of the hardware
    operations: every sum, product and quotient below rounds exactly as the
    JavaScript engine does. *)

From Stdlib Require Import ZArith Bool List String Ascii Lia Zpower.
From Stdlib Require Import Reals Lra Psatz.
From Stdlib Require Import SpecFloat.
Import ListNotations.

Local Open Scope Z_scope.

(* ================================================================== *)
(** ** Numbers *)

Module Num.

Definition number := spec_float.

Definition prec : Z := 53.
Definition emax : Z := 1024.

Definition NaN : number := S754_nan.
Definition Infinity : number := S754_infinity false.
Definition zero : number := S754_zero false.

Definition add : number -> number -> number := SFadd prec emax.
Definition sub : number -> number -> number := SFsub prec emax.
Definition mul : number -> number -> number := SFmul prec emax.
Definition div : number -> number -> number := SFdiv prec emax.
Definition opp : number -> number := SFopp.

Definition ltb : number -> number -> bool := SFltb.
Definition leb : number -> number -> bool := SFleb.
Definition eqb : number -> number -> bool := SFeqb.

(** The Number nearest to the integer [n] (ties to even). *)
Definition of_Z (n : Z) : number := binary_normalize prec emax n 0 false.

(** The Number nearest to [n * 10^p], for [0 <= n]: what a decimal literal
    or a parsed decimal string denotes.  A negative power of ten is one
    correctly rounded quotient of two integers. *)
Definition of_decimal (n : Z) (p : Z) : number :=
  match n with
  | Zpos m =>
      match p with
      | Zneg q => div (S754_finite false m 0) (S754_finite false (10 ^ q)%positive 0)
      | _ => of_Z (n * 10 ^ p)
      end
  | _ => zero
  end.

Definition is_nan (x : number) : bool :=
  match x with S754_nan => true | _ => false end.

Definition is_finite (x : number) : bool :=
  match x with S754_zero _ | S754_finite _ _ _ => true | _ => false end.

Definition is_zero (x : number) : bool :=
  match x with S754_zero _ => true | _ => false end.

(** ToBoolean on a Number: NaN, +0 and -0 are falsy. *)
Definition truthy (x : number) : bool := negb (is_nan x || is_zero x).

(** [a || b] on Numbers. *)
Definition or_else (a b : number) : number := if truthy a then a else b.

(** Math.max of two Numbers: NaN if either is NaN, and +0 above -0. *)
Definition Math_max (a b : number) : number :=
  if is_nan a || is_nan b then NaN
  else if ltb a b then b
  else if ltb b a then a
  else match a with S754_zero true => b | _ => a end.

(** Math.ceil.  A finite Number is [m * 2^e]; with [0 <= e] it is an
    integer already.  Otherwise the integer part is [m / 2^(-e)], and a
    positive Number with a remainder goes one up.  A negative Number
    above -1 gives -0. *)
Definition Math_ceil (x : number) : number :=
  match x with
  | S754_finite s m e =>
      match e with
      | Zneg k =>
          let q := Z.shiftr (Zpos m) (Zpos k) in
          let exact := Z.eqb (Z.shiftl q (Zpos k)) (Zpos m) in
          if s then
            match q with
            | Z0 => S754_zero true
            | _ => opp (of_Z q)
            end
          else if exact then of_Z q else of_Z (q + 1)
      | _ => x
      end
  | _ => x
  end.

End Num.
Export Num.

Declare Scope js_scope.
Delimit Scope js_scope with js.
Bind Scope js_scope with number.
Infix "+" := add : js_scope.
Infix "-" := sub : js_scope.
Infix "*" := mul : js_scope.
Infix "/" := div : js_scope.

(* ================================================================== *)
(** ** Strings and the conversions between Strings and Numbers

    A String is modelled by the Standard Library's [string]; its characters
    stand for code units below 256. *)

Module Text.

Local Open Scope string_scope.
Local Open Scope Z_scope.

Definition code (c : ascii) : Z := Z.of_N (N_of_ascii c).

Definition is_digit (c : ascii) : bool := (48 <=? code c) && (code c <=? 57).

Definition digit_val (c : ascii) : Z := code c - 48.

Definition digit_char (d : Z) : ascii := ascii_of_N (Z.to_N (48 + d)).

(** White space and line terminators that a numeric parse skips. *)
Definition is_space (c : ascii) : bool :=
  let n := code c in
  ((9 <=? n) && (n <=? 13)) || (n =? 32) || (n =? 160).

Fixpoint trim_start (s : string) : string :=
  match s with
  | String c r => if is_space c then trim_start r else s
  | EmptyString => s
  end.

(** The longest run of decimal digits at the head of [s], read onto the
    accumulator [acc]: the value, the number of digits read and the rest. *)
Fixpoint read_digits (s : string) (acc : Z) (cnt : Z) : Z * Z * string :=
  match s with
  | String c r =>
      if is_digit c then read_digits r (10 * acc + digit_val c) (cnt + 1)
      else (acc, cnt, s)
  | EmptyString => (acc, cnt, s)
  end.

Definition hex_val (c : ascii) : option Z :=
  let n := code c in
  if (48 <=? n) && (n <=? 57) then Some (n - 48)
  else if (65 <=? n) && (n <=? 70) then Some (n - 55)
  else if (97 <=? n) && (n <=? 102) then Some (n - 87)
  else None.

Fixpoint read_hex (s : string) (acc : Z) (cnt : Z) : Z * Z * string :=
  match s with
  | String c r =>
      match hex_val c with
      | Some d => read_hex r (16 * acc + d) (cnt + 1)
      | None => (acc, cnt, s)
      end
  | EmptyString => (acc, cnt, s)
  end.

(** An optional sign at the head: whether it is a minus, and the rest. *)
Definition read_sign (s : string) : bool * string :=
  match s with
  | String "-" r => (true, r)
  | String "+" r => (false, r)
  | _ => (false, s)
  end.

(** The exponent part [e±ddd] at the head of [s], if it is well formed;
    otherwise no exponent is read. *)
Definition read_exponent (s : string) : Z :=
  match s with
  | String c r =>
      if Ascii.eqb c "e" || Ascii.eqb c "E" then
        let '(neg, r1) := read_sign r in
        let '(v, cnt, _) := read_digits r1 0 0 in
        if cnt =? 0 then 0 else if neg then - v else v
      else 0
  | EmptyString => 0
  end.

(** parseFloat on a String: leading white space is skipped and the longest
    prefix that is a decimal literal is read; NaN when there is none. *)
Definition parseFloat_str (s : string) : number :=
  let '(neg, t1) := read_sign (trim_start s) in
  if prefix "Infinity" t1 then S754_infinity neg
  else
    let '(ip, ic, t2) := read_digits t1 0 0 in
    let '(fp, fc, t3) :=
      match t2 with
      | String "." r => read_digits r ip 0
      | _ => (ip, 0, t2)
      end in
    if (ic =? 0) && (fc =? 0) then NaN
    else
      let mag := of_decimal fp (read_exponent t3 - fc) in
      if neg then opp mag else mag.

(** parseInt on a String, no radix given: radix 16 after [0x], else 10. *)
Definition parseInt_str (s : string) : number :=
  let '(neg, t1) := read_sign (trim_start s) in
  let '(v, cnt, _) :=
    match t1 with
    | String "0" (String c r) =>
        if Ascii.eqb c "x" || Ascii.eqb c "X" then read_hex r 0 0
        else read_digits t1 0 0
    | _ => read_digits t1 0 0
    end in
  if cnt =? 0 then NaN
  else if v =? 0 then S754_zero neg
  else of_Z (if neg then - v else v).

(** The [k] low decimal digits of [n], most significant first. *)
Fixpoint digits_fixed (k : nat) (n : Z) : string :=
  match k with
  | O => ""
  | S k' => digits_fixed k' (n / 10) ++ String (digit_char (n mod 10)) ""
  end.

Fixpoint count_digits (fuel : nat) (n : Z) : nat :=
  match fuel with
  | O => 1%nat
  | S f => if n <? 10 then 1%nat else S (count_digits f (n / 10))
  end.

(** How many decimal digits [n] has ([1] for [0]). *)
Definition num_digits (n : Z) : nat := count_digits (Z.to_nat (Z.log2 n)) n.

(** The decimal representation of an integer [0 <= n]. *)
Definition decimal_string (n : Z) : string := digits_fixed (num_digits n) n.

Fixpoint zeros (k : nat) : string :=
  match k with O => "" | S k' => String "0" (zeros k') end.

Definition take (k : nat) (s : string) : string := substring 0 k s.
Definition drop (k : nat) (s : string) : string := substring k (length s - k) s.

(** *** Number to String *)

(** Bitwise equality of two Numbers. *)
Definition same (x y : number) : bool :=
  match x, y with
  | S754_nan, S754_nan => true
  | S754_zero a, S754_zero b => Bool.eqb a b
  | S754_infinity a, S754_infinity b => Bool.eqb a b
  | S754_finite a m e, S754_finite b m' e' =>
      Bool.eqb a b && Pos.eqb m m' && Z.eqb e e'
  | _, _ => false
  end.

(** The exact value of the positive Number [m * 2^e] is the fraction
    [numer m e / denom e]. *)
Definition numer (m : positive) (e : Z) : Z := Zpos m * 2 ^ Z.max e 0.
Definition denom (e : Z) : Z := 2 ^ Z.max (- e) 0.

(** [num / den < 10^n]. *)
Definition below_pow10 (num den n : Z) : bool :=
  num * 10 ^ Z.max (- n) 0 <? den * 10 ^ Z.max n 0.

Fixpoint first_pow10 (fuel : nat) (num den n : Z) : Z :=
  match fuel with
  | O => n
  | S f => if below_pow10 num den n then n else first_pow10 f num den (n + 1)
  end.

(** The [n] with [10^(n-1) <= m * 2^e < 10^n], found upwards from an
    estimate by the binary logarithm. *)
Definition decimal_exponent (m : positive) (e : Z) : Z :=
  first_pow10 8 (numer m e) (denom e)
    ((Z.log2 (Zpos m) + e) * 30103 / 100000 - 1).

(** The two [k]-digit decimals around [num / den], scaled by [10^(n0-k)]:
    the nearer one that reads back as [x], if either does. *)
Definition shortest_at (x : number) (num den n0 k : Z) : option (Z * Z) :=
  let p := n0 - k in
  let A := num * 10 ^ Z.max (- p) 0 in
  let B := den * 10 ^ Z.max p 0 in
  let lo := A / B in
  let hi := lo + 1 in
  let ok_lo := same (of_decimal lo p) x in
  let ok_hi := same (of_decimal hi p) x in
  let pick_hi :=
    match 2 * (A mod B) ?= B with
    | Lt => false
    | Gt => true
    | Eq => Z.odd lo
    end in
  let c :=
    if ok_lo && ok_hi then Some (if pick_hi then hi else lo)
    else if ok_lo then Some lo
    else if ok_hi then Some hi
    else None in
  match c with
  | Some c => if c =? 10 ^ k then Some (c / 10, p + 1) else Some (c, p)
  | None => None
  end.

(** The least number of digits [k], with the digits [s] and the scale [n],
    such that [s * 10^(n-k)] reads back as [x]. *)
Fixpoint shortest_search (fuel : nat) (x : number) (num den n0 k : Z)
  : Z * Z * Z :=
  match fuel with
  | O => (num * 10 ^ Z.max (k - n0) 0 / (den * 10 ^ Z.max (n0 - k) 0), n0, k)
  | S f =>
      match shortest_at x num den n0 k with
      | Some (s, p) => (s, p + k, k)
      | None => shortest_search f x num den n0 (k + 1)
      end
  end.

Definition format_shortest (s n k : Z) : string :=
  let ds := digits_fixed (Z.to_nat k) s in
  if (k <=? n) && (n <=? 21) then ds ++ zeros (Z.to_nat (n - k))
  else if (0 <? n) && (n <=? 21) then
    take (Z.to_nat n) ds ++ "." ++ drop (Z.to_nat n) ds
  else if (-6 <? n) && (n <=? 0) then "0." ++ zeros (Z.to_nat (- n)) ++ ds
  else
    let e := n - 1 in
    let es := (if e <? 0 then "-" else "+") ++ decimal_string (Z.abs e) in
    if k =? 1 then ds ++ "e" ++ es
    else take 1 ds ++ "." ++ drop 1 ds ++ "e" ++ es.

(** The integer that [m * 2^e] is, when it is one. *)
Definition exact_integer (m : positive) (e : Z) : option Z :=
  match e with
  | Zneg k =>
      let q := Z.shiftr (Zpos m) (Zpos k) in
      if Z.shiftl q (Zpos k) =? Zpos m then Some q else None
  | _ => Some (Zpos m * 2 ^ e)
  end.

(** Number::toString of a positive finite Number.  An integer below 2^53
    is its own shortest decimal; otherwise the shortest digits that read
    back as the Number are searched for, among 1 to 21 of them. *)
Definition positive_toString (m : positive) (e : Z) : string :=
  let general :=
    let '(s, n, k) :=
      shortest_search 21 (S754_finite false m e) (numer m e) (denom e)
        (decimal_exponent m e) 1 in
    format_shortest s n k in
  match exact_integer m e with
  | Some n => if n <? 2 ^ 53 then decimal_string n else general
  | None => general
  end.

Definition Number_toString (x : number) : string :=
  match x with
  | S754_nan => "NaN"
  | S754_zero _ => "0"
  | S754_infinity s => if s then "-Infinity" else "Infinity"
  | S754_finite s m e => (if s then "-" else "") ++ positive_toString m e
  end.

(** The digits of [n] with a decimal point before the last [f] of them,
    padded with zeros on the left up to [f + 1] digits. *)
Definition fixed_digits (f : nat) (n : Z) : string :=
  let ds := decimal_string n in
  let ds := if (length ds <=? f)%nat then zeros (f + 1 - length ds) ++ ds else ds in
  match f with
  | O => ds
  | _ => take (length ds - f) ds ++ "." ++ drop (length ds - f) ds
  end.

(** Number.prototype.toFixed(f): the integer [n] nearest to [x * 10^f], the
    larger one on a tie, then its digits with [f] of them after the point.
    From [10^21] on, and for NaN and the infinities, it is Number::toString. *)
Definition toFixed (f : nat) (x : number) : string :=
  match x with
  | S754_zero _ => fixed_digits f 0
  | S754_finite s m e =>
      let num := numer m e in
      let den := denom e in
      if below_pow10 num den 21 then
        let n := (2 * num * 10 ^ Z.of_nat f + den) / (2 * den) in
        (if s then "-" else "") ++ fixed_digits f n
      else Number_toString x
  | _ => Number_toString x
  end.

End Text.
Export Text.

(* ================================================================== *)
(** ** Values, constants and configuration *)

Local Open Scope string_scope.

(** What a dimension or quantity field holds: a Number (defaults, example
    data) or a String (an edited input, a converted dimension). *)
Inductive value :=
| Num (x : number)
| Str (s : string).

Definition ToString (v : value) : string :=
  match v with
  | Num x => Number_toString x
  | Str s => s
  end.

(** parseFloat.  The argument is first converted to a String.  For a Number
    that String is, by the definition of Number::toString, a literal that
    reads back as the same Number, so parseFloat returns the Number itself;
    only -0, which prints as [0], comes back as +0. *)
Definition parseFloat (v : value) : number :=
  match v with
  | Num (S754_zero _) => zero
  | Num x => x
  | Str s => parseFloat_str s
  end.

Definition parseInt (v : value) : number := parseInt_str (ToString v).

(** A JavaScript object used as a table from keys to entries. *)
Fixpoint lookup {A : Type} (table : list (string * A)) (key : string) : option A :=
  match table with
  | [] => None
  | (k, a) :: rest => if String.eqb k key then Some a else lookup rest key
  end.

Record unit_system := {
  unit_name : string;
  unit_length : string;
  unit_smallLength : string;
  unit_area : string;
  unit_volume : string;
  unit_volumeAbbr : string;
  conversionToMetric : number;
  areaConversion : number;
}.

Definition UNIT_SYSTEMS : list (string * unit_system) :=
  [ ("imperial",
     {| unit_name := "Imperial"; unit_length := "ft"; unit_smallLength := "in";
        unit_area := "sq ft"; unit_volume := "gallon"; unit_volumeAbbr := "gal";
        conversionToMetric := of_decimal 3048 (-4);
        areaConversion := of_decimal 92903 (-6) |});
    ("metric",
     {| unit_name := "Metric"; unit_length := "m"; unit_smallLength := "cm";
        unit_area := "sq m"; unit_volume := "litre"; unit_volumeAbbr := "L";
        conversionToMetric := of_Z 1;
        areaConversion := of_Z 1 |}) ].

Record opening_type := {
  type_label : string;
  type_action : string;
  defaultWidth : number;
  defaultHeight : number;
  faces : number;
}.

Definition OPENING_TYPES : list (string * opening_type) :=
  [ ("prefinishedDoor",
     {| type_label := "Pre-finished Door"; type_action := "subtract";
        defaultWidth := of_Z 3; defaultHeight := of_Z 7; faces := of_Z 0 |});
    ("paintableDoor",
     {| type_label := "Paintable Door"; type_action := "add";
        defaultWidth := of_Z 3; defaultHeight := of_Z 7; faces := of_Z 2 |});
    ("window",
     {| type_label := "Window"; type_action := "subtract";
        defaultWidth := of_Z 4; defaultHeight := of_Z 3; faces := of_Z 0 |});
    ("slidingDoor",
     {| type_label := "Sliding Door"; type_action := "subtract";
        defaultWidth := of_Z 6; defaultHeight := of_Z 7; faces := of_Z 0 |});
    ("wardrobe",
     {| type_label := "Built-in Wardrobe"; type_action := "add";
        defaultWidth := of_Z 6; defaultHeight := of_Z 8; faces := of_Z 1 |});
    ("grill",
     {| type_label := "Grill/Gate"; type_action := "add";
        defaultWidth := of_Z 3; defaultHeight := of_Z 7; faces := of_Z 2 |}) ].

Record paint_type := {
  paint_label : string;
  coverage : list (string * number);
}.

Definition PAINT_TYPES : list (string * paint_type) :=
  [ ("interior",
     {| paint_label := "Interior Wall Paint";
        coverage := [("imperial", of_Z 350); ("metric", of_decimal 325 (-1))] |});
    ("exterior",
     {| paint_label := "Exterior Paint";
        coverage := [("imperial", of_Z 300); ("metric", of_Z 28)] |});
    ("enamel",
     {| paint_label := "Enamel Paint";
        coverage := [("imperial", of_Z 400); ("metric", of_Z 37)] |});
    ("primer",
     {| paint_label := "Primer";
        coverage := [("imperial", of_Z 400); ("metric", of_Z 37)] |});
    ("ceiling",
     {| paint_label := "Ceiling Paint";
        coverage := [("imperial", of_Z 400); ("metric", of_Z 37)] |}) ].

Record settings := {
  coats : number;
  wastagePercent : number;
  includeCeiling : bool;
  paintType : string;
}.

Definition DEFAULT_SETTINGS : settings :=
  {| coats := of_Z 2; wastagePercent := of_Z 10;
     includeCeiling := true; paintType := "interior" |}.

(** An opening; [customFaces] is [None] when the property is absent. *)
Record opening := {
  opening_type_tag : string;
  opening_width : value;
  opening_height : value;
  quantity : value;
  action : string;
  customFaces : option number;
}.

Record room := {
  room_id : string;
  room_name : string;
  room_length : value;
  room_width : value;
  room_height : value;
  openings : list opening;
}.

(** A call either returns or throws a TypeError (a property read on
    [undefined]). *)
Inductive outcome (A : Type) :=
| Returns (a : A)
| Throws_TypeError.
Arguments Returns {A} a.
Arguments Throws_TypeError {A}.

(* ================================================================== *)
(** ** The calculation engine *)

Module CalculationEngine.

Local Open Scope js_scope.

(** convertLength and convertArea, for a Number [v].  A unit that is not
    [imperial] counts as metric. *)
Definition convertLength (v : number) (fromUnit toUnit : string) : number :=
  if String.eqb fromUnit toUnit then v
  else
    let toMetric :=
      if String.eqb fromUnit "imperial" then v * of_decimal 3048 (-4) else v in
    if String.eqb toUnit "imperial" then toMetric / of_decimal 3048 (-4) else toMetric.

Definition convertArea (v : number) (fromUnit toUnit : string) : number :=
  if String.eqb fromUnit toUnit then v
  else
    let toMetric :=
      if String.eqb fromUnit "imperial" then v * of_decimal 92903 (-6) else v in
    if String.eqb toUnit "imperial" then toMetric / of_decimal 92903 (-6) else toMetric.

Definition calculateWallArea (length width height : value) : number :=
  let perimeter := of_Z 2 * (parseFloat length + parseFloat width) in
  perimeter * parseFloat height.

Definition calculateCeilingArea (length width : value) : number :=
  parseFloat length * parseFloat width.

Definition calculateOpeningArea (o : opening) : number :=
  let baseArea := parseFloat (opening_width o) * parseFloat (opening_height o) in
  let quantity := or_else (parseInt (quantity o)) (of_Z 1) in
  let faces :=
    match customFaces o with
    | Some f => f
    | None =>
        match lookup OPENING_TYPES (opening_type_tag o) with
        | Some t => faces t
        | None => of_Z 0
        end
    end in
  if String.eqb (action o) "add" then baseArea * quantity * Math_max faces (of_Z 1)
  else baseArea * quantity.

(** The six area figures of a room, and of the totals. *)
Record areas := {
  wallArea : number;
  ceilingArea : number;
  subtractArea : number;
  addArea : number;
  netWallArea : number;
  totalPaintableArea : number;
}.

(** One turn of the loop over the openings: the running [subtractArea] and
    [addArea]. *)
Definition opening_step (acc : number * number) (o : opening) : number * number :=
  let area := calculateOpeningArea o in
  if String.eqb (action o) "subtract" then (fst acc + area, snd acc)
  else if String.eqb (action o) "add" then (fst acc, snd acc + area)
  else acc.

Definition calculateRoomArea (r : room) (includeCeiling : bool) : areas :=
  let wallArea := calculateWallArea (room_length r) (room_width r) (room_height r) in
  let ceilingArea :=
    if includeCeiling then calculateCeilingArea (room_length r) (room_width r)
    else of_Z 0 in
  let '(subtractArea, addArea) :=
    fold_left opening_step (openings r) (of_Z 0, of_Z 0) in
  {| wallArea := wallArea;
     ceilingArea := ceilingArea;
     subtractArea := subtractArea;
     addArea := addArea;
     netWallArea := Math_max (of_Z 0) (wallArea - subtractArea);
     totalPaintableArea :=
       Math_max (of_Z 0) (wallArea - subtractArea) + ceilingArea + addArea |}.

Record paint := {
  base : number;
  withCoats : number;
  withWastage : number;
  rounded : number;
}.

Definition calculatePaintRequired (area coverage coats wastagePercent : number) : paint :=
  let baseAmount := area / coverage in
  let withCoats := baseAmount * coats in
  let withWastage := withCoats * (of_Z 1 + wastagePercent / of_Z 100) in
  {| base := baseAmount;
     withCoats := withCoats;
     withWastage := withWastage;
     rounded := Math_ceil withWastage |}.

(** A room of the result: the room itself with its [calculations]. *)
Record room_result := {
  source : room;
  calculations : areas;
}.

Record CalculationResult := {
  result_rooms : list room_result;
  totals : areas;
  result_paint : paint;
  result_settings : settings;
  result_unitSystem : string;
  result_coverage : option number;
}.

Definition zero_totals : areas :=
  {| wallArea := of_Z 0; ceilingArea := of_Z 0; subtractArea := of_Z 0;
     addArea := of_Z 0; netWallArea := of_Z 0; totalPaintableArea := of_Z 0 |}.

(** [totals[key] += roomCalc[key]] for each of the six keys. *)
Definition add_areas (t c : areas) : areas :=
  {| wallArea := wallArea t + wallArea c;
     ceilingArea := ceilingArea t + ceilingArea c;
     subtractArea := subtractArea t + subtractArea c;
     addArea := addArea t + addArea c;
     netWallArea := netWallArea t + netWallArea c;
     totalPaintableArea := totalPaintableArea t + totalPaintableArea c |}.

(** One turn of the loop over the rooms: the rooms pushed so far and the
    running totals. *)
Definition room_step (st : settings) (acc : list room_result * areas) (r : room)
  : list room_result * areas :=
  let roomCalc := calculateRoomArea r (includeCeiling st) in
  ((fst acc ++ [ {| source := r; calculations := roomCalc |} ])%list,
   add_areas (snd acc) roomCalc).

(** An absent coverage is [undefined], which is NaN in arithmetic. *)
Definition ToNumber (c : option number) : number :=
  match c with
  | Some x => x
  | None => NaN
  end.

Definition calculateAll (rooms : list room) (st : settings) (unitSystem : string)
  : outcome CalculationResult :=
  let '(rs, tot) := fold_left (room_step st) rooms ([], zero_totals) in
  match lookup PAINT_TYPES (paintType st) with
  | None => Throws_TypeError
  | Some paintConfig =>
      let cov := lookup (coverage paintConfig) unitSystem in
      Returns
        {| result_rooms := rs;
           totals := tot;
           result_paint :=
             calculatePaintRequired (totalPaintableArea tot) (ToNumber cov)
               (coats st) (wastagePercent st);
           result_settings := st;
           result_unitSystem := unitSystem;
           result_coverage := cov |}
  end.

End CalculationEngine.
Export CalculationEngine.

(* ================================================================== *)
(** ** Export *)

Module ExportUtils.

Definition nl : string := String (ascii_of_nat 10) "".
Definition quote : string := String (ascii_of_nat 34) "".

Definition csv_header : string :=
  "Room Name,Wall Area,Ceiling Area,Subtract Area,Add Area,Net Paintable Area".

(** The line added to the report for one room. *)
Definition room_line (r : room_result) : string :=
  let c := calculations r in
  quote ++ room_name (source r) ++ quote
  ++ "," ++ toFixed 2 (wallArea c)
  ++ "," ++ toFixed 2 (ceilingArea c)
  ++ "," ++ toFixed 2 (subtractArea c)
  ++ "," ++ toFixed 2 (addArea c)
  ++ "," ++ toFixed 2 (totalPaintableArea c) ++ nl.

(** A coverage spliced into a template: a Number, or [undefined]. *)
Definition coverage_text (c : option number) : string :=
  match c with
  | Some x => Number_toString x
  | None => "undefined"
  end.

Definition toCSV (res : CalculationResult) : outcome string :=
  match lookup UNIT_SYSTEMS (result_unitSystem res) with
  | None => Throws_TypeError
  | Some units =>
      let csv := "Paint Calculator Estimate" ++ nl ++ nl in
      let csv := csv ++ "Room Details" ++ nl in
      let csv := csv ++ csv_header ++ nl in
      let csv := fold_left (fun csv r => csv ++ room_line r) (result_rooms res) csv in
      let csv := csv ++ nl ++ "Totals" ++ nl in
      let csv := csv ++ "Total Wall Area," ++ toFixed 2 (wallArea (totals res))
                     ++ " " ++ unit_area units ++ nl in
      let csv := csv ++ "Total Ceiling Area," ++ toFixed 2 (ceilingArea (totals res))
                     ++ " " ++ unit_area units ++ nl in
      let csv := csv ++ "Total Subtract Area," ++ toFixed 2 (subtractArea (totals res))
                     ++ " " ++ unit_area units ++ nl in
      let csv := csv ++ "Total Add Area," ++ toFixed 2 (addArea (totals res))
                     ++ " " ++ unit_area units ++ nl in
      let csv := csv ++ "Net Paintable Area,"
                     ++ toFixed 2 (totalPaintableArea (totals res))
                     ++ " " ++ unit_area units ++ nl in
      let csv := csv ++ nl ++ "Paint Required" ++ nl in
      let csv := csv ++ "Coats," ++ Number_toString (coats (result_settings res)) ++ nl in
      let csv := csv ++ "Wastage,"
                     ++ Number_toString (wastagePercent (result_settings res))
                     ++ "%" ++ nl in
      let csv := csv ++ "Coverage," ++ coverage_text (result_coverage res)
                     ++ " " ++ unit_area units ++ "/" ++ unit_volumeAbbr units ++ nl in
      let csv := csv ++ "Paint Required,"
                     ++ toFixed 2 (withWastage (result_paint res))
                     ++ " " ++ unit_volumeAbbr units ++ nl in
      let csv := csv ++ "Recommended Purchase,"
                     ++ Number_toString (rounded (result_paint res))
                     ++ " " ++ unit_volumeAbbr units ++ nl in
      Returns csv
  end.

End ExportUtils.
Export ExportUtils.

(* ================================================================== *)
(** ** The application: state, unit toggle, derived results *)

Module PaintCalculator.

Record state := {
  unitSystem : string;
  rooms : list room;
  current_settings : settings;
}.

Definition initial_state : state :=
  {| unitSystem := "imperial"; rooms := []; current_settings := DEFAULT_SETTINGS |}.

Definition conversion_factor (newUnit : string) : number :=
  if String.eqb newUnit "metric" then of_decimal 3048 (-4)
  else of_decimal 328084 (-5).

(** [(parseFloat(v) * factor).toFixed(2)] *)
Definition convert_dimension (factor : number) (v : value) : value :=
  Str (toFixed 2 (mul (parseFloat v) factor)).

Definition convert_opening (factor : number) (o : opening) : opening :=
  {| opening_type_tag := opening_type_tag o;
     opening_width := convert_dimension factor (opening_width o);
     opening_height := convert_dimension factor (opening_height o);
     quantity := quantity o;
     action := action o;
     customFaces := customFaces o |}.

Definition convert_room (newUnit : string) (r : room) : room :=
  let factor := conversion_factor newUnit in
  {| room_id := room_id r;
     room_name := room_name r;
     room_length := convert_dimension factor (room_length r);
     room_width := convert_dimension factor (room_width r);
     room_height := convert_dimension factor (room_height r);
     openings := map (convert_opening factor) (openings r) |}.

Definition handleUnitChange (newUnit : string) (st : state) : state :=
  if String.eqb newUnit (unitSystem st) then st
  else
    {| unitSystem := newUnit;
       rooms := map (convert_room newUnit) (rooms st);
       current_settings := current_settings st |}.

(** The derived result: [null] (here [None]) while there is no room. *)
Definition results (st : state) : option (outcome CalculationResult) :=
  match rooms st with
  | [] => None
  | _ => Some (calculateAll (rooms st) (current_settings st) (unitSystem st))
  end.

(** The example of the example panel. *)
Definition example_living_room : room :=
  {| room_id := "1"; room_name := "Living Room";
     room_length := Num (of_Z 20); room_width := Num (of_Z 15);
     room_height := Num (of_Z 9);
     openings :=
       [ {| opening_type_tag := "prefinishedDoor";
            opening_width := Num (of_Z 3); opening_height := Num (of_Z 7);
            quantity := Num (of_Z 1); action := "subtract"; customFaces := None |};
         {| opening_type_tag := "window";
            opening_width := Num (of_Z 6); opening_height := Num (of_Z 4);
            quantity := Num (of_Z 2); action := "subtract"; customFaces := None |} ] |}.

Definition example_master_bedroom : room :=
  {| room_id := "2"; room_name := "Master Bedroom";
     room_length := Num (of_Z 14); room_width := Num (of_Z 12);
     room_height := Num (of_Z 9);
     openings :=
       [ {| opening_type_tag := "paintableDoor";
            opening_width := Num (of_Z 3); opening_height := Num (of_Z 7);
            quantity := Num (of_Z 1); action := "add";
            customFaces := Some (of_Z 2) |};
         {| opening_type_tag := "window";
            opening_width := Num (of_Z 4); opening_height := Num (of_Z 3);
            quantity := Num (of_Z 1); action := "subtract"; customFaces := None |};
         {| opening_type_tag := "wardrobe";
            opening_width := Num (of_Z 8); opening_height := Num (of_Z 8);
            quantity := Num (of_Z 1); action := "add";
            customFaces := Some (of_Z 1) |} ] |}.

Definition exampleData_rooms : list room :=
  [ example_living_room; example_master_bedroom ].

Definition exampleData_settings : settings :=
  {| coats := of_Z 2; wastagePercent := of_Z 10;
     includeCeiling := true; paintType := "interior" |}.

(** *** The room list *)

(** The object passed to updateRoom: the properties of a room that it
    overwrites, [None] for a property it does not mention. *)
Record room_updates := {
  upd_id : option string;
  upd_name : option string;
  upd_length : option value;
  upd_width : option value;
  upd_height : option value;
  upd_openings : option (list opening);
}.

Definition no_updates : room_updates :=
  {| upd_id := None; upd_name := None; upd_length := None; upd_width := None;
     upd_height := None; upd_openings := None |}.

Definition override {A : Type} (u : option A) (a : A) : A :=
  match u with
  | Some x => x
  | None => a
  end.

(** [{ ...room, ...updates }] *)
Definition spread_room (r : room) (u : room_updates) : room :=
  {| room_id := override (upd_id u) (room_id r);
     room_name := override (upd_name u) (room_name r);
     room_length := override (upd_length u) (room_length r);
     room_width := override (upd_width u) (room_width r);
     room_height := override (upd_height u) (room_height r);
     openings := override (upd_openings u) (openings r) |}.

Definition with_rooms (st : state) (rs : list room) : state :=
  {| unitSystem := unitSystem st; rooms := rs; current_settings := current_settings st |}.

(** addRoom; [id] is the identifier that generateId draws at random. *)
Definition addRoom (id : string) (st : state) : state :=
  let imperial := String.eqb (unitSystem st) "imperial" in
  let newRoom :=
    {| room_id := id;
       room_name :=
         "Room " ++ Number_toString (add (of_Z (Z.of_nat (List.length (rooms st)))) (of_Z 1));
       room_length := Num (if imperial then of_Z 12 else of_Z 4);
       room_width := Num (if imperial then of_Z 10 else of_Z 3);
       room_height := Num (if imperial then of_Z 9 else of_decimal 27 (-1));
       openings := [] |} in
  with_rooms st (rooms st ++ [newRoom])%list.

Definition updateRoom (roomId : string) (u : room_updates) (st : state) : state :=
  with_rooms st
    (map (fun r => if String.eqb (room_id r) roomId then spread_room r u else r) (rooms st)).

Definition deleteRoom (roomId : string) (st : state) : state :=
  with_rooms st (filter (fun r => negb (String.eqb (room_id r) roomId)) (rooms st)).

(** [room.id === roomId], where [roomId] is [null] while no room is chosen. *)
Definition is_room (roomId : option string) (r : room) : bool :=
  match roomId with
  | Some i => String.eqb (room_id r) i
  | None => false
  end.

(** addOpening; [roomId] is the room the opening dialog was opened for. *)
Definition addOpening (roomId : option string) (o : opening) (st : state) : state :=
  with_rooms st
    (map (fun r =>
            if is_room roomId r
            then spread_room r
                   {| upd_id := None; upd_name := None; upd_length := None;
                      upd_width := None; upd_height := None;
                      upd_openings := Some (openings r ++ [o])%list |}
            else r)
         (rooms st)).

(** *** Settings *)

Record settings_updates := {
  upd_coats : option number;
  upd_wastagePercent : option number;
  upd_includeCeiling : option bool;
  upd_paintType : option string;
}.

Definition updateSettings (u : settings_updates) (st : state) : state :=
  {| unitSystem := unitSystem st;
     rooms := rooms st;
     current_settings :=
       {| coats := override (upd_coats u) (coats (current_settings st));
          wastagePercent :=
            override (upd_wastagePercent u) (wastagePercent (current_settings st));
          includeCeiling :=
            override (upd_includeCeiling u) (includeCeiling (current_settings st));
          paintType := override (upd_paintType u) (paintType (current_settings st)) |} |}.

(** The change handlers of the coats and wastage fields:
    [parseInt(e.target.value) || 1] and [parseInt(e.target.value) || 0]. *)
Definition coats_onChange (text : string) (st : state) : state :=
  updateSettings
    {| upd_coats := Some (or_else (parseInt_str text) (of_Z 1));
       upd_wastagePercent := None; upd_includeCeiling := None; upd_paintType := None |} st.

Definition wastage_onChange (text : string) (st : state) : state :=
  updateSettings
    {| upd_coats := None;
       upd_wastagePercent := Some (or_else (parseInt_str text) (of_Z 0));
       upd_includeCeiling := None; upd_paintType := None |} st.

(** *** The room form *)

(** validateField; the field name is not used. *)
Definition validateField (v : value) : option string :=
  let numVal := parseFloat v in
  if is_nan numVal || leb numVal (of_Z 0) then Some "Must be a positive number"
  else None.

Inductive dimension := length_field | width_field | height_field.

(** The validation messages of a room form, one for each dimension. *)
Record form_errors := {
  error_length : option string;
  error_width : option string;
  error_height : option string;
}.

Definition set_error (f : dimension) (e : option string) (errs : form_errors)
  : form_errors :=
  match f with
  | length_field =>
      {| error_length := e; error_width := error_width errs;
         error_height := error_height errs |}
  | width_field =>
      {| error_length := error_length errs; error_width := e;
         error_height := error_height errs |}
  | height_field =>
      {| error_length := error_length errs; error_width := error_width errs;
         error_height := e |}
  end.

(** [{ [field]: value }] *)
Definition dimension_update (f : dimension) (v : value) : room_updates :=
  match f with
  | length_field =>
      {| upd_id := None; upd_name := None; upd_length := Some v; upd_width := None;
         upd_height := None; upd_openings := None |}
  | width_field =>
      {| upd_id := None; upd_name := None; upd_length := None; upd_width := Some v;
         upd_height := None; upd_openings := None |}
  | height_field =>
      {| upd_id := None; upd_name := None; upd_length := None; upd_width := None;
         upd_height := Some v; upd_openings := None |}
  end.

(** handleChange of the form of the room [r]: the message is recorded and
    the room is updated with the text as typed. *)
Definition handleChange (r : room) (f : dimension) (text : string)
    (errs : form_errors) (st : state) : form_errors * state :=
  let error := validateField (Str text) in
  (set_error f error errs, updateRoom (room_id r) (dimension_update f (Str text)) st).

(** [list.filter((_, i) => keep(i))] *)
Definition filter_index {A : Type} (keep : nat -> bool) (l : list A) : list A :=
  map snd (filter (fun p => keep (fst p)) (combine (seq 0 (List.length l)) l)).

(** The remove button of the opening at [index] in the form of the room [r]. *)
Definition removeOpening (r : room) (index : nat) (st : state) : state :=
  let newOpenings := filter_index (fun i => negb (Nat.eqb i index)) (openings r) in
  updateRoom (room_id r)
    {| upd_id := None; upd_name := None; upd_length := None; upd_width := None;
       upd_height := None; upd_openings := Some newOpenings |} st.

End PaintCalculator.
Export PaintCalculator.

(* ================================================================== *)
(** ** Notions used to state the properties *)

(** The sum of the areas of a list of openings, added up in list order from
    zero, as the loop over the openings does. *)
Definition sum_of_opening_areas (os : list opening) : number :=
  fold_left (fun acc o => add acc (calculateOpeningArea o)) os (of_Z 0).

Definition is_subtract (o : opening) : bool := String.eqb (action o) "subtract".
Definition is_add (o : opening) : bool := String.eqb (action o) "add".

(** A String is non-numeric when, after leading white space and an optional
    sign, it starts neither with [Infinity], nor with a digit, nor with a
    point followed by a digit.  This is the case in which the room form's
    [validateField] reports "Must be a positive number" for want of a number. *)
Definition starts_number (s : string) : bool :=
  prefix "Infinity" s ||
  match s with
  | String c r =>
      is_digit c ||
      (Ascii.eqb c "." && match r with String d _ => is_digit d | EmptyString => false end)
  | EmptyString => false
  end.

Definition non_numeric (s : string) : bool :=
  negb (starts_number (snd (read_sign (trim_start s)))).

(** A Number is well formed when its significand is canonical and its
    exponent in range. *)
Definition valid (f : number) : bool := valid_binary prec emax f.

(** A finite, well-formed Number that is not below zero. *)
Definition non_negative_number (x : number) : bool := valid x && is_finite x && leb zero x.

(** A finite, well-formed Number above zero. *)
Definition positive_number (x : number) : bool := valid x && is_finite x && ltb zero x.

(** The range in which toFixed prints digits: a finite Number of magnitude
    below 10^21. *)
Definition fixed_range (x : number) : bool :=
  match x with
  | S754_zero _ => true
  | S754_finite _ m e => below_pow10 (numer m e) (denom e) 21
  | _ => false
  end.


(** A room of ten feet each way. *)
Definition ten_foot_room : room :=
  {| room_id := "1"; room_name := "Room 1"; room_length := Num (of_Z 10);
     room_width := Num (of_Z 10); room_height := Num (of_Z 10); openings := [] |}.

(* ================================================================== *)
(** ** Rounding: the notions behind the arithmetic of Numbers

    A finite Number [m * 2^e] has a real value; every operation returns the
    Number nearest to the exact real result.  These notions serve the
    proofs about order. *)

Module Rounding.

Local Open Scope R_scope.

Definition bpow (e : Z) : R := powerRZ 2 e.

Definition located (y : R) (m : Z) (l : location) : Prop :=
  match l with
  | loc_Exact => y = IZR m
  | loc_Inexact Lt => IZR m < y < IZR m + / 2
  | loc_Inexact Eq => y = IZR m + / 2
  | loc_Inexact Gt => IZR m + / 2 < y < IZR m + 1
  end.

Definition located_rec (y : R) (r : shr_record) : Prop :=
  located y (shr_m r) (loc_of_shr_record r).

Definition is_rne (y : R) (n : Z) : Prop :=
  IZR n - / 2 <= y <= IZR n + / 2 /\
  (y = IZR n - / 2 \/ y = IZR n + / 2 -> Z.even n = true).

(** The finite value [m * 2^e], or infinity when [e] is out of range. *)
Definition build (m : positive) (e : Z) : spec_float :=
  if (e <=? 971)%Z then S754_finite false m e else S754_infinity false.

(** The value with significand [n] at exponent [t]; a significand that
    reached [2^53] moves to the next exponent. *)
Definition encode (n t : Z) : spec_float :=
  match n with
  | Z0 => S754_zero false
  | Zpos p =>
      if (n =? 2 ^ 53)%Z then build (2 ^ 52)%positive (t + 1) else build p t
  | Zneg _ => S754_nan
  end.

(** [f] is the binary64 value nearest to the positive real [x]: the
    exponent [t] is fixed by the magnitude of [x], the significand is [x]
    rounded to an integer at that exponent. *)
Definition Rnd (x : R) (f : spec_float) : Prop :=
  exists n t,
    (-1074 <= t)%Z /\
    x < bpow (t + 53) /\
    ((-1074 < t)%Z -> bpow (t + 52) <= x) /\
    is_rne (x / bpow t) n /\
    f = encode n t.

(** The real value of a finite Number. *)
Definition SF2R (f : spec_float) : R :=
  match f with
  | S754_finite s m e => IZR (cond_Zopp s (Z.pos m)) * bpow e
  | _ => 0
  end.

(** The result of a rounding is well formed, and it is zero, positive
    finite or plus infinity. *)
Definition nonneg (f : spec_float) : bool :=
  match f with
  | S754_zero _ => true
  | S754_infinity s => negb s
  | S754_nan => false
  | S754_finite s m e => negb s && bounded prec emax m e
  end.

Definition posfin (f : spec_float) : bool :=
  match f with
  | S754_finite s m e => negb s && bounded prec emax m e
  | _ => false
  end.

Definition max_float : spec_float := S754_finite false (2 ^ 53 - 1) 971.

(** What the paint figure is multiplied by for the wastage. *)
Definition wastage_factor (w : number) : number :=
  add (of_Z 1) (div w (of_Z 100)).

(** The integer that Math.ceil returns for a positive Number. *)
Definition ceilZ (m : positive) (e : Z) : Z :=
  match e with
  | Z.neg k =>
      let q := Z.shiftr (Z.pos m) (Z.pos k) in
      if (Z.shiftl q (Z.pos k) =? Z.pos m)%Z then q else (q + 1)%Z
  | _ => (Z.pos m * 2 ^ e)%Z
  end.

End Rounding.
Export Rounding.

(* ================================================================== *)
(** ** Notions used to state the further properties *)

(** No room of the state has the identifier [id]. *)
Definition fresh (id : string) (st : state) : Prop :=
  forall r, In r (rooms st) -> room_id r <> id.

(** The text does not go on with a digit. *)
Definition no_digit_head (s : string) : bool :=
  match s with
  | String c _ => negb (is_digit c)
  | EmptyString => true
  end.

(** The text goes on neither with a digit, nor with a point, nor with an
    exponent mark. *)
Definition no_number_head (s : string) : bool :=
  match s with
  | String c _ =>
      negb (is_digit c || Ascii.eqb c "." || Ascii.eqb c "e" || Ascii.eqb c "E")
  | EmptyString => true
  end.

(** After white space and a sign the text does not start with a digit. *)
Definition no_leading_digit (s : string) : bool :=
  no_digit_head (snd (read_sign (trim_start s))).

(** The field of a room, and the message of a form, for a dimension. *)
Definition dimension_of (f : dimension) (r : room) : value :=
  match f with
  | length_field => room_length r
  | width_field => room_width r
  | height_field => room_height r
  end.

Definition error_of (f : dimension) (errs : form_errors) : option string :=
  match f with
  | length_field => error_length errs
  | width_field => error_width errs
  | height_field => error_height errs
  end.

Definition with_openings (r : room) (os : list opening) : room :=
  {| room_id := room_id r; room_name := room_name r; room_length := room_length r;
     room_width := room_width r; room_height := room_height r; openings := os |}.

Definition with_quantity (o : opening) (q : value) : opening :=
  {| opening_type_tag := opening_type_tag o; opening_width := opening_width o;
     opening_height := opening_height o; quantity := q; action := action o;
     customFaces := customFaces o |}.

Definition with_includeCeiling (st : settings) (b : bool) : settings :=
  {| coats := coats st; wastagePercent := wastagePercent st;
     includeCeiling := b; paintType := paintType st |}.

(** The action of the opening is one the engine knows. *)
Definition known_action (o : opening) : bool := is_subtract o || is_add o.

(** The figures of a room under the settings. *)
Definition room_calculation (st : settings) (r : room) : areas :=
  calculateRoomArea r (includeCeiling st).

(** The net wall, ceiling and add areas of the room are Numbers that are
    not below zero. *)
Definition areas_not_negative (r : room) : Prop :=
  let a := calculateRoomArea r true in
  nonneg (netWallArea a) = true /\ nonneg (ceilingArea a) = true /\
  nonneg (addArea a) = true.

(** [f] is the Number nearest to the real [x], which is not below zero. *)
Definition Rnd0 (x : R) (f : spec_float) : Prop :=
  (x = 0%R /\ exists s, f = S754_zero s) \/ ((0 < x)%R /\ Rnd x f).

(** The least positive Number with a full significand, 2^-1022. *)
Definition min_normal : number := S754_finite false (2 ^ 52) (-1074).

(** The integer that toFixed(2) prints for the positive Number [m * 2^e]. *)
Definition cents (m : positive) (e : Z) : Z :=
  (2 * numer m e * 10 ^ Z.of_nat 2 + denom e) / (2 * denom e).

(** The names that every object inherits from [Object.prototype].  The
    tables above are object literals: [lookup] gives their own entries,
    and for one of these names the JavaScript property read finds the
    inherited member instead of nothing. *)
Definition Object_prototype_keys : list string :=
  [ "constructor"; "__defineGetter__"; "__defineSetter__"; "hasOwnProperty";
    "__lookupGetter__"; "__lookupSetter__"; "isPrototypeOf";
    "propertyIsEnumerable"; "toString"; "valueOf"; "__proto__";
    "toLocaleString" ].

(** The text of an integer: a minus sign for a negative one, then its
    digits. *)
Definition integer_text (n : Z) : string :=
  if (n <? 0)%Z then "-" ++ decimal_string (- n) else decimal_string n.

(** [t] is [x] to two decimal places: a minus sign for a negative Number,
    the integer part in decimal, a point and two digits, where the
    hundredths [100 * ip + fr] are the integer nearest to [100 * |x|], the
    larger one on a tie. *)
Definition to_two_decimals (x : number) (t : string) : Prop :=
  exists ip fr : Z,
    0 <= ip /\ 0 <= fr < 100 /\
    (IZR (100 * ip + fr) <= 100 * Rabs (SF2R x) + / 2 < IZR (100 * ip + fr) + 1)%R /\
    t = match x with S754_finite true _ _ => "-" | _ => "" end
        ++ decimal_string ip ++ "." ++ digits_fixed 2 fr.

(** The five figures that the report prints of a room, or of the totals,
    are finite and below 10^21 in magnitude. *)
Definition figures_in_range (c : areas) : Prop :=
  fixed_range (wallArea c) = true /\ fixed_range (ceilingArea c) = true /\
  fixed_range (subtractArea c) = true /\ fixed_range (addArea c) = true /\
  fixed_range (totalPaintableArea c) = true.

(** A finite, well-formed Number of magnitude at most 2^53 - 1. *)
Definition integer_range (x : number) : bool :=
  match x with
  | S754_zero _ => true
  | S754_finite _ m e =>
      bounded prec emax m e && (numer m e <=? (2 ^ 53 - 1) * denom e)%Z
  | _ => false
  end.

(** [row] is the line of the room table for [r]: the quoted name and the
    wall, ceiling, subtract, add and total paintable area to two
    decimals. *)
Definition is_row (r : room_result) (row : string) : Prop :=
  exists t1 t2 t3 t4 t5 : string,
    row = quote ++ room_name (source r) ++ quote ++ "," ++ t1 ++ "," ++ t2 ++ ","
          ++ t3 ++ "," ++ t4 ++ "," ++ t5 ++ nl /\
    to_two_decimals (wallArea (calculations r)) t1 /\
    to_two_decimals (ceilingArea (calculations r)) t2 /\
    to_two_decimals (subtractArea (calculations r)) t3 /\
    to_two_decimals (addArea (calculations r)) t4 /\
    to_two_decimals (totalPaintableArea (calculations r)) t5.

(** The coverage rates as the report prints them, by paint type and unit
    system. *)
Definition coverage_rates : list (string * (string * string)) :=
  [ ("interior", ("imperial", "350")); ("interior", ("metric", "32.5"));
    ("exterior", ("imperial", "300")); ("exterior", ("metric", "28"));
    ("enamel", ("imperial", "400")); ("enamel", ("metric", "37"));
    ("primer", ("imperial", "400")); ("primer", ("metric", "37"));
    ("ceiling", ("imperial", "400")); ("ceiling", ("metric", "37")) ].

(** The living room of the example with its dimensions typed as texts. *)
Definition typed_living_room : room :=
  {| room_id := "1"; room_name := "Living Room";
     room_length := Str "20"; room_width := Str "15"; room_height := Str "9";
     openings := openings example_living_room |}.

(** A room added in imperial units whose length field was cleared. *)
Definition cleared_room : room :=
  {| room_id := "a1"; room_name := "Room 1"; room_length := Str "";
     room_width := Num (of_Z 10); room_height := Num (of_Z 9); openings := [] |}.

(* ================================================================== *)
(** * Properties *)

(** ** Facts about Numbers *)

Lemma mul_NaN_l (x : number) : mul NaN x = NaN.
Proof. reflexivity. Qed.

Lemma mul_NaN_r (x : number) : mul x NaN = NaN.
Proof. destruct x; reflexivity. Qed.

Lemma add_NaN_l (x : number) : add NaN x = NaN.
Proof. reflexivity. Qed.

Lemma add_NaN_r (x : number) : add x NaN = NaN.
Proof. destruct x; reflexivity. Qed.

Lemma sub_NaN_l (x : number) : sub NaN x = NaN.
Proof. reflexivity. Qed.

Lemma Math_max_NaN_r (x : number) : Math_max x NaN = NaN.
Proof. unfold Math_max. destruct x; reflexivity. Qed.

(** Math.max with 0 is never below zero. *)
Lemma Math_max_zero_not_negative (x : number) :
  ltb (Math_max (of_Z 0) x) zero = false.
Proof.
  destruct x as [s | s | | s m e]; try destruct s; reflexivity.
Qed.

(** A positive Number is not a zero, so parseFloat returns it unchanged. *)
Lemma parseFloat_positive (x : number) :
  ltb zero x = true -> parseFloat (Num x) = x.
Proof.
  destruct x as [s | s | | s m e]; simpl; try reflexivity.
  unfold ltb, SFltb; simpl. discriminate.
Qed.

(** ** Room areas *)

(** The loop over the openings keeps two independent running sums: one over
    the openings to subtract, one over the openings to add. *)
Lemma fold_opening_step (os : list opening) (s a : number) :
  fold_left opening_step os (s, a) =
  (fold_left (fun acc o => add acc (calculateOpeningArea o)) (filter is_subtract os) s,
   fold_left (fun acc o => add acc (calculateOpeningArea o)) (filter is_add os) a).
Proof.
  revert s a. induction os as [| o os IH]; intros s a; simpl; [reflexivity |].
  unfold opening_step at 2, is_subtract at 1, is_add at 1; simpl.
  destruct (String.eqb (action o) "subtract") eqn:Es.
  - apply String.eqb_eq in Es.
    assert (Ea : String.eqb (action o) "add" = false) by (rewrite Es; reflexivity).
    rewrite Ea. simpl. apply IH.
  - destruct (String.eqb (action o) "add"); simpl; apply IH.
Qed.

(** C1. For a room whose length, width and height fields read as the
    positive Numbers L, W and H (Numbers as in the defaults and the
    example, or texts as typed or as stored by the unit toggle), openings
    whose action is add or subtract, and either setting of includeCeiling,
    calculateRoomArea returns wallArea = 2*(L+W)*H, ceilingArea = L*W when
    the ceiling is included and 0 otherwise, subtractArea and addArea the
    sums of the opening areas with the action subtract, respectively add,
    netWallArea = max(0, wallArea - subtractArea), which is never
    negative, and totalPaintableArea = netWallArea + ceilingArea +
    addArea.  So the living room of the example, typed as 20 by 15 by 9,
    has the figures 630, 300, 69, 0, 561 and 861. *)
Theorem C1_room_area
    (id name : string) (vl vw vh : value) (L W H : number) (os : list opening)
    (ic : bool) :
  parseFloat vl = L -> parseFloat vw = W -> parseFloat vh = H ->
  ltb zero L = true -> ltb zero W = true -> ltb zero H = true ->
  Forall (fun o => action o = "add" \/ action o = "subtract") os ->
  let a := calculateRoomArea
             {| room_id := id; room_name := name; room_length := vl;
                room_width := vw; room_height := vh; openings := os |} ic in
  (wallArea a = mul (mul (of_Z 2) (add L W)) H /\
   ceilingArea a = (if ic then mul L W else of_Z 0) /\
   subtractArea a = sum_of_opening_areas (filter is_subtract os) /\
   addArea a = sum_of_opening_areas (filter is_add os) /\
   netWallArea a = Math_max (of_Z 0) (sub (wallArea a) (subtractArea a)) /\
   ltb (netWallArea a) zero = false /\
   totalPaintableArea a = add (add (netWallArea a) (ceilingArea a)) (addArea a)) /\
  calculateRoomArea typed_living_room true =
    {| wallArea := of_Z 630; ceilingArea := of_Z 300; subtractArea := of_Z 69;
       addArea := of_Z 0; netWallArea := of_Z 561; totalPaintableArea := of_Z 861 |}.
Proof.
  intros EL EW EH HL HW HH _ a. subst a. split; [| vm_compute; reflexivity].
  unfold calculateRoomArea, calculateWallArea, calculateCeilingArea,
    sum_of_opening_areas.
  cbn [room_length room_width room_height openings].
  rewrite EL, EW, EH, fold_opening_step.
  cbn [wallArea ceilingArea subtractArea addArea netWallArea totalPaintableArea].
  repeat split; try reflexivity.
  apply Math_max_zero_not_negative.
Qed.

Lemma C1_room_area_witness :
  let a := calculateRoomArea
             {| room_id := "2"; room_name := "Master Bedroom";
                room_length := Str "14"; room_width := Str "12.0";
                room_height := Num (of_Z 9);
                openings := openings example_master_bedroom |} false in
  wallArea a = of_Z 468 /\ ceilingArea a = of_Z 0 /\ subtractArea a = of_Z 12 /\
  addArea a = of_Z 106 /\ netWallArea a = of_Z 456 /\
  ltb (netWallArea a) zero = false /\ totalPaintableArea a = of_Z 562.
Proof.
  pose proof (C1_room_area "2" "Master Bedroom" (Str "14") (Str "12.0") (Num (of_Z 9))
                (of_Z 14) (of_Z 12) (of_Z 9)
                (openings example_master_bedroom) false
                eq_refl eq_refl eq_refl eq_refl eq_refl eq_refl) as P.
  assert (F : Forall (fun o => action o = "add" \/ action o = "subtract")
                (openings example_master_bedroom)).
  { repeat constructor; (left; reflexivity) || (right; reflexivity). }
  specialize (P F). cbv zeta in P.
  destruct P as ((Pw & Pc & Ps & Pa & Pn & Pz & Pt) & _).
  split; [etransitivity; [exact Pw | reflexivity] |].
  split; [exact Pc |].
  split; [etransitivity; [exact Ps | reflexivity] |].
  split; [etransitivity; [exact Pa | reflexivity] |].
  split; [etransitivity; [exact Pn | vm_compute; reflexivity] |].
  split; [exact Pz |].
  etransitivity; [exact Pt | vm_compute; reflexivity].
Defined.

(** ** The worked example *)

(** C4. The two rooms of the example panel, with the ceiling included,
    interior paint, 2 coats, 10 % wastage and imperial units: per room
    630 / 300 / 69 / 0 / 561 / 861 and 468 / 168 / 12 / 106 / 456 / 730;
    in total 1591 paintable square feet at coverage 350; the paint figures
    are 4.5457, 9.0914 and 10.0006 to four decimals, and 11 gallons are
    recommended. *)
Theorem C4_example_end_to_end :
  exists r,
    calculateAll exampleData_rooms exampleData_settings "imperial" = Returns r /\
    map calculations (result_rooms r) =
      [ {| wallArea := of_Z 630; ceilingArea := of_Z 300; subtractArea := of_Z 69;
           addArea := of_Z 0; netWallArea := of_Z 561;
           totalPaintableArea := of_Z 861 |};
        {| wallArea := of_Z 468; ceilingArea := of_Z 168; subtractArea := of_Z 12;
           addArea := of_Z 106; netWallArea := of_Z 456;
           totalPaintableArea := of_Z 730 |} ] /\
    totalPaintableArea (totals r) = of_Z 1591 /\
    result_coverage r = Some (of_Z 350) /\
    toFixed 4 (base (result_paint r)) = "4.5457" /\
    toFixed 4 (withCoats (result_paint r)) = "9.0914" /\
    toFixed 4 (withWastage (result_paint r)) = "10.0006" /\
    rounded (result_paint r) = of_Z 11.
Proof.
  eexists. split; [vm_compute; reflexivity |].
  repeat split; vm_compute; reflexivity.
Qed.

(** ** Malformed input *)

Lemma read_digits_no_digit (c : ascii) (r : string) (acc cnt : Z) :
  is_digit c = false -> read_digits (String c r) acc cnt = (acc, cnt, String c r).
Proof. intros H. simpl. rewrite H. reflexivity. Qed.

(** parseFloat finds no number in a non-numeric String. *)
Lemma parseFloat_str_non_numeric (s : string) :
  non_numeric s = true -> parseFloat_str s = NaN.
Proof.
  unfold non_numeric, parseFloat_str.
  destruct (read_sign (trim_start s)) as [neg t]. cbn [snd].
  intros H. apply negb_true_iff in H. unfold starts_number in H.
  apply orb_false_iff in H as [Hinf H]. rewrite Hinf.
  destruct t as [| c r]; [reflexivity |].
  apply orb_false_iff in H as [Hd Hp].
  rewrite (read_digits_no_digit c r 0 0 Hd).
  destruct (Ascii.eqb c ".") eqn:E.
  - apply Ascii.eqb_eq in E. subst c.
    destruct r as [| d r']; [reflexivity |].
    cbn [andb] in Hp. rewrite (read_digits_no_digit d r' 0 0 Hp). reflexivity.
  - destruct c as [[] [] [] [] [] [] [] []]; try reflexivity; discriminate E.
Qed.

(** The sum of opening areas that are all NaN: NaN, or 0 when there is no
    opening. *)
Lemma sum_of_NaN_areas (os : list opening) :
  (forall o, In o os -> calculateOpeningArea o = NaN) ->
  sum_of_opening_areas os = match os with [] => of_Z 0 | _ => NaN end.
Proof.
  intros H. unfold sum_of_opening_areas.
  assert (G : forall l, (forall o, In o l -> calculateOpeningArea o = NaN) ->
              fold_left (fun acc o => add acc (calculateOpeningArea o)) l NaN = NaN).
  { induction l as [| o l IH]; intros Hl; [reflexivity |].
    cbn [fold_left]. rewrite add_NaN_l. apply IH.
    intros o' Ho'. apply Hl. right. exact Ho'. }
  destruct os as [| o os]; [reflexivity |].
  cbn [fold_left]. rewrite (H o (or_introl eq_refl)), add_NaN_r.
  apply G. intros o' Ho'. apply H. right. exact Ho'.
Qed.

Lemma filter_nil_existsb {A : Type} (f : A -> bool) (l : list A) :
  match filter f l with [] => existsb f l = false | _ => existsb f l = true end.
Proof.
  induction l as [| a l IH]; [reflexivity |].
  cbn [filter existsb]. destruct (f a); [reflexivity |]. exact IH.
Qed.

(** The claim C9 as stated fails for texts that are not numbers but start
    with one: parseFloat reads the number at the head, and the room typed
    as [12 ft] by [10 ft] by [9 ft] has the finite wall area 396. *)
Lemma C9_counterexample :
  calculateWallArea (Str "12 ft") (Str "10 ft") (Str "9 ft") = of_Z 396 /\
  is_finite (calculateWallArea (Str "12 ft") (Str "10 ft") (Str "9 ft")) = true /\
  calculateCeilingArea (Str "1,5") (Str "0x10") = of_Z 0 /\
  is_finite (calculateCeilingArea (Str "1,5") (Str "0x10")) = true.
Proof. repeat split; vm_compute; reflexivity. Qed.

(** C9, as amended. On dimension fields that are texts with no number at
    their head (after white space and a sign neither a digit, nor a point
    and a digit, nor [Infinity]) the area functions of the engine return,
    being total functions, and propagate NaN: calculateWallArea,
    calculateCeilingArea and calculateOpeningArea return NaN, and of the
    six figures of calculateRoomArea the wall, net wall and total
    paintable area are NaN, the ceiling area is NaN when the ceiling is
    included and 0 otherwise, and the subtract and add areas are the sums
    of the opening areas, which are NaN when the openings have such
    dimensions too and there is one of that action, and 0 when there is
    none. *)
Theorem C9_non_numeric_gives_NaN (l w h : string) :
  non_numeric l = true -> non_numeric w = true -> non_numeric h = true ->
  calculateWallArea (Str l) (Str w) (Str h) = NaN /\
  calculateCeilingArea (Str l) (Str w) = NaN /\
  (forall o, opening_width o = Str w -> opening_height o = Str h ->
             calculateOpeningArea o = NaN) /\
  (forall id name os ic,
     let a := calculateRoomArea
                {| room_id := id; room_name := name; room_length := Str l;
                   room_width := Str w; room_height := Str h; openings := os |} ic in
     a = {| wallArea := NaN;
            ceilingArea := if ic then NaN else of_Z 0;
            subtractArea := sum_of_opening_areas (filter is_subtract os);
            addArea := sum_of_opening_areas (filter is_add os);
            netWallArea := NaN;
            totalPaintableArea := NaN |} /\
     is_finite (wallArea a) = false /\ is_finite (netWallArea a) = false /\
     is_finite (totalPaintableArea a) = false /\
     (Forall (fun o => exists ow oh,
                 opening_width o = Str ow /\ opening_height o = Str oh /\
                 non_numeric ow = true /\ non_numeric oh = true) os ->
      subtractArea a = (if existsb is_subtract os then NaN else of_Z 0) /\
      addArea a = (if existsb is_add os then NaN else of_Z 0))).
Proof.
  intros Hl Hw Hh.
  assert (Wall : calculateWallArea (Str l) (Str w) (Str h) = NaN).
  { unfold calculateWallArea, parseFloat.
    rewrite !parseFloat_str_non_numeric by assumption. reflexivity. }
  assert (Ceil : calculateCeilingArea (Str l) (Str w) = NaN).
  { unfold calculateCeilingArea, parseFloat.
    rewrite !parseFloat_str_non_numeric by assumption. reflexivity. }
  assert (Open : forall o ow oh,
            opening_width o = Str ow -> opening_height o = Str oh ->
            non_numeric ow = true -> non_numeric oh = true ->
            calculateOpeningArea o = NaN).
  { intros o ow oh Ew Eh Now Noh. unfold calculateOpeningArea. rewrite Ew, Eh.
    unfold parseFloat. rewrite !parseFloat_str_non_numeric by assumption.
    destruct (String.eqb (action o) "add"); reflexivity. }
  split; [exact Wall |]. split; [exact Ceil |].
  split; [intros o Ew Eh; apply (Open o w h); assumption |].
  intros id name os ic a.
  assert (E : a = {| wallArea := NaN;
                     ceilingArea := if ic then NaN else of_Z 0;
                     subtractArea := sum_of_opening_areas (filter is_subtract os);
                     addArea := sum_of_opening_areas (filter is_add os);
                     netWallArea := NaN;
                     totalPaintableArea := NaN |}).
  { unfold a, calculateRoomArea. cbn [room_length room_width room_height openings].
    rewrite Wall, Ceil, fold_opening_step. unfold sum_of_opening_areas.
    destruct ic; reflexivity. }
  split; [exact E |]. rewrite E.
  cbn [wallArea netWallArea totalPaintableArea subtractArea addArea].
  split; [reflexivity |]. split; [reflexivity |]. split; [reflexivity |].
  intros H. split.
  - rewrite sum_of_NaN_areas.
    + pose proof (filter_nil_existsb is_subtract os) as X.
      destruct (filter is_subtract os); rewrite X; reflexivity.
    + intros o Ho. apply filter_In in Ho as [Ho _].
      rewrite Forall_forall in H. destruct (H o Ho) as (ow & oh & Ew & Eh & Now & Noh).
      apply (Open o ow oh); assumption.
  - rewrite sum_of_NaN_areas.
    + pose proof (filter_nil_existsb is_add os) as X.
      destruct (filter is_add os); rewrite X; reflexivity.
    + intros o Ho. apply filter_In in Ho as [Ho _].
      rewrite Forall_forall in H. destruct (H o Ho) as (ow & oh & Ew & Eh & Now & Noh).
      apply (Open o ow oh); assumption.
Qed.

Lemma C9_non_numeric_gives_NaN_witness :
  calculateWallArea (Str "abc") (Str "") (Str "ten ft") = NaN /\
  calculateRoomArea
    {| room_id := "1"; room_name := "Room 1"; room_length := Str "abc";
       room_width := Str ""; room_height := Str "ten ft";
       openings :=
         [ {| opening_type_tag := "window"; opening_width := Str "wide";
              opening_height := Str "-"; quantity := Num (of_Z 1);
              action := "subtract"; customFaces := None |} ] |} false
  = {| wallArea := NaN; ceilingArea := of_Z 0; subtractArea := NaN;
       addArea := of_Z 0; netWallArea := NaN; totalPaintableArea := NaN |}.
Proof.
  destruct (C9_non_numeric_gives_NaN "abc" "" "ten ft" eq_refl eq_refl eq_refl)
    as (W & _ & _ & R).
  split; [exact W |].
  destruct (R "1" "Room 1"
              [ {| opening_type_tag := "window"; opening_width := Str "wide";
                   opening_height := Str "-"; quantity := Num (of_Z 1);
                   action := "subtract"; customFaces := None |} ] false)
    as (E & _).
  etransitivity; [exact E | reflexivity].
Defined.

(** ** The CSV report *)

Lemma append_assoc (a b c : string) : (a ++ b) ++ c = a ++ (b ++ c).
Proof. induction a as [| x a IH]; simpl; [reflexivity | rewrite IH; reflexivity]. Qed.

Lemma append_nil_r (a : string) : a ++ "" = a.
Proof. induction a as [| x a IH]; simpl; [reflexivity | rewrite IH; reflexivity]. Qed.

(** Appending one line per element to a text is appending the
    concatenation of the lines. *)
Lemma fold_left_append {A : Type} (f : A -> string) (l : list A) (init : string) :
  fold_left (fun csv r => csv ++ f r) l init = init ++ String.concat "" (map f l).
Proof.
  revert init. induction l as [| x l IH]; intros init; simpl.
  - symmetry. apply append_nil_r.
  - rewrite IH, append_assoc. f_equal.
    destruct (map f l) eqn:E; simpl.
    + apply append_nil_r.
    + reflexivity.
Qed.

(** The report unfolded: the lines of toCSV for a result whose unit system
    is known, as one text. *)
Lemma toCSV_layout (res : CalculationResult) (units : unit_system) :
  lookup UNIT_SYSTEMS (result_unitSystem res) = Some units ->
  toCSV res = Returns (
    "Paint Calculator Estimate" ++ nl ++
    nl ++
    "Room Details" ++ nl ++
    "Room Name,Wall Area,Ceiling Area,Subtract Area,Add Area,Net Paintable Area" ++ nl ++
    String.concat ""
      (map (fun r =>
              quote ++ room_name (source r) ++ quote ++ "," ++
              toFixed 2 (wallArea (calculations r)) ++ "," ++
              toFixed 2 (ceilingArea (calculations r)) ++ "," ++
              toFixed 2 (subtractArea (calculations r)) ++ "," ++
              toFixed 2 (addArea (calculations r)) ++ "," ++
              toFixed 2 (totalPaintableArea (calculations r)) ++ nl)
           (result_rooms res)) ++
    nl ++
    "Totals" ++ nl ++
    "Total Wall Area," ++ toFixed 2 (wallArea (totals res)) ++ " " ++ unit_area units ++ nl ++
    "Total Ceiling Area," ++ toFixed 2 (ceilingArea (totals res)) ++ " " ++ unit_area units ++ nl ++
    "Total Subtract Area," ++ toFixed 2 (subtractArea (totals res)) ++ " " ++ unit_area units ++ nl ++
    "Total Add Area," ++ toFixed 2 (addArea (totals res)) ++ " " ++ unit_area units ++ nl ++
    "Net Paintable Area," ++ toFixed 2 (totalPaintableArea (totals res)) ++ " " ++ unit_area units ++ nl ++
    nl ++
    "Paint Required" ++ nl ++
    "Coats," ++ Number_toString (coats (result_settings res)) ++ nl ++
    "Wastage," ++ Number_toString (wastagePercent (result_settings res)) ++ "%" ++ nl ++
    "Coverage," ++ coverage_text (result_coverage res) ++ " " ++ unit_area units ++ "/" ++ unit_volumeAbbr units ++ nl ++
    "Paint Required," ++ toFixed 2 (withWastage (result_paint res)) ++ " " ++ unit_volumeAbbr units ++ nl ++
    "Recommended Purchase," ++ Number_toString (rounded (result_paint res)) ++ " " ++ unit_volumeAbbr units ++ nl).
Proof.
  intros Hu. unfold toCSV. rewrite Hu. f_equal.
  rewrite fold_left_append. unfold csv_header.
  repeat rewrite append_assoc. reflexivity.
Qed.

(** ** No rooms *)

(** C8. With no room there is no result, whereas any state with a room has
    one; and for a known paint type and unit system calculateAll of the
    empty room list returns a result with no rooms and zero totals, which
    toCSV turns into a report with an empty room table instead of throwing. *)
Theorem C8_no_rooms
    (st : settings) (unit : string) (pt : paint_type) (units : unit_system) :
  lookup PAINT_TYPES (paintType st) = Some pt ->
  lookup UNIT_SYSTEMS unit = Some units ->
  results {| unitSystem := unit; rooms := []; current_settings := st |} = None /\
  (forall r rs,
     results {| unitSystem := unit; rooms := r :: rs; current_settings := st |} <> None) /\
  exists res rest,
    calculateAll [] st unit = Returns res /\
    result_rooms res = [] /\
    totals res = zero_totals /\
    toCSV res = Returns (
      "Paint Calculator Estimate" ++ nl ++
      nl ++
      "Room Details" ++ nl ++
      "Room Name,Wall Area,Ceiling Area,Subtract Area,Add Area,Net Paintable Area" ++ nl ++
      nl ++
      "Totals" ++ nl ++
      "Total Wall Area,0.00 " ++ unit_area units ++ nl ++
      "Total Ceiling Area,0.00 " ++ unit_area units ++ nl ++
      "Total Subtract Area,0.00 " ++ unit_area units ++ nl ++
      "Total Add Area,0.00 " ++ unit_area units ++ nl ++
      "Net Paintable Area,0.00 " ++ unit_area units ++ nl ++
      nl ++
      "Paint Required" ++ nl ++ rest).
Proof.
  intros Hp Hu. split; [reflexivity |]. split; [intros r rs; discriminate |].
  unfold calculateAll. cbn [fold_left]. rewrite Hp.
  eexists. eexists. split; [reflexivity |].
  cbn [result_rooms totals]. split; [reflexivity |]. split; [reflexivity |].
  unfold toCSV. cbn [result_unitSystem]. rewrite Hu. f_equal.
  cbn [fold_left result_rooms totals wallArea ceilingArea subtractArea addArea
       totalPaintableArea zero_totals].
  change (toFixed 2 (of_Z 0)) with "0.00". unfold csv_header.
  repeat rewrite append_assoc. cbn [append]. reflexivity.
Qed.

Lemma C8_no_rooms_witness :
  results {| unitSystem := "metric"; rooms := []; current_settings := DEFAULT_SETTINGS |}
  = None.
Proof.
  eapply (proj1 (C8_no_rooms DEFAULT_SETTINGS "metric" _ _ eq_refl eq_refl)).
Defined.

(* ================================================================== *)
(** ** Rounding of the arithmetic operations *)

Section RoundingFacts.

Local Open Scope R_scope.

Lemma bpow_gt_0 e : 0 < bpow e.
Proof. apply powerRZ_lt. lra. Qed.

Lemma bpow_plus e1 e2 : bpow (e1 + e2) = bpow e1 * bpow e2.
Proof. apply powerRZ_add. lra. Qed.

Lemma bpow_0 : bpow 0 = 1.
Proof. reflexivity. Qed.

Lemma bpow_1 : bpow 1 = 2.
Proof. unfold bpow. simpl. lra. Qed.

Lemma bpow_succ e : bpow (e + 1) = 2 * bpow e.
Proof. rewrite bpow_plus, bpow_1. lra. Qed.

Lemma bpow_IZR k : (0 <= k)%Z -> bpow k = IZR (2 ^ k).
Proof.
  intros Hk. unfold bpow.
  destruct k as [| p | p]; [reflexivity | | lia].
  change (2 ^ Z.pos p)%Z with (Z.pow_pos 2 p).
  rewrite Zpower_pos_powerRZ. reflexivity.
Qed.

Lemma bpow_ge_1 k : (0 <= k)%Z -> 1 <= bpow k.
Proof.
  intros Hk. rewrite bpow_IZR by assumption.
  apply IZR_le. assert (0 < 2 ^ k)%Z by (apply Z.pow_pos_nonneg; lia). lia.
Qed.

Lemma bpow_le e1 e2 : (e1 <= e2)%Z -> bpow e1 <= bpow e2.
Proof.
  intros H. replace e2 with (e1 + (e2 - e1))%Z by lia.
  rewrite bpow_plus.
  pose proof (bpow_gt_0 e1). pose proof (bpow_ge_1 (e2 - e1) ltac:(lia)). nra.
Qed.

Lemma bpow_lt e1 e2 : (e1 < e2)%Z -> bpow e1 < bpow e2.
Proof.
  intros H. pose proof (bpow_le (e1 + 1) e2 ltac:(lia)) as L.
  rewrite bpow_succ in L. pose proof (bpow_gt_0 e1). lra.
Qed.

Lemma bpow_lt_inv e1 e2 : bpow e1 < bpow e2 -> (e1 < e2)%Z.
Proof.
  intros H. destruct (Z_lt_le_dec e1 e2) as [L | L]; [exact L |].
  apply bpow_le in L. lra.
Qed.

Lemma bpow_le_inv e1 e2 : bpow e1 <= bpow e2 -> (e1 <= e2)%Z.
Proof.
  intros H. destruct (Z_lt_le_dec e2 e1) as [L | L]; [| exact L].
  apply bpow_lt in L. lra.
Qed.

(** Binary digits *)
Lemma digits2_size (m : positive) : digits2_pos m = Pos.size m.
Proof. induction m as [m IH | m IH |]; simpl; congruence. Qed.

Lemma digits2_log2 (m : positive) :
  Z.pos (digits2_pos m) = (Z.log2 (Z.pos m) + 1)%Z.
Proof.
  rewrite digits2_size.
  destruct m as [m | m |]; simpl; try rewrite Pos.add_1_r; reflexivity.
Qed.

Lemma digits2_bounds (m : positive) :
  (2 ^ (Z.pos (digits2_pos m) - 1) <= Z.pos m < 2 ^ Z.pos (digits2_pos m))%Z.
Proof.
  rewrite digits2_log2.
  replace (Z.log2 (Z.pos m) + 1 - 1)%Z with (Z.log2 (Z.pos m)) by lia.
  replace (Z.log2 (Z.pos m) + 1)%Z with (Z.succ (Z.log2 (Z.pos m))) by lia.
  apply Z.log2_spec. lia.
Qed.

Lemma Zdigits2_bounds (m : Z) :
  (0 <= m)%Z -> (m < 2 ^ Zdigits2 m)%Z /\ (0 < m -> 2 ^ (Zdigits2 m - 1) <= m)%Z.
Proof.
  destruct m as [| p | p]; intros H; cbn [Zdigits2]; [simpl; lia | | lia].
  pose proof (digits2_bounds p). lia.
Qed.

Lemma Zdigits2_nonneg (m : Z) : (0 <= Zdigits2 m)%Z.
Proof. destruct m; simpl; lia. Qed.

(** an integer below 2^k has at most k digits *)
Lemma Zdigits2_le (m k : Z) :
  (0 <= m < 2 ^ k)%Z -> (0 <= k)%Z -> (Zdigits2 m <= k)%Z.
Proof.
  intros [H0 H1] Hk.
  destruct (Z.eq_dec m 0) as [-> | Hm]; [simpl; lia |].
  destruct (Zdigits2_bounds m H0) as [_ L]. specialize (L ltac:(lia)).
  destruct (Z_lt_le_dec k (Zdigits2 m)) as [C | C]; [| exact C].
  assert (2 ^ k <= 2 ^ (Zdigits2 m - 1))%Z by (apply Z.pow_le_mono_r; lia).
  lia.
Qed.

Lemma Zdigits2_ge (m k : Z) :
  (2 ^ k <= m)%Z -> (0 <= k)%Z -> (k + 1 <= Zdigits2 m)%Z.
Proof.
  intros H Hk.
  assert (0 < 2 ^ k)%Z by (apply Z.pow_pos_nonneg; lia).
  destruct (Zdigits2_bounds m ltac:(lia)) as [U _].
  destruct (Z_lt_le_dec (Zdigits2 m) (k + 1)) as [C | C]; [| exact C].
  assert (2 ^ Zdigits2 m <= 2 ^ k)%Z.
  { apply Z.pow_le_mono_r; [lia |]. lia. }
  lia.
Qed.

(** ** Where a real lies between two consecutive integers *)

Lemma located_bounds y m l : located y m l -> IZR m <= y < IZR m + 1.
Proof. destruct l as [| []]; simpl; lra. Qed.

Lemma located_rec_of_loc y m l :
  located y m l -> located_rec y (shr_record_of_loc m l).
Proof. destruct l as [| []]; simpl; trivial. Qed.

Lemma shr_m_of_loc m l : shr_m (shr_record_of_loc m l) = m.
Proof. destruct l as [| []]; reflexivity. Qed.

Lemma IZR_xO p : IZR (Z.pos p~0) = 2 * IZR (Z.pos p).
Proof. rewrite <- mult_IZR. reflexivity. Qed.

Lemma IZR_xI p : IZR (Z.pos p~1) = 2 * IZR (Z.pos p) + 1.
Proof. rewrite <- mult_IZR, <- plus_IZR. reflexivity. Qed.

(** One shift to the right halves the real and keeps its place. *)
Lemma shr_1_located y r :
  located_rec y r -> (0 <= shr_m r)%Z ->
  located_rec (y / 2) (shr_1 r) /\ (0 <= shr_m (shr_1 r))%Z.
Proof.
  destruct r as [m rb sb]. unfold located_rec. cbn [shr_m].
  intros H Hm.
  destruct m as [| [p | p |] | p]; [| | | | lia];
    destruct rb, sb; cbn in H |- *;
    try rewrite IZR_xO in H; try rewrite IZR_xI in H;
    (split; [lra | lia]).
Qed.

Lemma iter_shr_located (p : positive) :
  forall y r, located_rec y r -> (0 <= shr_m r)%Z ->
  located_rec (y / IZR (2 ^ Z.pos p)) (iter_pos shr_1 p r) /\
  (0 <= shr_m (iter_pos shr_1 p r))%Z.
Proof.
  induction p as [p IH | p IH |]; intros y r H Hm; cbn [iter_pos].
  - destruct (shr_1_located y r H Hm) as [H1 Hm1].
    destruct (IH _ _ H1 Hm1) as [H2 Hm2].
    destruct (IH _ _ H2 Hm2) as [H3 Hm3].
    split; [| exact Hm3].
    replace (y / IZR (2 ^ Z.pos p~1)) with (y / 2 / IZR (2 ^ Z.pos p) / IZR (2 ^ Z.pos p));
      [exact H3 |].
    replace (Z.pos p~1) with (1 + Z.pos p + Z.pos p)%Z by lia.
    rewrite !Z.pow_add_r by lia. rewrite !mult_IZR.
    assert (0 < IZR (2 ^ Z.pos p)).
    { apply IZR_lt. apply Z.pow_pos_nonneg; lia. }
    change (2 ^ 1)%Z with 2%Z. field. lra.
  - destruct (IH _ _ H Hm) as [H2 Hm2].
    destruct (IH _ _ H2 Hm2) as [H3 Hm3].
    split; [| exact Hm3].
    replace (y / IZR (2 ^ Z.pos p~0)) with (y / IZR (2 ^ Z.pos p) / IZR (2 ^ Z.pos p));
      [exact H3 |].
    replace (Z.pos p~0) with (Z.pos p + Z.pos p)%Z by lia.
    rewrite !Z.pow_add_r by lia. rewrite !mult_IZR.
    assert (0 < IZR (2 ^ Z.pos p)).
    { apply IZR_lt. apply Z.pow_pos_nonneg; lia. }
    field. lra.
  - change (2 ^ 1)%Z with 2%Z. apply shr_1_located; assumption.
Qed.

(** [shr] by [k] moves the exponent by [k] and divides the real. *)
Lemma shr_located x r e k :
  located_rec (x / bpow e) r -> (0 <= shr_m r)%Z ->
  let '(r', e') := shr r e k in
  e' = Z.max e (e + k) /\ located_rec (x / bpow e') r' /\ (0 <= shr_m r')%Z.
Proof.
  intros H Hm. destruct k as [| p | p]; cbn [shr].
  - split; [lia |]. split; assumption.
  - destruct (iter_shr_located p _ _ H Hm) as [H1 Hm1].
    split; [lia |]. split; [| exact Hm1].
    replace (x / bpow (e + Z.pos p)) with (x / bpow e / IZR (2 ^ Z.pos p)); [exact H1 |].
    rewrite bpow_plus, (bpow_IZR (Z.pos p)) by lia.
    pose proof (bpow_gt_0 e).
    assert (0 < IZR (2 ^ Z.pos p)).
    { apply IZR_lt. apply Z.pow_pos_nonneg; lia. }
    field. lra.
  - split; [lia |]. split; assumption.
Qed.

(** ** Round to nearest, ties to even *)

Lemma round_nearest_even_spec y m l :
  located y m l -> is_rne y (round_nearest_even m l).
Proof.
  unfold is_rne.
  destruct l as [| []]; cbn [located round_nearest_even]; intros H.
  - subst y. split; [lra |]. intros [E | E]; lra.
  - destruct (Z.even m) eqn:Ev.
    + split; [lra |]. intros _. exact Ev.
    + rewrite plus_IZR. split; [lra |]. intros _.
      rewrite Z.even_add, Ev. reflexivity.
  - split; [lra |]. intros [E | E]; lra.
  - rewrite plus_IZR. split; [lra |]. intros [E | E]; lra.
Qed.

Lemma is_rne_mono y y' n n' :
  is_rne y n -> is_rne y' n' -> y <= y' -> (n <= n')%Z.
Proof.
  intros [B T] [B' T'] L.
  destruct (Z_lt_le_dec n' n) as [C | C]; [| exact C].
  exfalso.
  assert (IZR n' + 1 <= IZR n).
  { rewrite <- plus_IZR. apply IZR_le. lia. }
  assert (Ey : y = IZR n - / 2) by lra.
  assert (Ey' : y' = IZR n' + / 2) by lra.
  assert (En : IZR n = IZR n' + 1) by lra.
  rewrite <- plus_IZR in En. apply eq_IZR in En.
  specialize (T (or_introl Ey)). specialize (T' (or_intror Ey')).
  subst n. rewrite Z.even_add, T' in T. discriminate.
Qed.

Lemma is_rne_unique y n n' : is_rne y n -> is_rne y n' -> n = n'.
Proof.
  intros H H'.
  pose proof (is_rne_mono _ _ _ _ H H' ltac:(lra)).
  pose proof (is_rne_mono _ _ _ _ H' H ltac:(lra)). lia.
Qed.

Lemma is_rne_IZR n : is_rne (IZR n) n.
Proof. split; [lra |]. intros [E | E]; lra. Qed.

(** ** The result of rounding a positive real *)

Lemma fexp_eq k : fexp prec emax k = Z.max (k - 53) (-1074).
Proof. reflexivity. Qed.

Lemma shr_nonpositive r e k : (k <= 0)%Z -> shr r e k = (r, e).
Proof. destruct k; [reflexivity | lia | reflexivity]. Qed.

Lemma div_bpow_lt x e k : x < bpow (e + k) -> x / bpow e < bpow k.
Proof.
  intros H. rewrite bpow_plus in H. pose proof (bpow_gt_0 e) as P.
  apply Rmult_lt_reg_r with (bpow e); [exact P |].
  unfold Rdiv. rewrite Rmult_assoc, Rinv_l by lra. lra.
Qed.

Lemma div_bpow_le x e k : bpow (e + k) <= x -> bpow k <= x / bpow e.
Proof.
  intros H. rewrite bpow_plus in H. pose proof (bpow_gt_0 e) as P.
  apply Rmult_le_reg_r with (bpow e); [exact P |].
  unfold Rdiv. rewrite Rmult_assoc, Rinv_l by lra. lra.
Qed.

Lemma is_rne_bounds y n k :
  (0 <= k)%Z -> 0 < y < bpow k -> is_rne y n -> (0 <= n <= 2 ^ k)%Z.
Proof.
  intros Hk [H0 H1] [[L U] _]. rewrite (bpow_IZR k Hk) in H1.
  split.
  - apply le_IZR. destruct (Z_lt_le_dec n 0) as [C | C]; [| apply IZR_le; exact C].
    assert (IZR n <= -1) by (apply IZR_le; lia). lra.
  - destruct (Z_lt_le_dec (2 ^ k) n) as [C | C]; [| exact C].
    assert (IZR (2 ^ k) + 1 <= IZR n) by (rewrite <- plus_IZR; apply IZR_le; lia).
    lra.
Qed.

Lemma is_rne_lower y n k :
  (0 <= k)%Z -> bpow k <= y -> is_rne y n -> (2 ^ k <= n)%Z.
Proof.
  intros Hk H [[L U] _]. rewrite (bpow_IZR k Hk) in H.
  destruct (Z_lt_le_dec n (2 ^ k)) as [C | C]; [| exact C].
  assert (IZR n + 1 <= IZR (2 ^ k)) by (rewrite <- plus_IZR; apply IZR_le; lia).
  lra.
Qed.

Theorem binary_round_aux_Rnd x m l e :
  0 < x -> (0 <= m)%Z -> located (x / bpow e) m l ->
  (e <= fexp prec emax (Zdigits2 m + e))%Z ->
  Rnd x (binary_round_aux prec emax false m e l).
Proof.
  intros Hx Hm Hloc Hpre.
  set (t := fexp prec emax (Zdigits2 m + e)) in *.
  assert (Ht : t = Z.max (Zdigits2 m + e - 53) (-1074)) by reflexivity.
  pose proof (located_bounds _ _ _ Hloc) as [Lo Up].
  pose proof (bpow_gt_0 e) as Pe.
  destruct (Zdigits2_bounds m Hm) as [Dup Dlo].
  pose proof (Zdigits2_nonneg m) as Dnn.
  (* magnitude of x *)
  assert (Xup : x < bpow (t + 53)).
  { apply Rlt_le_trans with (bpow (e + Zdigits2 m)); [| apply bpow_le; lia].
    rewrite bpow_plus, (bpow_IZR (Zdigits2 m)) by lia.
    assert (IZR m + 1 <= IZR (2 ^ Zdigits2 m)).
    { rewrite <- plus_IZR. apply IZR_le. lia. }
    assert (x < (IZR m + 1) * bpow e).
    { apply Rmult_lt_reg_r with (/ bpow e); [apply Rinv_0_lt_compat; lra |].
      rewrite Rmult_assoc, Rinv_r by lra. unfold Rdiv in Up. lra. }
    nra. }
  assert (Xlo : (-1074 < t)%Z -> bpow (t + 52) <= x).
  { intros Hn.
    assert (Et : t = (Zdigits2 m + e - 53)%Z) by lia.
    assert (Hm0 : (0 < m)%Z).
    { destruct (Z.eq_dec m 0) as [-> | ]; [simpl in Et; lia | lia]. }
    specialize (Dlo Hm0).
    replace (t + 52)%Z with (e + (Zdigits2 m - 1))%Z by lia.
    assert (1 <= Zdigits2 m)%Z by (destruct m; simpl in *; lia).
    rewrite bpow_plus, (bpow_IZR (Zdigits2 m - 1)) by lia.
    assert (IZR (2 ^ (Zdigits2 m - 1)) <= IZR m) by (apply IZR_le; exact Dlo).
    assert (IZR m * bpow e <= x).
    { apply Rmult_le_reg_r with (/ bpow e); [apply Rinv_0_lt_compat; lra |].
      rewrite Rmult_assoc, Rinv_r by lra. unfold Rdiv in Lo. lra. }
    nra. }
  unfold binary_round_aux, shr_fexp. fold t.
  pose proof (shr_located x (shr_record_of_loc m l) e (t - e)
                (located_rec_of_loc _ _ _ Hloc)) as S1.
  rewrite shr_m_of_loc in S1. specialize (S1 Hm).
  destruct (shr (shr_record_of_loc m l) e (t - e)) as [r1 e1].
  destruct S1 as (E1 & L1 & M1).
  assert (Ee : e1 = t) by lia. clear E1. subst e1.
  set (n := round_nearest_even (shr_m r1) (loc_of_shr_record r1)).
  assert (Rn : is_rne (x / bpow t) n) by (apply round_nearest_even_spec; exact L1).
  pose proof (bpow_gt_0 t) as Pt.
  assert (Y0 : 0 < x / bpow t) by (apply Rdiv_lt_0_compat; lra).
  assert (Y1 : x / bpow t < bpow 53) by (apply div_bpow_lt; exact Xup).
  pose proof (is_rne_bounds _ _ 53 ltac:(lia) (conj Y0 Y1) Rn) as [N0 N1].
  exists n, t. repeat split; try assumption; try lia.
  - apply (proj1 Rn).
  - apply (proj1 Rn).
  - apply (proj2 Rn).
  - (* the second shift *)
    destruct (Z.eq_dec n (2 ^ 53)) as [En | Nn].
    + rewrite En.
      replace (fexp prec emax (Zdigits2 (2 ^ 53) + t) - t)%Z with 1%Z
        by (rewrite fexp_eq; change (Zdigits2 (2 ^ 53)) with 54%Z; lia).
      cbn [shr shr_record_of_loc iter_pos]. reflexivity.
    + assert (Dn : (Zdigits2 n <= 53)%Z) by (apply Zdigits2_le; lia).
      rewrite shr_nonpositive by (rewrite fexp_eq; lia).
      cbn [shr_m shr_record_of_loc].
      destruct n as [| p | p]; [reflexivity | | lia].
      unfold encode, build. apply Z.eqb_neq in Nn. rewrite Nn. reflexivity.
Qed.

(** ** Order of the results *)

Lemma SFleb_finite m1 e1 m2 e2 :
  (e1 < e2 \/ (e1 = e2 /\ Z.pos m1 <= Z.pos m2))%Z ->
  SFleb (S754_finite false m1 e1) (S754_finite false m2 e2) = true.
Proof.
  unfold SFleb, SFcompare. intros [H | [H1 H2]].
  - apply Z.compare_lt_iff in H. rewrite H. reflexivity.
  - subst e2. rewrite Z.compare_refl.
    change (Pos.compare_cont Eq m1 m2) with (Pos.compare m1 m2).
    destruct (Pos.compare_spec m1 m2); [reflexivity | reflexivity | lia].
Qed.

Lemma SFleb_finite_inv m1 e1 m2 e2 :
  SFleb (S754_finite false m1 e1) (S754_finite false m2 e2) = true ->
  (e1 < e2 \/ (e1 = e2 /\ Z.pos m1 <= Z.pos m2))%Z.
Proof.
  unfold SFleb, SFcompare.
  destruct (Z.compare_spec e1 e2) as [E | L | G].
  - change (Pos.compare_cont Eq m1 m2) with (Pos.compare m1 m2).
    destruct (Pos.compare_spec m1 m2); intros; try discriminate; right; lia.
  - intros _. left. exact L.
  - discriminate.
Qed.

Lemma build_le m1 e1 m2 e2 :
  (e1 < e2 \/ (e1 = e2 /\ Z.pos m1 <= Z.pos m2))%Z ->
  SFleb (build m1 e1) (build m2 e2) = true.
Proof.
  intros H. unfold build.
  destruct (Z.leb_spec e1 971), (Z.leb_spec e2 971).
  - apply SFleb_finite. exact H.
  - reflexivity.
  - lia.
  - reflexivity.
Qed.

Lemma zero_le_build m e : SFleb (S754_zero false) (build m e) = true.
Proof. unfold build. destruct (e <=? 971)%Z; reflexivity. Qed.

Lemma encode_mono_same n n' t :
  (0 <= n <= n')%Z -> (n' <= 2 ^ 53)%Z ->
  SFleb (encode n t) (encode n' t) = true.
Proof.
  intros [H0 H1] H2. unfold encode.
  destruct n as [| p | p]; [| | lia]; destruct n' as [| p' | p']; try lia.
  - reflexivity.
  - destruct (Z.pos p' =? 2 ^ 53)%Z; apply zero_le_build.
  - destruct (Z.eqb_spec (Z.pos p) (2 ^ 53)) as [E | N];
      destruct (Z.eqb_spec (Z.pos p') (2 ^ 53)) as [E' | N'].
    + apply build_le. lia.
    + lia.
    + apply build_le. lia.
    + apply build_le. lia.
Qed.

Lemma encode_mono_lt n n' t t' :
  (0 <= n <= 2 ^ 53)%Z -> (2 ^ 52 <= n' <= 2 ^ 53)%Z -> (t < t')%Z ->
  SFleb (encode n t) (encode n' t') = true.
Proof.
  intros [H0 H1] [H2 H3] Ht. unfold encode.
  destruct n' as [| p' | p']; [lia | | lia].
  destruct n as [| p | p]; [| | lia].
  - destruct (Z.pos p' =? 2 ^ 53)%Z; apply zero_le_build.
  - destruct (Z.eqb_spec (Z.pos p) (2 ^ 53)) as [E | N];
      destruct (Z.eqb_spec (Z.pos p') (2 ^ 53)) as [E' | N'];
      apply build_le; lia.
Qed.

(** Rounding is monotone. *)
Theorem Rnd_mono x x' f f' :
  Rnd x f -> Rnd x' f' -> 0 < x -> x <= x' -> SFleb f f' = true.
Proof.
  intros (n & t & Tm & Xu & Xl & Rn & ->) (n' & t' & Tm' & Xu' & Xl' & Rn' & ->) Hx Hle.
  pose proof (bpow_gt_0 t) as Pt. pose proof (bpow_gt_0 t') as Pt'.
  assert (Y : 0 < x / bpow t < bpow 53).
  { split; [apply Rdiv_lt_0_compat; lra | apply div_bpow_lt; exact Xu]. }
  assert (Y' : 0 < x' / bpow t' < bpow 53).
  { split; [apply Rdiv_lt_0_compat; lra | apply div_bpow_lt; exact Xu']. }
  pose proof (is_rne_bounds _ _ 53 ltac:(lia) Y Rn) as Bn.
  pose proof (is_rne_bounds _ _ 53 ltac:(lia) Y' Rn') as Bn'.
  assert (Tle : (t <= t')%Z).
  { destruct (Z_lt_le_dec t' t) as [C | C]; [| exact C]. exfalso.
    specialize (Xl ltac:(lia)).
    assert (bpow (t + 52) < bpow (t' + 53)) by lra.
    apply bpow_lt_inv in H. lia. }
  destruct (Z.eq_dec t t') as [E | N].
  - subst t'. apply encode_mono_same; [| lia].
    split; [lia |].
    apply (is_rne_mono _ _ _ _ Rn Rn').
    unfold Rdiv. apply Rmult_le_compat_r; [| exact Hle].
    apply Rlt_le, Rinv_0_lt_compat. exact Pt.
  - apply encode_mono_lt; [lia | | lia].
    split; [| lia].
    apply (is_rne_lower (x' / bpow t')); [lia | | exact Rn'].
    apply div_bpow_le. apply Xl'. lia.
Qed.

(** ** Valid non-negative Numbers and their values *)

Lemma bounded_inv m e :
  bounded prec emax m e = true ->
  (-1074 <= e <= 971)%Z /\ (Z.pos m < 2 ^ 53)%Z /\
  ((-1074 < e)%Z -> (2 ^ 52 <= Z.pos m)%Z).
Proof.
  unfold bounded, canonical_mantissa. rewrite andb_true_iff.
  intros [C B]. apply Z.eqb_eq in C. apply Z.leb_le in B.
  rewrite fexp_eq in C. change (emax - prec)%Z with 971%Z in B.
  pose proof (digits2_bounds m) as [Lo Up].
  set (d := Z.pos (digits2_pos m)) in *.
  assert (Hd : (0 < d)%Z) by (unfold d; lia).
  split; [lia |]. split.
  - assert (d <= 53)%Z by lia.
    assert (2 ^ d <= 2 ^ 53)%Z by (apply Z.pow_le_mono_r; lia). lia.
  - intros He. assert (d = 53)%Z by lia.
    replace (d - 1)%Z with 52%Z in Lo by lia. exact Lo.
Qed.

Lemma bounded_intro m e :
  (-1074 <= e <= 971)%Z -> (Z.pos m < 2 ^ 53)%Z ->
  ((-1074 < e)%Z -> (2 ^ 52 <= Z.pos m)%Z) ->
  bounded prec emax m e = true.
Proof.
  intros He Hu Hl. unfold bounded, canonical_mantissa.
  rewrite andb_true_iff. split; [| apply Z.leb_le; change (emax - prec)%Z with 971%Z; lia].
  apply Z.eqb_eq. rewrite fexp_eq.
  assert (D1 : (Z.pos (digits2_pos m) <= 53)%Z).
  { apply (Zdigits2_le (Z.pos m) 53); lia. }
  destruct (Z.eq_dec e (-1074)) as [-> | Ne]; [lia |].
  assert (D2 : (52 + 1 <= Z.pos (digits2_pos m))%Z).
  { apply (Zdigits2_ge (Z.pos m) 52); [apply Hl |]; lia. }
  lia.
Qed.

(** A well-formed positive finite Number is its own rounding. *)
Lemma Rnd_self m e :
  bounded prec emax m e = true ->
  Rnd (IZR (Z.pos m) * bpow e) (S754_finite false m e).
Proof.
  intros B. destruct (bounded_inv m e B) as (He & Hu & Hl).
  pose proof (bpow_gt_0 e) as Pe.
  exists (Z.pos m), e. split; [lia |]. split; [| split; [| split]].
  - rewrite Rmult_comm, bpow_plus, (bpow_IZR 53) by lia.
    apply Rmult_lt_compat_l; [exact Pe | apply IZR_lt; exact Hu].
  - intros Hn. rewrite Rmult_comm, bpow_plus, (bpow_IZR 52) by lia.
    apply Rmult_le_compat_l; [lra | apply IZR_le; apply Hl; exact Hn].
  - replace (IZR (Z.pos m) * bpow e / bpow e) with (IZR (Z.pos m)) by (field; lra).
    apply is_rne_IZR.
  - unfold encode, build.
    destruct (Z.eqb_spec (Z.pos m) (2 ^ 53)) as [E | _]; [lia |].
    destruct (Z.leb_spec e 971); [reflexivity | lia].
Qed.

Theorem Rnd_unique x f f' : 0 < x -> Rnd x f -> Rnd x f' -> f = f'.
Proof.
  intros Hx (n & t & Tm & Xu & Xl & Rn & ->) (n' & t' & Tm' & Xu' & Xl' & Rn' & ->).
  assert (t = t').
  { destruct (Z.lt_trichotomy t t') as [L | [E | G]]; [exfalso | exact E | exfalso].
    - specialize (Xl' ltac:(lia)).
      assert (H : bpow (t' + 52) < bpow (t + 53)) by lra.
      apply bpow_lt_inv in H. lia.
    - specialize (Xl ltac:(lia)).
      assert (H : bpow (t + 52) < bpow (t' + 53)) by lra.
      apply bpow_lt_inv in H. lia. }
  subst t'. rewrite (is_rne_unique _ _ _ Rn Rn'). reflexivity.
Qed.

Lemma posfin_nonneg f : posfin f = true -> nonneg f = true.
Proof. destruct f; simpl; trivial; discriminate. Qed.

Lemma Rnd_nonneg x f : 0 < x -> Rnd x f -> nonneg f = true.
Proof.
  intros Hx (n & t & Tm & Xu & Xl & Rn & ->).
  pose proof (bpow_gt_0 t) as Pt.
  assert (Y : 0 < x / bpow t < bpow 53).
  { split; [apply Rdiv_lt_0_compat; lra | apply div_bpow_lt; exact Xu]. }
  pose proof (is_rne_bounds _ _ 53 ltac:(lia) Y Rn) as [N0 N1].
  assert (NL : (-1074 < t)%Z -> (2 ^ 52 <= n)%Z).
  { intros Hn. apply (is_rne_lower (x / bpow t)); [lia | | exact Rn].
    apply div_bpow_le. apply Xl. exact Hn. }
  unfold encode.
  destruct n as [| p | p]; [reflexivity | | lia].
  destruct (Z.eqb_spec (Z.pos p) (2 ^ 53)) as [E | N]; unfold build.
  - destruct (Z.leb_spec (t + 1) 971); [| reflexivity].
    cbn [nonneg negb andb]. apply bounded_intro; lia.
  - destruct (Z.leb_spec t 971); [| reflexivity].
    cbn [nonneg negb andb]. apply bounded_intro; lia.
Qed.

(** Order and value agree on well-formed non-negative finite Numbers. *)
Lemma SFleb_value f f' :
  nonneg f = true -> nonneg f' = true ->
  is_finite f = true -> is_finite f' = true ->
  SFleb f f' = true -> SF2R f <= SF2R f'.
Proof.
  destruct f as [s | s | | s m e]; try discriminate;
    destruct f' as [s' | s' | | s' m' e']; try discriminate;
    cbn [nonneg SF2R]; intros V V' _ _ L.
  - lra.
  - apply andb_true_iff in V' as [S' B']. destruct s'; [discriminate |].
    cbn [cond_Zopp]. pose proof (bpow_gt_0 e').
    assert (0 < IZR (Z.pos m')) by (apply IZR_lt; lia). nra.
  - apply andb_true_iff in V as [S B]. destruct s; [discriminate |].
    discriminate L.
  - apply andb_true_iff in V as [S B]. destruct s; [discriminate |].
    apply andb_true_iff in V' as [S' B']. destruct s'; [discriminate |].
    cbn [cond_Zopp].
    destruct (bounded_inv _ _ B) as (He & Hu & Hl).
    destruct (bounded_inv _ _ B') as (He' & Hu' & Hl').
    apply SFleb_finite_inv in L. destruct L as [L | [-> L]].
    + (* smaller exponent *)
      specialize (Hl' ltac:(lia)).
      pose proof (bpow_gt_0 e) as Pe.
      assert (bpow (e + 1) <= bpow e') by (apply bpow_le; lia).
      rewrite bpow_succ in H.
      assert (IZR (Z.pos m) <= IZR (2 ^ 53) - 1).
      { rewrite <- minus_IZR. apply IZR_le. lia. }
      assert (IZR (2 ^ 52) <= IZR (Z.pos m')) by (apply IZR_le; exact Hl').
      change (IZR (2 ^ 53)) with (2 * IZR (2 ^ 52)) in H0.
      assert (0 < IZR (2 ^ 52)) by (apply IZR_lt; reflexivity).
      nra.
    + pose proof (bpow_gt_0 e').
      assert (IZR (Z.pos m) <= IZR (Z.pos m')) by (apply IZR_le; exact L). nra.
Qed.

(** ** The arithmetic operations round the exact result *)

Lemma posfin_inv f :
  posfin f = true ->
  exists m e, f = S754_finite false m e /\ bounded prec emax m e = true.
Proof.
  destruct f as [| | | s m e]; try discriminate. cbn [posfin].
  rewrite andb_true_iff. intros [S B]. destruct s; [discriminate |].
  exists m, e. split; [reflexivity | exact B].
Qed.

Lemma SF2R_posfin m e : 0 < SF2R (S754_finite false m e).
Proof.
  cbn [SF2R cond_Zopp]. apply Rmult_lt_0_compat; [apply IZR_lt; lia | apply bpow_gt_0].
Qed.

Theorem mul_Rnd X Y :
  posfin X = true -> posfin Y = true -> Rnd (SF2R X * SF2R Y) (mul X Y).
Proof.
  intros HX HY.
  destruct (posfin_inv X HX) as (mx & ex & -> & BX).
  destruct (posfin_inv Y HY) as (my & ey & -> & BY).
  pose proof (SF2R_posfin mx ex) as PX. pose proof (SF2R_posfin my ey) as PY.
  destruct (bounded_inv _ _ BX) as (Hex & Hux & Hlx).
  destruct (bounded_inv _ _ BY) as (Hey & Huy & Hly).
  unfold mul, SFmul. cbn [xorb].
  pose proof (bpow_gt_0 (ex + ey)) as Pe.
  assert (Ev : SF2R (S754_finite false mx ex) * SF2R (S754_finite false my ey)
               = IZR (Z.pos (mx * my)) * bpow (ex + ey)).
  { cbn [SF2R cond_Zopp]. rewrite Pos2Z.inj_mul, mult_IZR, bpow_plus. ring. }
  apply binary_round_aux_Rnd.
  - apply Rmult_lt_0_compat; assumption.
  - lia.
  - cbn [located]. rewrite Ev. field. lra.
  - rewrite fexp_eq.
    assert (D : (-1074 < ex \/ -1074 < ey)%Z -> (52 + 1 <= Zdigits2 (Z.pos (mx * my)))%Z).
    { intros H. apply Zdigits2_ge; [| lia]. rewrite Pos2Z.inj_mul.
      destruct H as [H | H]; [specialize (Hlx H) | specialize (Hly H)]; nia. }
    destruct (Z.eq_dec ex (-1074)) as [Ex | Nx];
      destruct (Z.eq_dec ey (-1074)) as [Ey | Ny]; try lia;
      specialize (D ltac:(lia)); lia.
Qed.

(** The place of a quotient between [q] and [q + 1], read from the
    remainder. *)
Lemma new_location_located (m2 q r : Z) :
  (0 < m2)%Z -> (0 <= r < m2)%Z ->
  located (IZR q + IZR r / IZR m2) q (new_location m2 r).
Proof.
  intros Hm [Hr0 Hr1].
  assert (Pm : 0 < IZR m2) by (apply IZR_lt; exact Hm).
  assert (Rr0 : 0 <= IZR r) by (apply IZR_le; exact Hr0).
  assert (Rr1 : IZR r < IZR m2) by (apply IZR_lt; exact Hr1).
  assert (half_lt : forall a, (2 * a < m2)%Z -> IZR a / IZR m2 < / 2).
  { intros a Ha. apply IZR_lt in Ha. rewrite mult_IZR in Ha.
    apply Rmult_lt_reg_r with (IZR m2); [exact Pm |].
    unfold Rdiv. rewrite Rmult_assoc, Rinv_l by lra. lra. }
  assert (half_gt : forall a, (m2 < 2 * a)%Z -> / 2 < IZR a / IZR m2).
  { intros a Ha. apply IZR_lt in Ha. rewrite mult_IZR in Ha.
    apply Rmult_lt_reg_r with (IZR m2); [exact Pm |].
    unfold Rdiv. rewrite Rmult_assoc, Rinv_l by lra. lra. }
  assert (half_eq : forall a, (2 * a = m2)%Z -> IZR a / IZR m2 = / 2).
  { intros a Ha. rewrite <- Ha, mult_IZR. field.
    intros Z. rewrite <- Ha, mult_IZR in Pm. lra. }
  assert (pos : (0 < r)%Z -> 0 < IZR r / IZR m2).
  { intros Hr. apply Rdiv_lt_0_compat; [apply IZR_lt; exact Hr | exact Pm]. }
  assert (lt1 : IZR r / IZR m2 < 1).
  { apply Rmult_lt_reg_r with (IZR m2); [exact Pm |].
    unfold Rdiv. rewrite Rmult_assoc, Rinv_l by lra. lra. }
  unfold new_location.
  destruct (Z.even m2) eqn:Ev.
  - unfold new_location_even.
    destruct (Z.eqb_spec r 0) as [E0 | Nr].
    + subst r. cbn [located]. unfold Rdiv. lra.
    + specialize (pos ltac:(lia)).
      destruct (Z.compare_spec (2 * r) m2) as [E | L | G]; cbn [located].
      * rewrite (half_eq r E). reflexivity.
      * specialize (half_lt r L). lra.
      * specialize (half_gt r G). lra.
  - unfold new_location_odd.
    destruct (Z.eqb_spec r 0) as [E0 | Nr].
    + subst r. cbn [located]. unfold Rdiv. lra.
    + specialize (pos ltac:(lia)).
      assert (Nh : (2 * r <> m2)%Z).
      { intros E. rewrite <- E, Z.even_mul in Ev. discriminate. }
      destruct (Z.compare_spec (2 * r + 1) m2) as [E | L | G]; cbn [located].
      * specialize (half_lt r ltac:(lia)). lra.
      * specialize (half_lt r ltac:(lia)). lra.
      * specialize (half_gt r ltac:(lia)). lra.
Qed.

(** Division rounds the exact quotient, whatever the form of the two
    positive operands. *)
Theorem div_finite_Rnd (m1 : positive) (e1 : Z) (m2 : positive) (e2 : Z) :
  Rnd (SF2R (S754_finite false m1 e1) / SF2R (S754_finite false m2 e2))
      (div (S754_finite false m1 e1) (S754_finite false m2 e2)).
Proof.
  pose proof (SF2R_posfin m1 e1) as PX. pose proof (SF2R_posfin m2 e2) as PY.
  unfold div, SFdiv, SFdiv_core_binary. cbn [xorb Zdigits2].
  set (d1 := Z.pos (digits2_pos m1)). set (d2 := Z.pos (digits2_pos m2)).
  set (e' := Z.min (fexp prec emax (d1 + e1 - (d2 + e2))) (e1 - e2)).
  set (s := (e1 - e2 - e')%Z).
  assert (Hs : (0 <= s)%Z) by (unfold s, e'; lia).
  assert (Em : match s with
               | Z.pos _ => Z.shiftl (Z.pos m1) s
               | 0%Z => Z.pos m1
               | Z.neg _ => 0%Z
               end = (Z.pos m1 * 2 ^ s)%Z).
  { destruct s as [| p | p]; [simpl; lia | apply Z.shiftl_mul_pow2; lia | lia]. }
  rewrite Em. clear Em.
  set (m' := (Z.pos m1 * 2 ^ s)%Z).
  pose proof (Z_div_mod m' (Z.pos m2) ltac:(lia)) as DM.
  destruct (Z.div_eucl m' (Z.pos m2)) as [q r]. destruct DM as [Eq Hr].
  assert (P2s : (0 < 2 ^ s)%Z) by (apply Z.pow_pos_nonneg; lia).
  assert (Hq : (0 <= q)%Z) by nia.
  pose proof (bpow_gt_0 e1) as Pe1. pose proof (bpow_gt_0 e2) as Pe2.
  pose proof (bpow_gt_0 e') as Pe'.
  assert (Pm2 : 0 < IZR (Z.pos m2)) by (apply IZR_lt; lia).
  assert (Ey : SF2R (S754_finite false m1 e1) / SF2R (S754_finite false m2 e2) / bpow e'
               = IZR q + IZR r / IZR (Z.pos m2)).
  { cbn [SF2R cond_Zopp].
    replace e1 with (e2 + e' + s)%Z at 1 by (unfold s; lia).
    rewrite !bpow_plus, (bpow_IZR s) by lia.
    assert (IZR (Z.pos m1) * IZR (2 ^ s) = IZR (Z.pos m2) * IZR q + IZR r).
    { rewrite <- !mult_IZR, <- plus_IZR. f_equal. exact Eq. }
    transitivity (IZR (Z.pos m1) * IZR (2 ^ s) / IZR (Z.pos m2)).
    - field. repeat split; lra.
    - rewrite H. field. lra. }
  apply binary_round_aux_Rnd.
  - apply Rdiv_lt_0_compat; assumption.
  - exact Hq.
  - rewrite Ey. apply new_location_located; lia.
  - (* enough digits in the quotient *)
    pose proof (digits2_bounds m1) as [L1 U1]. fold d1 in L1, U1.
    pose proof (digits2_bounds m2) as [L2 U2]. fold d2 in L2, U2.
    assert (Hd1 : (0 < d1)%Z) by (unfold d1; lia).
    assert (Hd2 : (0 < d2)%Z) by (unfold d2; lia).
    set (g := (d1 + e1 - (d2 + e2))%Z) in *.
    assert (He' : (e' <= fexp prec emax g)%Z) by (unfold e'; lia).
    (* 2^(d1-1+s) < 2^d2 * (q+1) *)
    assert (K : (2 ^ (d1 - 1 + s) < 2 ^ d2 * (q + 1))%Z).
    { rewrite Z.pow_add_r by lia.
      assert (2 ^ (d1 - 1) * 2 ^ s <= m')%Z by (unfold m'; nia).
      assert (m' < Z.pos m2 * (q + 1))%Z by lia.
      assert (Z.pos m2 * (q + 1) < 2 ^ d2 * (q + 1))%Z by nia.
      lia. }
    destruct (Z_lt_le_dec (d1 - 1 + s) d2) as [C | C].
    + (* few digits: the exponent is the minimal one *)
      assert (Hg : (g <= e')%Z) by (unfold g, s in *; lia).
      rewrite fexp_eq in He'. rewrite fexp_eq.
      pose proof (Zdigits2_nonneg q). lia.
    + assert (D : (d1 - 1 + s - d2 + 1 <= Zdigits2 q)%Z).
      { apply Zdigits2_ge; [| lia].
        replace (d1 - 1 + s)%Z with (d2 + (d1 - 1 + s - d2))%Z in K by lia.
        rewrite Z.pow_add_r in K by lia.
        assert (0 < 2 ^ d2)%Z by (apply Z.pow_pos_nonneg; lia).
        assert (2 ^ (d1 - 1 + s - d2) < q + 1)%Z by nia. lia. }
      rewrite fexp_eq in He'. rewrite fexp_eq. unfold g, s in *. lia.
Qed.

Theorem div_Rnd X Y :
  posfin X = true -> posfin Y = true -> Rnd (SF2R X / SF2R Y) (div X Y).
Proof.
  intros HX HY.
  destruct (posfin_inv X HX) as (m1 & e1 & -> & _).
  destruct (posfin_inv Y HY) as (m2 & e2 & -> & _).
  apply div_finite_Rnd.
Qed.

Lemma iter_xO_pos (m d : positive) :
  Z.pos (Pos.iter xO m d) = (Z.pos m * 2 ^ Z.pos d)%Z.
Proof.
  change (Pos.iter xO m d) with (shift_pos d m).
  rewrite Zpower.shift_pos_correct. change (Z.pow_pos 2 d) with (2 ^ Z.pos d)%Z. lia.
Qed.

Lemma Zdigits2_mul_pow2 (m : positive) (k : Z) :
  (0 <= k)%Z -> Zdigits2 (Z.pos m * 2 ^ k) = (Zdigits2 (Z.pos m) + k)%Z.
Proof.
  intros Hk.
  assert (P : (0 < Z.pos m * 2 ^ k)%Z).
  { apply Z.mul_pos_pos; [lia | apply Z.pow_pos_nonneg; lia]. }
  destruct (Z.pos m * 2 ^ k)%Z as [| p | p] eqn:E; try lia.
  cbn [Zdigits2]. rewrite !digits2_log2, <- E.
  rewrite Z.log2_mul_pow2 by lia. lia.
Qed.

Theorem binary_round_Rnd (m : positive) (e : Z) :
  Rnd (IZR (Z.pos m) * bpow e) (binary_round prec emax false m e).
Proof.
  unfold binary_round, shl_align.
  set (t := fexp prec emax (Z.pos (digits2_pos m) + e)).
  pose proof (bpow_gt_0 e) as Pe.
  assert (Px : 0 < IZR (Z.pos m) * bpow e).
  { apply Rmult_lt_0_compat; [apply IZR_lt; lia | exact Pe]. }
  destruct (t - e)%Z as [| d | d] eqn:Ed.
  - apply binary_round_aux_Rnd; [exact Px | lia | | cbn [Zdigits2]; fold t; lia].
    cbn [located]. field. lra.
  - apply binary_round_aux_Rnd; [exact Px | lia | | cbn [Zdigits2]; fold t; lia].
    cbn [located]. field. lra.
  - assert (Et : e = (t + Z.pos d)%Z) by lia.
    pose proof (bpow_gt_0 t) as Pt.
    apply binary_round_aux_Rnd; [exact Px | lia | |].
    + cbn [located]. rewrite iter_xO_pos, mult_IZR, Et, bpow_plus.
      rewrite (bpow_IZR (Z.pos d)) by lia. field. lra.
    + rewrite iter_xO_pos, Zdigits2_mul_pow2 by lia. cbn [Zdigits2].
      replace (Z.pos (digits2_pos m) + Z.pos d + t)%Z
        with (Z.pos (digits2_pos m) + e)%Z by lia.
      fold t. lia.
Qed.

Theorem of_Z_Rnd (n : Z) : (0 < n)%Z -> Rnd (IZR n) (of_Z n).
Proof.
  intros Hn. destruct n as [| p | p]; try lia.
  unfold of_Z, binary_normalize.
  replace (IZR (Z.pos p)) with (IZR (Z.pos p) * bpow 0) by (rewrite bpow_0; ring).
  apply binary_round_Rnd.
Qed.

(** A decimal [n * 10^p] is converted to the nearest Number: this is what
    a numeric literal and a parsed numeric text denote. *)
Theorem of_decimal_Rnd (n p : Z) :
  (0 < n)%Z ->
  Rnd (if (0 <=? p)%Z then IZR (n * 10 ^ p) else IZR n / IZR (10 ^ (- p)))
      (of_decimal n p).
Proof.
  intros Hn. destruct n as [| m | m]; try lia.
  unfold of_decimal.
  destruct p as [| q | q].
  - cbn [Z.leb Z.compare]. apply of_Z_Rnd.
    rewrite Z.pow_0_r. lia.
  - cbn [Z.leb Z.compare]. apply of_Z_Rnd.
    apply Z.mul_pos_pos; [lia | apply Z.pow_pos_nonneg; lia].
  - cbn [Z.leb Z.compare Z.opp].
    replace (IZR (Z.pos m) / IZR (10 ^ Z.pos q))
      with (SF2R (S754_finite false m 0) / SF2R (S754_finite false (10 ^ q) 0)).
    + apply div_finite_Rnd.
    + cbn [SF2R cond_Zopp]. rewrite bpow_0, !Rmult_1_r.
      rewrite Pos2Z.inj_pow. reflexivity.
Qed.

Lemma shl_align_value mx ex ez :
  (ez <= ex)%Z ->
  IZR (Z.pos (fst (shl_align mx ex ez))) * bpow ez = IZR (Z.pos mx) * bpow ex.
Proof.
  intros H. unfold shl_align.
  destruct (ez - ex)%Z as [| d | d] eqn:Ed; cbn [fst].
  - replace ez with ex by lia. reflexivity.
  - lia.
  - rewrite iter_xO_pos, mult_IZR.
    replace ex with (ez + Z.pos d)%Z by lia.
    rewrite bpow_plus, (bpow_IZR (Z.pos d)) by lia. ring.
Qed.

Theorem add_Rnd X Y :
  posfin X = true -> posfin Y = true -> Rnd (SF2R X + SF2R Y) (add X Y).
Proof.
  intros HX HY.
  destruct (posfin_inv X HX) as (mx & ex & -> & BX).
  destruct (posfin_inv Y HY) as (my & ey & -> & BY).
  unfold add, SFadd. cbn [cond_Zopp].
  set (ez := Z.min ex ey).
  change (Z.pos (fst (shl_align mx ex ez)) + Z.pos (fst (shl_align my ey ez)))%Z
    with (Z.pos (fst (shl_align mx ex ez) + fst (shl_align my ey ez))).
  cbn [binary_normalize SF2R cond_Zopp].
  rewrite <- (shl_align_value mx ex ez), <- (shl_align_value my ey ez) by (unfold ez; lia).
  rewrite <- Rmult_plus_distr_r, <- plus_IZR.
  change (Z.pos (fst (shl_align mx ex ez)) + Z.pos (fst (shl_align my ey ez)))%Z
    with (Z.pos (fst (shl_align mx ex ez) + fst (shl_align my ey ez))).
  apply binary_round_Rnd.
Qed.

(** ** Monotonicity of the operations on non-negative Numbers *)

Lemma zero_le_nonneg s f : nonneg f = true -> SFleb (S754_zero s) f = true.
Proof.
  destruct f as [s' | s' | | s' m e]; cbn [nonneg]; intros H; try discriminate.
  - reflexivity.
  - destruct s'; [discriminate | reflexivity].
  - destruct s'; [discriminate | reflexivity].
Qed.

Lemma nonneg_le_inf f : nonneg f = true -> SFleb f (S754_infinity false) = true.
Proof.
  destruct f as [s' | s' | | s' m e]; cbn [nonneg]; intros H; try discriminate.
  - reflexivity.
  - destruct s'; [discriminate | reflexivity].
  - destruct s'; [discriminate | reflexivity].
Qed.

Lemma SFleb_refl_nonneg f : nonneg f = true -> SFleb f f = true.
Proof.
  destruct f as [s' | s' | | s' m e]; cbn [nonneg]; intros H; try discriminate.
  - reflexivity.
  - destruct s'; [discriminate | reflexivity].
  - destruct s'; [discriminate |]. apply SFleb_finite. right. lia.
Qed.

(** The three shapes of a non-negative Number. *)
Lemma nonneg_cases f :
  nonneg f = true ->
  (exists s, f = S754_zero s) \/ posfin f = true \/ f = S754_infinity false.
Proof.
  destruct f as [s | s | | s m e]; cbn [nonneg posfin]; intros H; try discriminate.
  - left. exists s. reflexivity.
  - right. right. destruct s; [discriminate | reflexivity].
  - right. left. exact H.
Qed.

Lemma posfin_le_value f f' :
  posfin f = true -> posfin f' = true -> SFleb f f' = true -> SF2R f <= SF2R f'.
Proof.
  intros H H' L.
  apply SFleb_value; try (apply posfin_nonneg; assumption); try assumption.
  - destruct f; try discriminate; reflexivity.
  - destruct f'; try discriminate; reflexivity.
Qed.

Lemma posfin_value_pos f : posfin f = true -> 0 < SF2R f.
Proof.
  intros H. destruct (posfin_inv f H) as (m & e & -> & _). apply SF2R_posfin.
Qed.

Lemma posfin_not_le_zero f s : posfin f = true -> SFleb f (S754_zero s) = false.
Proof.
  intros H. destruct (posfin_inv f H) as (m & e & -> & _). reflexivity.
Qed.

Lemma inf_le_inv f : SFleb (S754_infinity false) f = true -> f = S754_infinity false.
Proof.
  destruct f as [s | s | | s m e]; try discriminate.
  destruct s; [discriminate | reflexivity].
Qed.

Lemma mul_nonneg X Y : nonneg X = true -> posfin Y = true -> nonneg (mul X Y) = true.
Proof.
  intros HX HY.
  destruct (nonneg_cases X HX) as [[s ->] | [PX | ->]].
  - destruct (posfin_inv Y HY) as (m & e & -> & _). reflexivity.
  - apply (Rnd_nonneg (SF2R X * SF2R Y)); [| apply mul_Rnd; assumption].
    apply Rmult_lt_0_compat; apply posfin_value_pos; assumption.
  - destruct (posfin_inv Y HY) as (m & e & -> & _). reflexivity.
Qed.

(** Multiplication by a positive finite Number is monotone. *)
Lemma mul_mono_l X X' Y :
  nonneg X = true -> nonneg X' = true -> posfin Y = true ->
  SFleb X X' = true -> SFleb (mul X Y) (mul X' Y) = true.
Proof.
  intros HX HX' HY L.
  pose proof (posfin_value_pos Y HY) as PY.
  destruct (nonneg_cases X HX) as [[s ->] | [PX | ->]].
  - replace (mul (S754_zero s) Y) with (S754_zero s)
      by (destruct (posfin_inv Y HY) as (m & e & -> & _); destruct s; reflexivity).
    apply zero_le_nonneg. apply mul_nonneg; assumption.
  - destruct (nonneg_cases X' HX') as [[s' ->] | [PX' | ->]].
    + rewrite posfin_not_le_zero in L by assumption. discriminate.
    + pose proof (posfin_value_pos X PX) as P.
      apply (Rnd_mono (SF2R X * SF2R Y) (SF2R X' * SF2R Y));
        [apply mul_Rnd | apply mul_Rnd | |]; try assumption.
      * apply Rmult_lt_0_compat; assumption.
      * apply Rmult_le_compat_r; [lra |]. apply posfin_le_value; assumption.
    + replace (mul (S754_infinity false) Y) with (S754_infinity false)
        by (destruct (posfin_inv Y HY) as (m & e & -> & _); reflexivity).
      apply nonneg_le_inf. apply mul_nonneg; assumption.
  - apply inf_le_inv in L. subst X'.
    apply SFleb_refl_nonneg. apply mul_nonneg; assumption.
Qed.

(** Multiplication of a non-negative Number is monotone in a positive
    finite factor. *)
Lemma mul_mono_r X Y Y' :
  nonneg X = true -> posfin Y = true -> posfin Y' = true ->
  SFleb Y Y' = true -> SFleb (mul X Y) (mul X Y') = true.
Proof.
  intros HX HY HY' L.
  pose proof (posfin_value_pos Y HY) as PY.
  destruct (posfin_inv Y HY) as (m & e & EY & _).
  destruct (posfin_inv Y' HY') as (m' & e' & EY' & _).
  destruct (nonneg_cases X HX) as [[s ->] | [PX | ->]].
  - subst Y Y'. destruct s; reflexivity.
  - pose proof (posfin_value_pos X PX) as P.
    apply (Rnd_mono (SF2R X * SF2R Y) (SF2R X * SF2R Y'));
      [apply mul_Rnd | apply mul_Rnd | |]; try assumption.
    + apply Rmult_lt_0_compat; assumption.
    + apply Rmult_le_compat_l; [lra |]. apply posfin_le_value; assumption.
  - subst Y Y'. reflexivity.
Qed.

Lemma div_nonneg X Y :
  nonneg X = true -> is_finite X = true -> posfin Y = true ->
  nonneg (div X Y) = true.
Proof.
  intros HX FX HY.
  destruct (nonneg_cases X HX) as [[s ->] | [PX | ->]]; [| | discriminate].
  - destruct (posfin_inv Y HY) as (m & e & -> & _). reflexivity.
  - apply (Rnd_nonneg (SF2R X / SF2R Y)); [| apply div_Rnd; assumption].
    apply Rdiv_lt_0_compat; apply posfin_value_pos; assumption.
Qed.

(** Division by a positive finite Number is monotone. *)
Lemma div_mono_l X X' Y :
  nonneg X = true -> is_finite X = true ->
  nonneg X' = true -> is_finite X' = true -> posfin Y = true ->
  SFleb X X' = true -> SFleb (div X Y) (div X' Y) = true.
Proof.
  intros HX FX HX' FX' HY L.
  pose proof (posfin_value_pos Y HY) as PY.
  destruct (nonneg_cases X HX) as [[s ->] | [PX | ->]]; [| | discriminate].
  - replace (div (S754_zero s) Y) with (S754_zero s)
      by (destruct (posfin_inv Y HY) as (m & e & -> & _); destruct s; reflexivity).
    apply zero_le_nonneg. apply div_nonneg; assumption.
  - destruct (nonneg_cases X' HX') as [[s' ->] | [PX' | ->]]; [| | discriminate].
    + rewrite posfin_not_le_zero in L by assumption. discriminate.
    + pose proof (posfin_value_pos X PX) as P.
      apply (Rnd_mono (SF2R X / SF2R Y) (SF2R X' / SF2R Y));
        [apply div_Rnd | apply div_Rnd | |]; try assumption.
      * apply Rdiv_lt_0_compat; assumption.
      * unfold Rdiv. apply Rmult_le_compat_r.
        -- apply Rlt_le, Rinv_0_lt_compat. exact PY.
        -- apply posfin_le_value; assumption.
Qed.

(** ** The wastage factor [1 + w / 100] *)

Lemma finite_le_max f :
  nonneg f = true -> is_finite f = true -> SFleb f max_float = true.
Proof.
  intros H F.
  destruct (nonneg_cases f H) as [[s ->] | [P | ->]]; [reflexivity | | discriminate].
  destruct (posfin_inv f P) as (m & e & -> & B).
  destruct (bounded_inv m e B) as (He & Hu & _).
  apply SFleb_finite.
  change (Z.pos (2 ^ 53 - 1)) with (2 ^ 53 - 1)%Z. lia.
Qed.

Lemma nonneg_between f lo hi :
  nonneg f = true -> posfin lo = true -> is_finite hi = true ->
  SFleb lo f = true -> SFleb f hi = true -> posfin f = true.
Proof.
  intros H Plo Fhi L U.
  destruct (nonneg_cases f H) as [[s ->] | [P | ->]].
  - rewrite posfin_not_le_zero in L by assumption. discriminate.
  - exact P.
  - apply inf_le_inv in U. subst hi. discriminate.
Qed.

Lemma nonneg_le_finite f hi :
  nonneg f = true -> nonneg hi = true -> is_finite hi = true ->
  SFleb f hi = true -> is_finite f = true.
Proof.
  intros H Hh Fhi U.
  destruct (nonneg_cases f H) as [[s ->] | [P | ->]].
  - reflexivity.
  - destruct (posfin_inv f P) as (m & e & -> & _). reflexivity.
  - apply inf_le_inv in U. subst hi. discriminate.
Qed.

Lemma add_posfin_zero X s : posfin X = true -> add X (S754_zero s) = X.
Proof. intros H. destruct (posfin_inv X H) as (m & e & -> & _). reflexivity. Qed.

Lemma add_one_mono V V' :
  nonneg V = true -> is_finite V = true ->
  nonneg V' = true -> is_finite V' = true ->
  SFleb V V' = true ->
  SFleb (add (of_Z 1) V) (add (of_Z 1) V') = true.
Proof.
  intros HV FV HV' FV' L.
  assert (P1 : posfin (of_Z 1) = true) by reflexivity.
  assert (V1 : SF2R (of_Z 1) = 1).
  { change (of_Z 1) with (S754_finite false (2 ^ 52) (-52)).
    cbn [SF2R cond_Zopp]. change (Z.pos (2 ^ 52)) with (2 ^ 52)%Z.
    rewrite <- (bpow_IZR 52), <- bpow_plus by lia. reflexivity. }
  assert (one_le : forall W, posfin W = true -> SFleb (of_Z 1) (add (of_Z 1) W) = true).
  { intros W PW. pose proof (posfin_value_pos W PW).
    apply (Rnd_mono 1 (SF2R (of_Z 1) + SF2R W)).
    - rewrite <- V1 at 1. change (of_Z 1) with (S754_finite false (2 ^ 52) (-52)).
      apply Rnd_self. reflexivity.
    - apply add_Rnd; assumption.
    - lra.
    - lra. }
  destruct (nonneg_cases V HV) as [[s ->] | [PV | ->]]; [| | discriminate].
  - rewrite add_posfin_zero by assumption.
    destruct (nonneg_cases V' HV') as [[s' ->] | [PV' | ->]]; [| | discriminate].
    + rewrite add_posfin_zero by assumption. reflexivity.
    + apply one_le. exact PV'.
  - destruct (nonneg_cases V' HV') as [[s' ->] | [PV' | ->]]; [| | discriminate].
    + rewrite posfin_not_le_zero in L by assumption. discriminate.
    + pose proof (posfin_value_pos V PV).
      pose proof (posfin_le_value V V' PV PV' L).
      apply (Rnd_mono (SF2R (of_Z 1) + SF2R V) (SF2R (of_Z 1) + SF2R V'));
        [apply add_Rnd | apply add_Rnd | |]; try assumption; lra.
Qed.

Lemma wastage_quotient w :
  nonneg w = true -> is_finite w = true ->
  nonneg (div w (of_Z 100)) = true /\ is_finite (div w (of_Z 100)) = true.
Proof.
  intros H F.
  assert (P100 : posfin (of_Z 100) = true) by reflexivity.
  pose proof (div_nonneg w (of_Z 100) H F P100) as N.
  split; [exact N |].
  apply (nonneg_le_finite _ (div max_float (of_Z 100))); [exact N | | |].
  - vm_compute. reflexivity.
  - vm_compute. reflexivity.
  - apply div_mono_l; try assumption; try reflexivity.
    apply finite_le_max; assumption.
Qed.

Lemma wastage_factor_mono w w' :
  nonneg w = true -> is_finite w = true ->
  nonneg w' = true -> is_finite w' = true ->
  SFleb w w' = true ->
  SFleb (wastage_factor w) (wastage_factor w') = true.
Proof.
  intros H F H' F' L. unfold wastage_factor.
  destruct (wastage_quotient w H F) as [N Fi].
  destruct (wastage_quotient w' H' F') as [N' Fi'].
  apply add_one_mono; try assumption.
  apply div_mono_l; try assumption. reflexivity.
Qed.

Lemma wastage_factor_posfin w :
  nonneg w = true -> is_finite w = true -> posfin (wastage_factor w) = true.
Proof.
  intros H F.
  destruct (wastage_quotient w H F) as [N Fi].
  assert (P1 : posfin (of_Z 1) = true) by reflexivity.
  assert (Z0 : wastage_factor (S754_zero false) = of_Z 1) by reflexivity.
  apply (nonneg_between _ (of_Z 1) (wastage_factor max_float)).
  - unfold wastage_factor.
    destruct (nonneg_cases _ N) as [[s E] | [PV | E]].
    + rewrite E, add_posfin_zero by assumption. reflexivity.
    + apply (Rnd_nonneg (SF2R (of_Z 1) + SF2R (div w (of_Z 100)))).
      * pose proof (posfin_value_pos _ PV). pose proof (posfin_value_pos _ P1). lra.
      * apply add_Rnd; assumption.
    + rewrite E in Fi. discriminate.
  - exact P1.
  - vm_compute. reflexivity.
  - rewrite <- Z0. apply wastage_factor_mono; try assumption; try reflexivity.
    apply zero_le_nonneg. exact H.
  - apply wastage_factor_mono; try assumption; try reflexivity.
    apply finite_le_max; assumption.
Qed.

(** ** Integers as Numbers, and Math.ceil *)

(** A positive integer below [2^53] is a Number: the significand is the
    integer shifted up to 53 bits. *)
Lemma of_Z_exact (n : Z) :
  (0 < n < 2 ^ 53)%Z ->
  of_Z n = S754_finite false (Z.to_pos (n * 2 ^ (53 - Zdigits2 n))) (Zdigits2 n - 53).
Proof.
  intros [H0 H1].
  set (d := Zdigits2 n).
  destruct (Zdigits2_bounds n ltac:(lia)) as [Up Lo]. specialize (Lo H0). fold d in Up, Lo.
  assert (Hd : (1 <= d <= 53)%Z).
  { split; [destruct n; simpl in *; lia |]. apply Zdigits2_le; lia. }
  assert (P : (0 < 2 ^ (53 - d))%Z) by (apply Z.pow_pos_nonneg; lia).
  set (m := (n * 2 ^ (53 - d))%Z).
  assert (Hm : (2 ^ 52 <= m < 2 ^ 53)%Z).
  { unfold m. split.
    - replace 52%Z with ((d - 1) + (53 - d))%Z by lia. rewrite Z.pow_add_r by lia. nia.
    - replace 53%Z with (d + (53 - d))%Z at 2 by lia. rewrite Z.pow_add_r by lia. nia. }
  assert (B : bounded prec emax (Z.to_pos m) (d - 53) = true).
  { apply bounded_intro; rewrite ?Z2Pos.id; lia. }
  apply (Rnd_unique (IZR n)).
  - apply IZR_lt. exact H0.
  - apply of_Z_Rnd. exact H0.
  - replace (IZR n) with (IZR (Z.pos (Z.to_pos m)) * bpow (d - 53)); [apply Rnd_self; exact B |].
    rewrite Z2Pos.id by lia. unfold m. rewrite mult_IZR, <- (bpow_IZR (53 - d)) by lia.
    rewrite Rmult_assoc, <- bpow_plus. replace (53 - d + (d - 53))%Z with 0%Z by lia.
    rewrite bpow_0. ring.
Qed.

Lemma of_Z_small (n : Z) :
  (0 < n <= 2 ^ 53)%Z -> posfin (of_Z n) = true /\ SF2R (of_Z n) = IZR n.
Proof.
  intros [H0 H1]. destruct (Z.eq_dec n (2 ^ 53)) as [-> | N].
  - split; [reflexivity |].
    change (of_Z (2 ^ 53)) with (S754_finite false (2 ^ 52) 1).
    cbn [SF2R cond_Zopp]. rewrite bpow_1. change (Z.pos (2 ^ 52)) with (2 ^ 52)%Z.
    rewrite <- (mult_IZR (2 ^ 52) 2). reflexivity.
  - rewrite of_Z_exact by lia.
    set (d := Zdigits2 n).
    destruct (Zdigits2_bounds n ltac:(lia)) as [Up Lo]. specialize (Lo H0). fold d in Up, Lo.
    assert (Hd : (1 <= d <= 53)%Z).
    { split; [destruct n; simpl in *; lia |]. apply Zdigits2_le; lia. }
    assert (P : (0 < 2 ^ (53 - d))%Z) by (apply Z.pow_pos_nonneg; lia).
    assert (Hm : (2 ^ 52 <= n * 2 ^ (53 - d) < 2 ^ 53)%Z).
    { split.
      - replace 52%Z with ((d - 1) + (53 - d))%Z by lia. rewrite Z.pow_add_r by lia. nia.
      - replace 53%Z with (d + (53 - d))%Z at 2 by lia. rewrite Z.pow_add_r by lia. nia. }
    split.
    + cbn [posfin negb andb]. apply bounded_intro; rewrite ?Z2Pos.id; lia.
    + cbn [SF2R cond_Zopp]. rewrite Z2Pos.id by lia.
      rewrite mult_IZR, <- (bpow_IZR (53 - d)) by lia.
      rewrite Rmult_assoc, <- bpow_plus. replace (53 - d + (d - 53))%Z with 0%Z by lia.
      rewrite bpow_0. ring.
Qed.

(** A well-formed Number with a non-negative exponent is the integer
    [m * 2^e]. *)
Lemma of_Z_integer m e :
  bounded prec emax m e = true -> (0 <= e)%Z ->
  of_Z (Z.pos m * 2 ^ e) = S754_finite false m e.
Proof.
  intros B He.
  assert (P : (0 < Z.pos m * 2 ^ e)%Z).
  { apply Z.mul_pos_pos; [lia | apply Z.pow_pos_nonneg; lia]. }
  apply (Rnd_unique (IZR (Z.pos m * 2 ^ e))).
  - apply IZR_lt. exact P.
  - apply of_Z_Rnd. exact P.
  - rewrite mult_IZR, <- (bpow_IZR e) by lia. apply Rnd_self. exact B.
Qed.

Lemma Math_ceil_ceilZ m e :
  bounded prec emax m e = true ->
  Math_ceil (S754_finite false m e) = of_Z (ceilZ m e).
Proof.
  intros B. unfold Math_ceil, ceilZ.
  destruct e as [| p | p].
  - symmetry. apply (of_Z_integer m 0 B). lia.
  - symmetry. apply (of_Z_integer m (Z.pos p) B). lia.
  - destruct (Z.shiftl (Z.shiftr (Z.pos m) (Z.pos p)) (Z.pos p) =? Z.pos m)%Z; reflexivity.
Qed.

(** [ceilZ] is the least integer not below the value. *)
Lemma ceilZ_spec m e :
  IZR (ceilZ m e) - 1 < IZR (Z.pos m) * bpow e <= IZR (ceilZ m e).
Proof.
  unfold ceilZ. destruct e as [| p | p].
  - rewrite Z.pow_0_r, Z.mul_1_r, bpow_0. lra.
  - rewrite mult_IZR, <- (bpow_IZR (Z.pos p)) by lia. lra.
  - rewrite Z.shiftr_div_pow2, Z.shiftl_mul_pow2 by lia.
    set (u := (2 ^ Z.pos p)%Z).
    assert (Pu : (0 < u)%Z) by (apply Z.pow_pos_nonneg; lia).
    pose proof (Z.div_mod (Z.pos m) u ltac:(lia)) as DM.
    pose proof (Z.mod_pos_bound (Z.pos m) u Pu) as MB.
    set (q := (Z.pos m / u)%Z) in *. set (r := (Z.pos m mod u)%Z) in *.
    assert (Eb : bpow (Z.neg p) = / IZR u).
    { change (Z.neg p) with (- Z.pos p)%Z. unfold bpow. rewrite powerRZ_neg'.
      fold (bpow (Z.pos p)). rewrite (bpow_IZR (Z.pos p)) by lia. reflexivity. }
    assert (RPu : 0 < IZR u) by (apply IZR_lt; exact Pu).
    assert (Em : IZR (Z.pos m) = IZR u * IZR q + IZR r).
    { rewrite <- mult_IZR, <- plus_IZR. f_equal. exact DM. }
    assert (Ev : IZR (Z.pos m) * bpow (Z.neg p) = IZR q + IZR r / IZR u).
    { rewrite Eb, Em. field. lra. }
    assert (R0 : 0 <= IZR r / IZR u).
    { apply Rmult_le_pos; [apply IZR_le; lia | apply Rlt_le, Rinv_0_lt_compat; exact RPu]. }
    assert (R1 : IZR r / IZR u < 1).
    { apply Rmult_lt_reg_r with (IZR u); [exact RPu |].
      unfold Rdiv. rewrite Rmult_assoc, Rinv_l by lra.
      assert (IZR r < IZR u) by (apply IZR_lt; lia). lra. }
    rewrite Ev.
    destruct (Z.eqb_spec (q * u) (Z.pos m)) as [E | N].
    + assert (r = 0%Z) by lia.
      replace (IZR r / IZR u) with 0 by (rewrite H; unfold Rdiv; lra). lra.
    + assert (0 < r)%Z by lia.
      assert (0 < IZR r / IZR u).
      { apply Rdiv_lt_0_compat; [apply IZR_lt; lia | exact RPu]. }
      rewrite plus_IZR. lra.
Qed.

Lemma ceilZ_pos m e : (0 < ceilZ m e)%Z.
Proof.
  pose proof (ceilZ_spec m e) as [_ U].
  assert (0 < IZR (Z.pos m) * bpow e).
  { apply Rmult_lt_0_compat; [apply IZR_lt; lia | apply bpow_gt_0]. }
  apply lt_IZR. lra.
Qed.

Lemma ceilZ_mono m e m' e' :
  IZR (Z.pos m) * bpow e <= IZR (Z.pos m') * bpow e' ->
  (ceilZ m e <= ceilZ m' e')%Z.
Proof.
  intros L. pose proof (ceilZ_spec m e) as [Lo _]. pose proof (ceilZ_spec m' e') as [_ Up].
  assert (IZR (ceilZ m e) - 1 < IZR (ceilZ m' e')) by lra.
  rewrite <- minus_IZR in H. apply lt_IZR in H. lia.
Qed.

Lemma of_Z_mono n n' : (0 < n <= n')%Z -> SFleb (of_Z n) (of_Z n') = true.
Proof.
  intros [H0 H1].
  apply (Rnd_mono (IZR n) (IZR n')); try (apply of_Z_Rnd; lia).
  - apply IZR_lt. exact H0.
  - apply IZR_le. exact H1.
Qed.

Lemma of_Z_nonneg n : (0 < n)%Z -> nonneg (of_Z n) = true.
Proof.
  intros H. apply (Rnd_nonneg (IZR n)); [apply IZR_lt; exact H | apply of_Z_Rnd; exact H].
Qed.

(** Math.ceil is monotone on non-negative Numbers. *)
Lemma Math_ceil_mono X X' :
  nonneg X = true -> nonneg X' = true -> SFleb X X' = true ->
  SFleb (Math_ceil X) (Math_ceil X') = true.
Proof.
  intros HX HX' L.
  assert (ceil_nn : forall Y, posfin Y = true -> nonneg (Math_ceil Y) = true).
  { intros Y PY. destruct (posfin_inv Y PY) as (m & e & -> & B).
    rewrite Math_ceil_ceilZ by exact B. apply of_Z_nonneg, ceilZ_pos. }
  destruct (nonneg_cases X HX) as [[s ->] | [PX | ->]].
  - cbn [Math_ceil].
    destruct (nonneg_cases X' HX') as [[s' ->] | [PX' | ->]].
    + reflexivity.
    + apply zero_le_nonneg. apply ceil_nn. exact PX'.
    + reflexivity.
  - destruct (nonneg_cases X' HX') as [[s' ->] | [PX' | ->]].
    + rewrite posfin_not_le_zero in L by assumption. discriminate.
    + pose proof (posfin_le_value X X' PX PX' L) as V.
      destruct (posfin_inv X PX) as (m & e & -> & B).
      destruct (posfin_inv X' PX') as (m' & e' & -> & B').
      rewrite !Math_ceil_ceilZ by assumption.
      apply of_Z_mono. split; [apply ceilZ_pos |]. apply ceilZ_mono. exact V.
    + cbn [Math_ceil]. apply nonneg_le_inf. apply ceil_nn. exact PX.
  - apply inf_le_inv in L. subst X'. reflexivity.
Qed.



End RoundingFacts.

(* ================================================================== *)
(** ** Paint required *)

Lemma non_negative_inv x :
  non_negative_number x = true -> nonneg x = true /\ is_finite x = true.
Proof.
  unfold non_negative_number. rewrite !andb_true_iff. intros [[V F] L]. split; [| exact F].
  destruct x as [s | s | | s m e]; try discriminate; [reflexivity |].
  cbn [nonneg]. destruct s; [discriminate L |]. exact V.
Qed.

Lemma positive_inv x : positive_number x = true -> posfin x = true.
Proof.
  unfold positive_number. rewrite !andb_true_iff. intros [[V F] L].
  destruct x as [s | s | | s m e]; try discriminate.
  cbn [posfin]. destruct s; [discriminate L |]. exact V.
Qed.


(** C5. With a non-negative total area, a positive coverage, positive
    coats and a non-negative wastage percent (all finite Numbers), the
    recommended purchase, the rounded figure of calculatePaintRequired, does
    not decrease when the area grows, when the coats grow, or when the
    wastage percent grows, the other arguments being held fixed. *)
Theorem C5_recommendation_monotone (a a' c k k' w w' : number) :
  non_negative_number a = true -> non_negative_number a' = true -> positive_number c = true ->
  positive_number k = true -> positive_number k' = true ->
  non_negative_number w = true -> non_negative_number w' = true ->
  (leb a a' = true ->
   leb (rounded (calculatePaintRequired a c k w))
       (rounded (calculatePaintRequired a' c k w)) = true) /\
  (leb k k' = true ->
   leb (rounded (calculatePaintRequired a c k w))
       (rounded (calculatePaintRequired a c k' w)) = true) /\
  (leb w w' = true ->
   leb (rounded (calculatePaintRequired a c k w))
       (rounded (calculatePaintRequired a c k w')) = true).
Proof.
  intros Ha Ha' Hc Hk Hk' Hw Hw'.
  apply non_negative_inv in Ha as [Na Fa]. apply non_negative_inv in Ha' as [Na' Fa'].
  apply non_negative_inv in Hw as [Nw Fw]. apply non_negative_inv in Hw' as [Nw' Fw'].
  apply positive_inv in Hc. apply positive_inv in Hk. apply positive_inv in Hk'.
  pose proof (wastage_factor_posfin w Nw Fw) as Pf.
  pose proof (wastage_factor_posfin w' Nw' Fw') as Pf'.
  pose proof (div_nonneg a c Na Fa Hc) as Nb.
  pose proof (div_nonneg a' c Na' Fa' Hc) as Nb'.
  unfold leb. cbn [rounded calculatePaintRequired]. fold (wastage_factor w) (wastage_factor w').
  repeat split; intros L.
  - apply Math_ceil_mono; try (repeat apply mul_nonneg; assumption).
    apply mul_mono_l; try (apply mul_nonneg; assumption); try assumption.
    apply mul_mono_l; try assumption.
    apply div_mono_l; assumption.
  - apply Math_ceil_mono; try (repeat apply mul_nonneg; assumption).
    apply mul_mono_l; try (apply mul_nonneg; assumption); try assumption.
    apply mul_mono_r; assumption.
  - apply Math_ceil_mono; try (repeat apply mul_nonneg; assumption).
    apply mul_mono_r; try (apply mul_nonneg; assumption); try assumption.
    apply wastage_factor_mono; assumption.
Qed.

Lemma C5_recommendation_monotone_witness :
  leb (rounded (calculatePaintRequired (of_Z 1591) (of_Z 350) (of_Z 2) (of_Z 10)))
      (rounded (calculatePaintRequired (of_Z 1591) (of_Z 350) (of_Z 3) (of_Z 10))) = true.
Proof.
  apply (C5_recommendation_monotone (of_Z 1591) (of_Z 1591) (of_Z 350) (of_Z 2) (of_Z 3)
           (of_Z 10) (of_Z 10)); reflexivity.
Defined.

(* ================================================================== *)
(** ** Digit strings *)

Lemma length_append (a b : string) : length (a ++ b) = (length a + length b)%nat.
Proof. induction a as [| x a IH]; simpl; [reflexivity | rewrite IH; reflexivity]. Qed.

Lemma substring_all (s : string) : substring 0 (length s) s = s.
Proof. induction s as [| c s IH]; simpl; [reflexivity | rewrite IH; reflexivity]. Qed.

Lemma take_append (a b : string) : take (length a) (a ++ b) = a.
Proof.
  unfold take. induction a as [| x a IH]; simpl.
  - destruct b; reflexivity.
  - rewrite IH. reflexivity.
Qed.

Lemma drop_append (a b : string) : drop (length a) (a ++ b) = b.
Proof.
  unfold drop. rewrite length_append.
  replace (length a + length b - length a)%nat with (length b) by lia.
  induction a as [| x a IH]; simpl; [apply substring_all | exact IH].
Qed.

(** The ten digit characters. *)
Lemma digit_char_spec (d : Z) :
  0 <= d < 10 ->
  is_digit (digit_char d) = true /\ digit_val (digit_char d) = d /\
  is_space (digit_char d) = false /\
  read_sign (String (digit_char d) "") = (false, String (digit_char d) "") /\
  Ascii.eqb (digit_char d) "x" = false /\ Ascii.eqb (digit_char d) "X" = false /\
  Ascii.eqb (digit_char d) "I" = false.
Proof.
  intros H.
  assert (C : d = 0 \/ d = 1 \/ d = 2 \/ d = 3 \/ d = 4 \/ d = 5 \/ d = 6 \/
              d = 7 \/ d = 8 \/ d = 9) by lia.
  repeat (destruct C as [-> | C]; [repeat split; reflexivity |]).
  subst d. repeat split; reflexivity.
Qed.

Lemma mod10_range (n : Z) : 0 <= n mod 10 < 10.
Proof. apply Z.mod_pos_bound. lia. Qed.

Lemma length_digits_fixed (k : nat) (n : Z) : length (digits_fixed k n) = k.
Proof.
  revert n. induction k as [| k IH]; intros n; cbn [digits_fixed]; [reflexivity |].
  rewrite length_append, IH. simpl. lia.
Qed.

(** Reading back [k] printed digits. *)
Lemma read_digits_fixed (k : nat) :
  forall (n : Z) (rest : string) (acc cnt : Z),
  read_digits (digits_fixed k n ++ rest) acc cnt =
  read_digits rest (acc * 10 ^ Z.of_nat k + n mod 10 ^ Z.of_nat k) (cnt + Z.of_nat k).
Proof.
  induction k as [| k IH]; intros n rest acc cnt.
  - cbn [digits_fixed append]. rewrite Z.pow_0_r, Z.mod_1_r. f_equal; lia.
  - cbn [digits_fixed]. rewrite append_assoc. cbn [append].
    rewrite IH. cbn [read_digits].
    destruct (digit_char_spec (n mod 10) (mod10_range n)) as (D & V & _).
    rewrite D, V. f_equal; [| lia].
    rewrite Nat2Z.inj_succ, Z.pow_succ_r by lia.
    rewrite (Z.rem_mul_r n 10 (10 ^ Z.of_nat k)) by (try lia; apply Z.pow_pos_nonneg; lia).
    lia.
Qed.

Lemma digits_fixed_split (a b : nat) (n : Z) :
  digits_fixed (a + b) n = digits_fixed a (n / 10 ^ Z.of_nat b) ++ digits_fixed b n.
Proof.
  revert n. induction b as [| b IH]; intros n.
  - rewrite Nat.add_0_r. cbn [digits_fixed]. rewrite Z.pow_0_r, Z.div_1_r.
    symmetry. apply append_nil_r.
  - rewrite Nat.add_succ_r. cbn [digits_fixed]. rewrite IH, append_assoc.
    f_equal. f_equal.
    rewrite Nat2Z.inj_succ, Z.pow_succ_r by lia.
    rewrite Z.div_div by (try lia; apply Z.pow_pos_nonneg; lia). reflexivity.
Qed.

Lemma digits_fixed_zero (k : nat) : digits_fixed k 0 = zeros k.
Proof.
  induction k as [| k IH]; [reflexivity |].
  cbn [digits_fixed]. rewrite Z.div_0_l by lia. rewrite IH.
  clear IH. induction k as [| k IH]; [reflexivity |].
  cbn [zeros append]. cbn [zeros append] in IH. rewrite IH. reflexivity.
Qed.

(** The digit count is enough to hold the number. *)
Lemma count_digits_bound (fuel : nat) :
  forall n, 0 <= n < 10 ^ (Z.of_nat fuel + 1) ->
  n < 10 ^ Z.of_nat (count_digits fuel n) /\ (1 <= count_digits fuel n)%nat.
Proof.
  induction fuel as [| f IH]; intros n [H0 H1].
  - cbn [count_digits]. simpl in H1 |- *. lia.
  - cbn [count_digits]. destruct (Z.ltb_spec n 10) as [L | G].
    + simpl. lia.
    + assert (B : 0 <= n / 10 < 10 ^ (Z.of_nat f + 1)).
      { split; [apply Z.div_pos; lia |].
        apply Z.div_lt_upper_bound; [lia |].
        rewrite <- Z.pow_succ_r by lia.
        replace (Z.succ (Z.of_nat f + 1)) with (Z.of_nat (S f) + 1) by lia. exact H1. }
      destruct (IH (n / 10) B) as [U P]. split; [| lia].
      rewrite Nat2Z.inj_succ, Z.pow_succ_r by lia.
      pose proof (Z.div_mod n 10 ltac:(lia)). pose proof (mod10_range n). lia.
Qed.

Lemma num_digits_bound (n : Z) :
  0 <= n -> n < 10 ^ Z.of_nat (num_digits n) /\ (1 <= num_digits n)%nat.
Proof.
  intros H. unfold num_digits. apply count_digits_bound. split; [exact H |].
  destruct (Z.eq_dec n 0) as [-> | N].
  - apply Z.pow_pos_nonneg; lia.
  - pose proof (Z.log2_spec n ltac:(lia)) as [_ U].
    pose proof (Z.log2_nonneg n).
    rewrite Z2Nat.id by lia.
    apply Z.lt_le_trans with (2 ^ Z.succ (Z.log2 n)); [exact U |].
    replace (Z.log2 n + 1) with (Z.succ (Z.log2 n)) by lia.
    apply Z.pow_le_mono_l. lia.
Qed.

(** A digit string starts with a digit. *)
Lemma digits_fixed_head (k : nat) (n : Z) :
  (1 <= k)%nat ->
  exists d r, 0 <= d < 10 /\ digits_fixed k n = String (digit_char d) r.
Proof.
  revert n. induction k as [| k IH]; intros n Hk; [lia |].
  cbn [digits_fixed]. destruct k as [| k].
  - exists (n mod 10), "". split; [apply mod10_range | reflexivity].
  - destruct (IH (n / 10) ltac:(lia)) as (d & r & Hd & E).
    rewrite E. exists d, (r ++ String (digit_char (n mod 10)) "").
    split; [exact Hd | reflexivity].
Qed.

Lemma prefix_Infinity_digit (d : Z) (r : string) :
  0 <= d < 10 -> prefix "Infinity" (String (digit_char d) r) = false.
Proof.
  intros H. destruct (digit_char_spec d H) as (_ & _ & _ & _ & _ & _ & I).
  cbn [prefix]. destruct (ascii_dec "I" (digit_char d)) as [E | N]; [| reflexivity].
  rewrite <- E in I. discriminate I.
Qed.

Lemma read_sign_digit (d : Z) (r : string) :
  0 <= d < 10 -> read_sign (String (digit_char d) r) = (false, String (digit_char d) r).
Proof.
  intros H. destruct (digit_char_spec d H) as (_ & _ & _ & Sg & _).
  revert Sg. unfold read_sign.
  destruct (digit_char d) as [[] [] [] [] [] [] [] []]; intros Sg;
    try reflexivity; discriminate Sg.
Qed.

Lemma zeros_snoc (j : nat) : zeros j ++ "0" = zeros (S j).
Proof.
  induction j as [| j IH]; [reflexivity |].
  cbn [zeros append]. cbn [zeros] in IH. rewrite IH. reflexivity.
Qed.

Lemma digits_fixed_multiple (j : nat) :
  forall s, digits_fixed j (s * 10 ^ Z.of_nat j) = zeros j.
Proof.
  induction j as [| j IH]; intros s; [reflexivity |].
  cbn [digits_fixed].
  rewrite Nat2Z.inj_succ, Z.pow_succ_r by lia.
  replace (s * (10 * 10 ^ Z.of_nat j)) with (s * 10 ^ Z.of_nat j * 10) by ring.
  rewrite Z.div_mul, Z.mod_mul by lia. rewrite IH.
  change (String (digit_char 0) "") with "0". apply zeros_snoc.
Qed.

(** Digits followed by zeros are the digits of the multiple. *)
Lemma digits_fixed_shift (k j : nat) (s : Z) :
  digits_fixed k s ++ zeros j = digits_fixed (k + j) (s * 10 ^ Z.of_nat j).
Proof.
  rewrite digits_fixed_split, digits_fixed_multiple.
  rewrite Z.div_mul by (apply Z.pow_nonzero; lia). reflexivity.
Qed.

(** parseInt reads a run of digits as the integer it spells. *)
Lemma parseInt_str_digits (K : nat) (M : Z) :
  (1 <= K)%nat -> 0 < M < 10 ^ Z.of_nat K ->
  parseInt_str (digits_fixed K M) = of_Z M.
Proof.
  intros HK HM.
  destruct (digits_fixed_head K M HK) as (d & r & Hd & E).
  destruct (digit_char_spec d Hd) as (Dg & _ & Sp & Sg & Ex & EX & _).
  assert (RD : read_digits (digits_fixed K M) 0 0 = (M, Z.of_nat K, "")).
  { rewrite <- (append_nil_r (digits_fixed K M)) at 1.
    rewrite read_digits_fixed. cbn [read_digits].
    rewrite Z.mul_0_l, !Z.add_0_l, Z.mod_small by lia. reflexivity. }
  unfold parseInt_str.
  assert (T : trim_start (digits_fixed K M) = digits_fixed K M).
  { rewrite E. cbn [trim_start]. rewrite Sp. reflexivity. }
  rewrite T.
  assert (S : read_sign (digits_fixed K M) = (false, digits_fixed K M)).
  { rewrite E. apply read_sign_digit. exact Hd. }
  rewrite S.
  assert (R : match digits_fixed K M with
              | String "0" (String c r0) =>
                  if (c =? "x")%char || (c =? "X")%char then read_hex r0 0 0
                  else read_digits (digits_fixed K M) 0 0
              | _ => read_digits (digits_fixed K M) 0 0
              end = read_digits (digits_fixed K M) 0 0).
  { rewrite E at 1.
    destruct (digit_char d) as [[] [] [] [] [] [] [] []]; try reflexivity.
    destruct r as [| c r0]; [reflexivity |].
    assert (Hc : is_digit c = true).
    { destruct (is_digit c) eqn:Dc; [reflexivity | exfalso].
      rewrite E in RD. cbn [read_digits] in RD. rewrite Dg in RD.
      cbn [read_digits] in RD. rewrite Dc in RD.
      inversion RD. }
    destruct ((c =? "x")%char || (c =? "X")%char) eqn:Q; [| reflexivity].
    exfalso. apply orb_true_iff in Q.
    destruct Q as [Q | Q]; apply Ascii.eqb_eq in Q; subst c; discriminate Hc. }
  rewrite R, RD.
  destruct (Z.eqb_spec (Z.of_nat K) 0) as [Z0 | _]; [lia |].
  destruct (Z.eqb_spec M 0) as [Z0 | _]; [lia |]. reflexivity.
Qed.

(** ** Integers through Number::toString and parseInt *)

Lemma parseInt_str_decimal_string (n : Z) :
  0 < n -> parseInt_str (decimal_string n) = of_Z n.
Proof.
  intros H. unfold decimal_string.
  destruct (num_digits_bound n ltac:(lia)) as [U P].
  apply parseInt_str_digits; lia.
Qed.

Lemma read_digits_decimal_string (n : Z) (rest : string) (acc cnt : Z) :
  0 <= n ->
  read_digits (decimal_string n ++ rest) acc cnt =
  read_digits rest (acc * 10 ^ Z.of_nat (num_digits n) + n) (cnt + Z.of_nat (num_digits n)).
Proof.
  intros H. unfold decimal_string. rewrite read_digits_fixed.
  destruct (num_digits_bound n H) as [U _].
  rewrite Z.mod_small by lia. reflexivity.
Qed.

Lemma decimal_string_head (n : Z) :
  0 <= n -> exists d r, 0 <= d < 10 /\ decimal_string n = String (digit_char d) r.
Proof.
  intros H. unfold decimal_string. apply digits_fixed_head.
  apply (num_digits_bound n H).
Qed.

Lemma exact_integer_of_Z (n : Z) :
  0 < n < 2 ^ 53 ->
  exact_integer (Z.to_pos (n * 2 ^ (53 - Zdigits2 n))) (Zdigits2 n - 53) = Some n.
Proof.
  intros [H0 H1].
  set (d := Zdigits2 n).
  assert (Hd : 1 <= d <= 53).
  { split; [unfold d; destruct n; simpl in *; lia |]. apply Zdigits2_le; lia. }
  assert (P : 0 < 2 ^ (53 - d)) by (apply Z.pow_pos_nonneg; lia).
  unfold exact_integer.
  destruct (d - 53) as [| p | p] eqn:E; [| lia |].
  - replace (53 - d) with 0 by lia. rewrite Z.pow_0_r, !Z.mul_1_r.
    rewrite Z2Pos.id by lia. reflexivity.
  - assert (Ek : 53 - d = Z.pos p) by lia. rewrite Ek in *.
    rewrite Z2Pos.id by lia.
    rewrite Z.shiftr_div_pow2, Z.shiftl_mul_pow2 by lia.
    rewrite Z.div_mul by lia. rewrite Z.eqb_refl. reflexivity.
Qed.

(** A positive integer below 2^53 prints as its decimal representation. *)
Lemma Number_toString_of_Z (n : Z) :
  0 < n < 2 ^ 53 -> Number_toString (of_Z n) = decimal_string n.
Proof.
  intros H. rewrite of_Z_exact by exact H.
  cbn [Number_toString append]. unfold positive_toString.
  rewrite exact_integer_of_Z by exact H.
  destruct (Z.ltb_spec n (2 ^ 53)) as [_ | C]; [reflexivity | lia].
Qed.

(** parseInt returns a positive integer below 2^53 unchanged. *)
Lemma parseInt_of_Z (n : Z) :
  0 < n < 2 ^ 53 -> parseInt (Num (of_Z n)) = of_Z n.
Proof.
  intros H. unfold parseInt, ToString.
  rewrite Number_toString_of_Z by exact H.
  apply parseInt_str_decimal_string. lia.
Qed.

(** ** Integers from 2^53 on *)

Section LargeIntegers.

Local Open Scope Z_scope.

Lemma same_eq (x y : number) : same x y = true -> x = y.
Proof.
  destruct x as [a | a | | a m e], y as [b | b | | b m' e']; cbn [same];
    try discriminate; intros H.
  - apply Bool.eqb_prop in H. subst. reflexivity.
  - apply Bool.eqb_prop in H. subst. reflexivity.
  - reflexivity.
  - apply andb_true_iff in H as [H He]. apply andb_true_iff in H as [Hs Hm].
    apply Bool.eqb_prop in Hs. apply Pos.eqb_eq in Hm. apply Z.eqb_eq in He.
    subst. reflexivity.
Qed.

Lemma same_refl (x : number) : same x x = true.
Proof.
  destruct x as [a | a | | a m e]; cbn [same]; try reflexivity.
  - destruct a; reflexivity.
  - destruct a; reflexivity.
  - rewrite Pos.eqb_refl, Z.eqb_refl. destruct a; reflexivity.
Qed.

(** The search for the decimal exponent of an integer stops at a power of
    ten above it. *)
Lemma first_pow10_integer (fuel : nat) (N n K : Z) :
  0 < N -> 0 <= n -> n <= K -> K <= n + Z.of_nat fuel -> N < 10 ^ K ->
  let r := first_pow10 fuel N 1 n in
  n <= r <= K /\ N < 10 ^ r.
Proof.
  intros HN. revert n. induction fuel as [| f IH]; intros n Hn HK Hf HNK; cbn [first_pow10].
  - assert (n = K) by lia. subst. cbv zeta. split; [lia | exact HNK].
  - unfold below_pow10.
    replace (Z.max (- n) 0) with 0 by lia.
    replace (Z.max n 0) with n by lia.
    rewrite Z.pow_0_r, Z.mul_1_r, Z.mul_1_l.
    destruct (Z.ltb_spec N (10 ^ n)) as [L | G].
    + cbv zeta. split; [lia | exact L].
    + assert (n < K).
      { destruct (Z.eq_dec n K) as [-> | ]; [lia | lia]. }
      destruct (IH (n + 1) ltac:(lia) ltac:(lia) ltac:(lia) HNK) as [R1 R2].
      cbv zeta. split; [lia | exact R2].
Qed.

Lemma of_decimal_integer (c p : Z) :
  0 < c -> 0 <= p -> of_decimal c p = of_Z (c * 10 ^ p).
Proof.
  intros Hc Hp. unfold of_decimal.
  destruct c as [| c' | c']; try lia. destruct p as [| q | q]; try lia; reflexivity.
Qed.

Section IntegerDigits.

Variables (m : positive) (e : Z).
Let x : number := S754_finite false m e.
Variables (N n0 : Z).
Hypothesis HN : 0 < N.
Hypothesis Hx : of_Z N = x.
Hypothesis Hn0 : N < 10 ^ n0.

(** A candidate that the search accepts spells the integer's Number. *)
Lemma shortest_at_integer (k s p : Z) :
  1 <= k <= n0 ->
  shortest_at x N 1 n0 k = Some (s, p) ->
  0 <= p /\ 0 < s < 10 ^ k /\ of_Z (s * 10 ^ p) = x /\
  (p = n0 - k \/ (p = n0 - k + 1 /\ s * 10 ^ p = 10 ^ n0)).
Proof.
  intros Hk. unfold shortest_at.
  set (p0 := n0 - k).
  assert (Hp0 : 0 <= p0) by (unfold p0; lia).
  replace (Z.max (- p0) 0) with 0 by lia. replace (Z.max p0 0) with p0 by lia.
  rewrite Z.pow_0_r, Z.mul_1_r, Z.mul_1_l.
  assert (P10 : 0 < 10 ^ p0) by (apply Z.pow_pos_nonneg; lia).
  assert (Pk : 0 < 10 ^ (k - 1)) by (apply Z.pow_pos_nonneg; lia).
  assert (Ek : 10 ^ k = 10 * 10 ^ (k - 1)).
  { rewrite <- Z.pow_succ_r by lia. f_equal. lia. }
  set (lo := N / 10 ^ p0).
  assert (Hlo : 0 <= lo < 10 ^ k).
  { unfold lo. split; [apply Z.div_pos; lia |].
    apply Z.div_lt_upper_bound; [lia |].
    rewrite <- Z.pow_add_r by lia. replace (p0 + k) with n0 by (unfold p0; lia). exact Hn0. }
  set (pick := match 2 * (N mod 10 ^ p0) ?= 10 ^ p0 with
               | Lt => false | Gt => true | Eq => Z.odd lo end).
  assert (Key : forall c, (c = lo \/ c = lo + 1) -> same (of_decimal c p0) x = true ->
                     (if c =? 10 ^ k then Some (c / 10, p0 + 1) else Some (c, p0)) = Some (s, p) ->
                     0 <= p /\ 0 < s < 10 ^ k /\ of_Z (s * 10 ^ p) = x /\
                     (p = n0 - k \/ (p = n0 - k + 1 /\ s * 10 ^ p = 10 ^ n0))).
  { intros c Hc Hs R. apply same_eq in Hs.
    assert (Pc : 0 < c).
    { destruct (Z_lt_le_dec 0 c) as [L | L]; [exact L | exfalso].
      assert (c = 0) by lia. subst c. unfold x in Hs. discriminate Hs. }
    rewrite of_decimal_integer in Hs by lia.
    destruct (Z.eqb_spec c (10 ^ k)) as [E | NE]; inversion R; subst s p; clear R.
    - assert (Es : c / 10 = 10 ^ (k - 1)).
      { rewrite E, Ek, Z.mul_comm, Z.div_mul by lia. reflexivity. }
      assert (Ev : c / 10 * 10 ^ (p0 + 1) = c * 10 ^ p0).
      { rewrite Es, E, Ek, (Z.pow_add_r 10 p0 1) by lia. change (10 ^ 1) with 10. ring. }
      rewrite Ev. split; [lia |]. split; [rewrite Es; lia |]. split; [exact Hs |].
      right. split; [reflexivity |].
      rewrite E, <- Z.pow_add_r by lia. f_equal. unfold p0. lia.
    - split; [lia |]. split; [lia |]. split; [exact Hs |]. left. reflexivity. }
  destruct (same (of_decimal lo p0) x) eqn:Slo;
    destruct (same (of_decimal (lo + 1) p0) x) eqn:Shi; cbn [andb].
  - destruct pick; apply Key; auto.
  - apply Key; auto.
  - apply Key; auto.
  - discriminate.
Qed.

(** With as many digits as the integer has before the point, the integer
    itself is a candidate. *)
Lemma shortest_at_own_digits : 1 <= n0 -> shortest_at x N 1 n0 n0 <> None.
Proof.
  intros H1. unfold shortest_at.
  replace (n0 - n0) with 0 by lia.
  cbn [Z.max Z.opp Z.compare]. rewrite Z.pow_0_r, !Z.mul_1_r, Z.div_1_r.
  assert (S : same (of_decimal N 0) x = true).
  { rewrite of_decimal_integer by lia. rewrite Z.pow_0_r, Z.mul_1_r, Hx. apply same_refl. }
  rewrite S. cbn [andb].
  destruct (same (of_decimal (N + 1) 0) x);
    [destruct (match 2 * (N mod 1) ?= 1 with Lt => false | Gt => true | Eq => Z.odd N end) |];
    match goal with |- context [if ?c =? ?d then _ else _] => destruct (c =? d) end;
    discriminate.
Qed.

Lemma shortest_search_integer (fuel : nat) :
  forall k, 1 <= k <= n0 -> n0 < k + Z.of_nat fuel ->
  let '(s, n, k') := shortest_search fuel x N 1 n0 k in
  1 <= k' /\ 0 < s < 10 ^ k' /\ k' <= n /\ of_Z (s * 10 ^ (n - k')) = x /\
  (n = n0 \/ (n = n0 + 1 /\ s * 10 ^ (n - k') = 10 ^ n0)).
Proof.
  induction fuel as [| f IH]; intros k Hk Hf; [lia |].
  cbn [shortest_search].
  destruct (shortest_at x N 1 n0 k) as [[s p] |] eqn:E.
  - destruct (shortest_at_integer k s p Hk E) as (Hp & Hs & V & W).
    replace (p + k - k) with p by lia.
    split; [lia |]. split; [lia |]. split; [lia |]. split; [exact V |].
    destruct W as [W | [W1 W2]]; [left; lia | right; split; [lia | exact W2]].
  - destruct (Z.eq_dec k n0) as [-> | NE].
    + exfalso. apply shortest_at_own_digits; [lia | exact E].
    + apply IH; lia.
Qed.

End IntegerDigits.

(** Number::toString prints an integer Number from 2^53 to below 10^21
    as a run of digits that spells an integer with the same Number. *)
Lemma positive_toString_large_integer (m : positive) (e : Z) :
  bounded prec emax m e = true -> 1 <= e -> Z.pos m * 2 ^ e < 10 ^ 21 ->
  exists (K : nat) (M : Z),
    (1 <= K)%nat /\ 0 < M < 10 ^ Z.of_nat K /\
    of_Z M = S754_finite false m e /\
    positive_toString m e = digits_fixed K M.
Proof.
  intros B He HN.
  destruct (bounded_inv m e B) as (_ & Hu & Hl). specialize (Hl ltac:(lia)).
  set (N := Z.pos m * 2 ^ e) in *.
  assert (P2 : 0 < 2 ^ e) by (apply Z.pow_pos_nonneg; lia).
  assert (E17 : e <= 17).
  { destruct (Z_lt_le_dec 17 e) as [C | C]; [exfalso | exact C].
    assert (2 ^ 18 <= 2 ^ e) by (apply Z.pow_le_mono_r; lia).
    assert (2 ^ 52 * 2 ^ 18 <= N) by (unfold N; nia).
    assert (10 ^ 21 < 2 ^ 52 * 2 ^ 18) by reflexivity. lia. }
  assert (N53 : 2 ^ 53 <= N).
  { assert (2 ^ 1 <= 2 ^ e) by (apply Z.pow_le_mono_r; lia).
    change (2 ^ 53) with (2 ^ 52 * 2 ^ 1). unfold N. nia. }
  assert (Hx : of_Z N = S754_finite false m e) by (apply of_Z_integer; [exact B | lia]).
  assert (L2 : Z.log2 (Z.pos m) = 52) by (apply Z.log2_unique; lia).
  unfold positive_toString.
  assert (EI : exact_integer m e = Some N).
  { unfold exact_integer. destruct e as [| p | p]; try lia. reflexivity. }
  rewrite EI. destruct (Z.ltb_spec N (2 ^ 53)) as [C | _]; [lia |].
  assert (En : numer m e = N) by (unfold numer; rewrite Z.max_l by lia; reflexivity).
  assert (Ed : denom e = 1) by (unfold denom; rewrite Z.max_r by lia; reflexivity).
  rewrite En, Ed. unfold decimal_exponent. rewrite En, Ed, L2.
  set (start := (52 + e) * 30103 / 100000 - 1).
  assert (Hs : 14 <= start <= 19).
  { unfold start. split.
    - assert (15 <= (52 + e) * 30103 / 100000) by (apply Z.div_le_lower_bound; lia). lia.
    - assert ((52 + e) * 30103 / 100000 < 21) by (apply Z.div_lt_upper_bound; lia). lia. }
  destruct (first_pow10_integer 8 N start 21 ltac:(lia) ltac:(lia) ltac:(lia) ltac:(lia) HN)
    as [Rn0 Hn0].
  set (n0 := first_pow10 8 N 1 start) in *.
  pose proof (shortest_search_integer m e N n0 ltac:(lia) Hx Hn0 21 1 ltac:(lia) ltac:(lia)) as SS.
  destruct (shortest_search 21 (S754_finite false m e) N 1 n0 1) as [[s n] k].
  destruct SS as (Hk & Hs' & Hkn & V & W).
  assert (Hn21 : n <= 21).
  { destruct W as [W | [W1 W2]]; [lia |].
    destruct (Z.eq_dec n0 21) as [E21 | NE]; [exfalso | lia].
    rewrite W2, E21 in V.
    change (of_Z (10 ^ 21)) with (S754_finite false 7629394531250000 17) in V.
    inversion V; subst m e. unfold N in HN. revert HN. apply Z.le_ngt. reflexivity. }
  unfold format_shortest.
  destruct (Z.leb_spec k n) as [_ | C]; [| lia].
  destruct (Z.leb_spec n 21) as [_ | C]; [| lia]. cbn [andb].
  rewrite digits_fixed_shift, Z2Nat.id by lia.
  exists (Z.to_nat k + Z.to_nat (n - k))%nat, (s * 10 ^ (n - k)).
  assert (0 < 10 ^ (n - k)) by (apply Z.pow_pos_nonneg; lia).
  split; [lia |]. split; [| split; [exact V | reflexivity]].
  split; [nia |].
  rewrite Nat2Z.inj_add, !Z2Nat.id, Z.pow_add_r by lia. nia.
Qed.

Lemma SFltb_finite_inv m1 e1 m2 e2 :
  SFltb (S754_finite false m1 e1) (S754_finite false m2 e2) = true ->
  e1 < e2 \/ (e1 = e2 /\ Z.pos m1 < Z.pos m2).
Proof.
  unfold SFltb, SFcompare.
  destruct (Z.compare_spec e1 e2) as [E | L | G].
  - change (Pos.compare_cont Eq m1 m2) with (Pos.compare m1 m2).
    destruct (Pos.compare_spec m1 m2); intros; try discriminate; right; lia.
  - intros _. left. exact L.
  - discriminate.
Qed.

(** Number::toString prints the Number of a positive integer, when it is
    below 10^21, as a run of digits that spells an integer with the same
    Number. *)
Lemma Number_toString_positive_integer (n : Z) :
  1 <= n -> ltb (of_Z n) (of_Z (10 ^ 21)) = true ->
  posfin (of_Z n) = true /\
  exists (K : nat) (M : Z),
    (1 <= K)%nat /\ 0 < M < 10 ^ Z.of_nat K /\
    of_Z M = of_Z n /\ Number_toString (of_Z n) = digits_fixed K M.
Proof.
  intros Hn Hlt.
  destruct (Z_lt_le_dec n (2 ^ 53)) as [Small | Big].
  - split; [apply of_Z_small; lia |].
    destruct (num_digits_bound n ltac:(lia)) as [U P].
    exists (num_digits n), n. split; [exact P |]. split; [lia |].
    split; [reflexivity |]. apply Number_toString_of_Z. lia.
  - pose proof (of_Z_nonneg n ltac:(lia)) as NN.
    assert (L : SFleb (of_Z (2 ^ 53)) (of_Z n) = true) by (apply of_Z_mono; lia).
    change (of_Z (2 ^ 53)) with (S754_finite false (2 ^ 52) 1) in L.
    change (of_Z (10 ^ 21)) with (S754_finite false 7629394531250000 17) in Hlt.
    destruct (nonneg_cases _ NN) as [[s E] | [P | E]].
    + rewrite E in L. discriminate L.
    + destruct (posfin_inv _ P) as (m & e & E & B). rewrite E in *.
      split; [exact P |].
      destruct (bounded_inv m e B) as (_ & Hu & _).
      apply SFleb_finite_inv in L. apply SFltb_finite_inv in Hlt.
      cbn [Number_toString append].
      apply positive_toString_large_integer; [exact B | lia |].
      destruct Hlt as [Lt | [-> Lt]].
      * assert (2 ^ e <= 2 ^ 16) by (apply Z.pow_le_mono_r; lia).
        assert (0 < 2 ^ e) by (apply Z.pow_pos_nonneg; lia).
        assert (2 ^ 53 * 2 ^ 16 < 10 ^ 21) by reflexivity. nia.
      * change (10 ^ 21) with (7629394531250000 * 2 ^ 17).
        assert (0 < 2 ^ 17) by reflexivity. nia.
    + rewrite E in Hlt. discriminate Hlt.
Qed.

(** parseInt returns the Number of a positive integer unchanged, as long
    as that Number is below 10^21. *)
Lemma parseInt_positive_integer (n : Z) :
  1 <= n -> ltb (of_Z n) (of_Z (10 ^ 21)) = true ->
  parseInt (Num (of_Z n)) = of_Z n /\ posfin (of_Z n) = true.
Proof.
  intros Hn Hlt.
  destruct (Number_toString_positive_integer n Hn Hlt) as (P & K & M & HK & HM & V & T).
  split; [| exact P].
  unfold parseInt, ToString. rewrite T, <- V.
  apply parseInt_str_digits; assumption.
Qed.

(** parseFloat reads a run of digits as the integer it spells. *)
Lemma parseFloat_str_digits (K : nat) (M : Z) :
  (1 <= K)%nat -> 0 < M < 10 ^ Z.of_nat K ->
  parseFloat_str (digits_fixed K M) = of_Z M.
Proof.
  intros HK HM.
  destruct (digits_fixed_head K M HK) as (d & r & Hd & E).
  destruct (digit_char_spec d Hd) as (Dg & _ & Sp & _).
  assert (RD : read_digits (digits_fixed K M) 0 0 = (M, Z.of_nat K, "")).
  { rewrite <- (append_nil_r (digits_fixed K M)) at 1.
    rewrite read_digits_fixed. cbn [read_digits].
    rewrite Z.mul_0_l, !Z.add_0_l, Z.mod_small by lia. reflexivity. }
  assert (S : read_sign (trim_start (digits_fixed K M)) = (false, digits_fixed K M)).
  { rewrite E. cbn [trim_start]. rewrite Sp. apply read_sign_digit. exact Hd. }
  assert (I : prefix "Infinity" (digits_fixed K M) = false).
  { rewrite E. apply prefix_Infinity_digit. exact Hd. }
  unfold parseFloat_str. rewrite S, I, RD.
  destruct (Z.eqb_spec (Z.of_nat K) 0) as [Z0 | _]; [lia |].
  cbn [andb read_exponent]. rewrite Z.sub_0_r.
  rewrite of_decimal_integer by lia.
  rewrite Z.pow_0_r, Z.mul_1_r. reflexivity.
Qed.

(** The Number of a positive integer below 10^21 is read back from its
    text by parseFloat, so that parseFloat of such a Number is the Number. *)
Lemma parseFloat_positive_integer (n : Z) :
  1 <= n -> ltb (of_Z n) (of_Z (10 ^ 21)) = true ->
  parseFloat_str (ToString (Num (of_Z n))) = parseFloat (Num (of_Z n)).
Proof.
  intros Hn Hlt.
  destruct (Number_toString_positive_integer n Hn Hlt) as (P & K & M & HK & HM & V & T).
  destruct (posfin_inv _ P) as (m & e & E & _).
  unfold ToString. rewrite T.
  rewrite parseFloat_str_digits by assumption.
  rewrite V, E. reflexivity.
Qed.

End LargeIntegers.

(** ** Reading a fixed-point text back *)

(** The text [iii.ff] of an integer part and a fraction reads back as the
    decimal it spells. *)
Lemma parseFloat_str_point (a b : nat) (q n : Z) (neg : bool) :
  (1 <= a)%nat ->
  parseFloat_str ((if neg then "-" else "") ++ digits_fixed a q ++ "." ++ digits_fixed b n) =
  let v := of_decimal ((q mod 10 ^ Z.of_nat a) * 10 ^ Z.of_nat b + n mod 10 ^ Z.of_nat b)
                      (- Z.of_nat b) in
  if neg then opp v else v.
Proof.
  intros Ha.
  destruct (digits_fixed_head a q Ha) as (d & r & Hd & E).
  destruct (digit_char_spec d Hd) as (Dg & _ & Sp & _).
  set (body := digits_fixed a q ++ "." ++ digits_fixed b n).
  assert (Eb : body = String (digit_char d) (r ++ "." ++ digits_fixed b n)).
  { unfold body. rewrite E. reflexivity. }
  assert (S : read_sign (trim_start ((if neg then "-" else "") ++ body)) = (neg, body)).
  { destruct neg; cbn [append].
    - reflexivity.
    - rewrite Eb. cbn [trim_start]. rewrite Sp. apply read_sign_digit. exact Hd. }
  unfold parseFloat_str. rewrite S.
  assert (I : prefix "Infinity" body = false).
  { rewrite Eb. apply prefix_Infinity_digit. exact Hd. }
  rewrite I.
  unfold body. rewrite read_digits_fixed. cbn [append read_digits].
  change (is_digit ".") with false. cbn iota.
  rewrite <- (append_nil_r (digits_fixed b n)), read_digits_fixed.
  cbn [read_digits read_exponent].
  rewrite Z.mul_0_l, !Z.add_0_l.
  destruct (Z.eqb_spec (Z.of_nat a) 0) as [Z0 | _]; [lia |].
  cbn [andb]. rewrite Z.sub_0_l. reflexivity.
Qed.

(** The padded digits of [n] are its last two digits after a point and the
    rest before it. *)
Lemma fixed_digits_2 (n : Z) :
  0 <= n ->
  exists a : nat,
    (1 <= a)%nat /\ n / 100 < 10 ^ Z.of_nat a /\
    fixed_digits 2 n = digits_fixed a (n / 100) ++ "." ++ digits_fixed 2 n.
Proof.
  intros H. unfold fixed_digits.
  destruct (num_digits_bound n H) as [U P].
  set (k := num_digits n) in *.
  assert (L : length (decimal_string n) = k) by apply length_digits_fixed.
  rewrite L.
  assert (Pad : exists a : nat,
            (1 <= a)%nat /\ n < 10 ^ Z.of_nat (a + 2) /\
            (if (k <=? 2)%nat then zeros (2 + 1 - k) ++ decimal_string n
             else decimal_string n) = digits_fixed (a + 2) n).
  { destruct (Nat.leb_spec k 2) as [Le | Gt].
    - exists 1%nat. split; [lia |]. split.
      + apply Z.lt_le_trans with (10 ^ Z.of_nat k); [exact U |].
        apply Z.pow_le_mono_r; lia.
      + replace (1 + 2)%nat with ((2 + 1 - k) + k)%nat by lia.
        rewrite digits_fixed_split, Z.div_small by lia.
        rewrite digits_fixed_zero. reflexivity.
    - exists (k - 2)%nat. split; [lia |].
      replace (k - 2 + 2)%nat with k by lia. split; [exact U | reflexivity]. }
  destruct Pad as (a & Ha & Ua & ->).
  exists a. split; [exact Ha |]. split.
  - apply Z.div_lt_upper_bound; [lia |].
    rewrite Nat2Z.inj_add, Z.pow_add_r in Ua by lia.
    change (10 ^ Z.of_nat 2) with 100 in Ua. lia.
  - rewrite length_digits_fixed. replace (a + 2 - 2)%nat with a by lia.
    rewrite digits_fixed_split. change (10 ^ Z.of_nat 2) with 100.
    rewrite <- (length_digits_fixed a (n / 100)) at 1 3.
    rewrite take_append, drop_append. reflexivity.
Qed.

Lemma parseFloat_str_fixed_digits (n : Z) (neg : bool) :
  0 <= n ->
  parseFloat_str ((if neg then "-" else "") ++ fixed_digits 2 n) =
  if neg then opp (of_decimal n (-2)) else of_decimal n (-2).
Proof.
  intros H. destruct (fixed_digits_2 n H) as (a & Ha & Ua & ->).
  rewrite parseFloat_str_point by exact Ha. cbv zeta.
  rewrite (Z.mod_small (n / 100)) by (split; [apply Z.div_pos; lia | exact Ua]).
  change (10 ^ Z.of_nat 2) with 100. change (- Z.of_nat 2) with (-2).
  replace (n / 100 * 100 + n mod 100) with n
    by (pose proof (Z.div_mod n 100 ltac:(lia)); lia).
  reflexivity.
Qed.

(* ================================================================== *)
(** ** Openings, unit toggle *)


Lemma Forall2_map {A B : Type} (g : A -> B) (R : A -> B -> Prop) (l : list A) :
  (forall a, R a (g a)) -> Forall2 R l (map g l).
Proof. intros HR. induction l; simpl; constructor; auto. Qed.



(** ** Opening areas *)

Lemma or_else_of_Z (n : Z) :
  1 <= n -> ltb (of_Z n) (of_Z (10 ^ 21)) = true ->
  or_else (parseInt (Num (of_Z n))) (of_Z 1) = of_Z n.
Proof.
  intros H L. destruct (parseInt_positive_integer n H L) as [E P].
  rewrite E. destruct (posfin_inv _ P) as (m & e & -> & _). reflexivity.
Qed.

(** X26. For an opening whose width and height fields read as the Numbers
    w and h, whose quantity is the Number of a positive integer below
    10^21, and whose type is one of the table, calculateOpeningArea
    returns w*h*quantity*max(faceCount, 1) when the action is add, the
    face count being the override if present and the default of the type
    otherwise, and w*h*quantity when the action is subtract. *)
Theorem calculateOpeningArea_formula
    (ty : string) (vw vh : value) (w h : number) (n : Z) (act : string)
    (override : option number) (t : opening_type) :
  parseFloat vw = w -> parseFloat vh = h ->
  1 <= n -> ltb (of_Z n) (of_Z (10 ^ 21)) = true ->
  lookup OPENING_TYPES ty = Some t ->
  let o := {| opening_type_tag := ty; opening_width := vw; opening_height := vh;
              quantity := Num (of_Z n); action := act; customFaces := override |} in
  let faceCount := match override with Some f => f | None => faces t end in
  (act = "add" ->
   calculateOpeningArea o =
   mul (mul (mul w h) (of_Z n)) (Math_max faceCount (of_Z 1))) /\
  (act = "subtract" -> calculateOpeningArea o = mul (mul w h) (of_Z n)).
Proof.
  intros Hw Hh Hn Hlt Ht o faceCount. subst o faceCount.
  unfold calculateOpeningArea.
  cbn [opening_type_tag opening_width opening_height quantity action customFaces].
  rewrite Hw, Hh, Ht, or_else_of_Z by assumption.
  split; intros ->; reflexivity.
Qed.

Lemma calculateOpeningArea_formula_witness :
  calculateOpeningArea
    {| opening_type_tag := "paintableDoor"; opening_width := Num (of_Z 3);
       opening_height := Num (of_Z 7); quantity := Num (of_Z 1); action := "add";
       customFaces := None |}
  = mul (mul (mul (of_Z 3) (of_Z 7)) (of_Z 1)) (Math_max (of_Z 2) (of_Z 1)).
Proof.
  refine (proj1 (calculateOpeningArea_formula "paintableDoor" (Num (of_Z 3))
                   (Num (of_Z 7)) (of_Z 3) (of_Z 7) 1 "add" None _
                   eq_refl eq_refl _ eq_refl eq_refl)
            eq_refl).
  lia.
Defined.

(** C2. The engine misses the quantity of an opening when it is the
    Number 10^21, a positive integer that the quantity field can store:
    parseInt is applied to the Number, which it first prints, as
    [1e+21], and of which it then reads 1.  So whatever the opening, the
    area is the one for the quantity 1; a 3 by 7 opening to subtract comes
    out as 21 and not as 3*7*10^21, which the claim has and which the
    product with the quantity itself would give. *)
Theorem C2_quantity_read_as_one (o : opening) :
  Number_toString (of_Z (10 ^ 21)) = "1e+21" /\
  parseInt (Num (of_Z (10 ^ 21))) = of_Z 1 /\
  calculateOpeningArea (with_quantity o (Num (of_Z (10 ^ 21))))
  = calculateOpeningArea (with_quantity o (Num (of_Z 1))) /\
  (let hole := {| opening_type_tag := "window"; opening_width := Num (of_Z 3);
                  opening_height := Num (of_Z 7); quantity := Num (of_Z (10 ^ 21));
                  action := "subtract"; customFaces := None |} in
   calculateOpeningArea hole = of_Z 21 /\
   mul (mul (of_Z 3) (of_Z 7)) (of_Z (10 ^ 21)) = of_Z (21 * 10 ^ 21) /\
   calculateOpeningArea hole <> mul (mul (of_Z 3) (of_Z 7)) (of_Z (10 ^ 21))).
Proof.
  assert (P : parseInt (Num (of_Z (10 ^ 21))) = of_Z 1) by (vm_compute; reflexivity).
  split; [vm_compute; reflexivity |]. split; [exact P |]. split.
  - unfold calculateOpeningArea, with_quantity.
    cbn [opening_type_tag opening_width opening_height quantity action customFaces].
    rewrite P. reflexivity.
  - split; [vm_compute; reflexivity |]. split; [vm_compute; reflexivity |].
    vm_compute. discriminate.
Qed.

(** ** Paint required: the figures *)



(** ** The unit toggle *)

(** The claim C6 as stated fails for a length of 10 ft: after the switch to
    metric the stored length reads 3.05, which is not 10 * 0.3048. *)
Lemma C6_counterexample :
  let st := {| unitSystem := "imperial"; rooms := [ten_foot_room];
               current_settings := DEFAULT_SETTINGS |} in
  map room_length (rooms (handleUnitChange "metric" st)) = [Str "3.05"] /\
  map (fun r => parseFloat (room_length r)) (rooms (handleUnitChange "metric" st))
  <> map (fun r => mul (parseFloat (room_length r)) (of_decimal 3048 (-4))) (rooms st).
Proof. split; [vm_compute; reflexivity |]. vm_compute. discriminate. Qed.

(** C6, as amended. When the unit system is switched, every room length,
    width and height and every opening width and height is replaced by
    the toFixed(2) text of its value times the fixed factor, 0.3048 for a
    switch to metric and 3.28084 for a switch to imperial.  The product of
    the two factors is not 1, and toggling the example rooms from imperial
    to metric and back does not return their lengths: 20 and 14 ft come
    back as 20.01 and 14.01. *)
Theorem C6_toggle_rescales_and_rounds (newUnit : string) (st : state) :
  String.eqb newUnit (unitSystem st) = false ->
  let f := conversion_factor newUnit in
  let rescaled v := Str (toFixed 2 (mul (parseFloat v) f)) in
  (newUnit = "metric" -> f = of_decimal 3048 (-4)) /\
  (newUnit = "imperial" -> f = of_decimal 328084 (-5)) /\
  unitSystem (handleUnitChange newUnit st) = newUnit /\
  Forall2
    (fun r r' =>
       room_length r' = rescaled (room_length r) /\
       room_width r' = rescaled (room_width r) /\
       room_height r' = rescaled (room_height r) /\
       Forall2
         (fun o o' =>
            opening_width o' = rescaled (opening_width o) /\
            opening_height o' = rescaled (opening_height o))
         (openings r) (openings r'))
    (rooms st) (rooms (handleUnitChange newUnit st)) /\
  mul (of_decimal 3048 (-4)) (of_decimal 328084 (-5)) <> of_Z 1 /\
  (let st0 := {| unitSystem := "imperial"; rooms := exampleData_rooms;
                 current_settings := exampleData_settings |} in
   map (fun r => parseFloat (room_length r))
       (rooms (handleUnitChange "imperial" (handleUnitChange "metric" st0)))
   = [of_decimal 2001 (-2); of_decimal 1401 (-2)] /\
   map (fun r => parseFloat (room_length r)) (rooms st0) = [of_Z 20; of_Z 14]).
Proof.
  intros Hne f rescaled.
  split; [intros ->; reflexivity |]. split; [intros ->; reflexivity |].
  unfold handleUnitChange. rewrite Hne. cbn [unitSystem rooms].
  split; [reflexivity |]. split; [| split].
  - apply Forall2_map. intros r.
    cbn [convert_room room_length room_width room_height openings].
    repeat split. apply Forall2_map. intros o. split; reflexivity.
  - vm_compute. discriminate.
  - split; vm_compute; reflexivity.
Qed.

Lemma C6_toggle_rescales_and_rounds_witness :
  unitSystem (handleUnitChange "metric"
                {| unitSystem := "imperial"; rooms := exampleData_rooms;
                   current_settings := exampleData_settings |}) = "metric".
Proof.
  exact (proj1 (proj2 (proj2
           (C6_toggle_rescales_and_rounds "metric"
              {| unitSystem := "imperial"; rooms := exampleData_rooms;
                 current_settings := exampleData_settings |} eq_refl)))).
Defined.

(* ================================================================== *)
(** * Further properties of the code *)

(** ** The room list *)

Lemma with_rooms_same (st : state) : with_rooms st (rooms st) = st.
Proof. destruct st; reflexivity. Qed.

Lemma map_unchanged {A : Type} (f : A -> A) (l : list A) :
  (forall a, In a l -> f a = a) -> map f l = l.
Proof.
  induction l as [| a l IH]; intros H; [reflexivity |].
  cbn [map]. rewrite (H a (or_introl eq_refl)), IH; [reflexivity |].
  intros b Hb. apply H. right. exact Hb.
Qed.

Lemma map_map_unchanged {A B : Type} (f : A -> B) (g : B -> A) (l : list A) :
  (forall a, In a l -> g (f a) = a) -> map g (map f l) = l.
Proof. intros H. rewrite map_map. apply map_unchanged. exact H. Qed.

Lemma filter_unchanged {A : Type} (f : A -> bool) (l : list A) :
  (forall a, In a l -> f a = true) -> filter f l = l.
Proof.
  induction l as [| a l IH]; intros H; [reflexivity |].
  cbn [filter]. rewrite (H a (or_introl eq_refl)), IH; [reflexivity |].
  intros b Hb. apply H. right. exact Hb.
Qed.

Lemma fresh_eqb (id : string) (st : state) (r : room) :
  fresh id st -> In r (rooms st) -> String.eqb (room_id r) id = false.
Proof. intros F H. apply String.eqb_neq. apply F. exact H. Qed.

(** X1. A room added under an identifier that no room has yet is removed
    again by deleteRoom with that identifier, which gives back the state
    as it was. *)
Theorem addRoom_deleteRoom (id : string) (st : state) :
  fresh id st -> deleteRoom id (addRoom id st) = st.
Proof.
  intros F. unfold deleteRoom, addRoom, with_rooms. cbn [rooms unitSystem current_settings].
  rewrite filter_app. cbn [filter room_id]. rewrite String.eqb_refl. cbn [negb].
  rewrite app_nil_r, filter_unchanged.
  - destruct st; reflexivity.
  - intros r H. rewrite (fresh_eqb id st r F H). reflexivity.
Qed.

Lemma addRoom_deleteRoom_witness :
  deleteRoom "k3x9" (addRoom "k3x9" initial_state) = initial_state.
Proof.
  apply addRoom_deleteRoom. intros r H. destruct H.
Defined.

(** X2. An identifier that no room has selects nothing: updateRoom,
    deleteRoom and addOpening leave the state as it is, and so does
    addOpening while no room is chosen. *)
Theorem absent_room_is_noop (id : string) (u : room_updates) (o : opening) (st : state) :
  fresh id st ->
  updateRoom id u st = st /\
  deleteRoom id st = st /\
  addOpening (Some id) o st = st /\
  addOpening None o st = st.
Proof.
  intros F. unfold updateRoom, deleteRoom, addOpening.
  repeat split.
  - rewrite map_unchanged; [apply with_rooms_same |].
    intros r H. rewrite (fresh_eqb id st r F H). reflexivity.
  - rewrite filter_unchanged; [apply with_rooms_same |].
    intros r H. rewrite (fresh_eqb id st r F H). reflexivity.
  - rewrite map_unchanged; [apply with_rooms_same |].
    intros r H. cbn [is_room]. rewrite (fresh_eqb id st r F H). reflexivity.
  - rewrite map_unchanged; [apply with_rooms_same |]. reflexivity.
Qed.

Lemma absent_room_is_noop_witness :
  let st := addRoom "a1" initial_state in
  deleteRoom "b2" st = st.
Proof.
  refine (proj1 (proj2 (absent_room_is_noop "b2" no_updates
                          {| opening_type_tag := "window"; opening_width := Num (of_Z 4);
                             opening_height := Num (of_Z 3); quantity := Num (of_Z 1);
                             action := "subtract"; customFaces := None |}
                          (addRoom "a1" initial_state) _))).
  intros r [<- | []]. discriminate.
Defined.

(** *** Removing an opening *)

Lemma combine_seq_kept {A : Type} (keep : nat -> bool) (l : list A) :
  forall k,
  (forall i, (k <= i < k + List.length l)%nat -> keep i = true) ->
  map snd (filter (fun p => keep (fst p)) (combine (seq k (List.length l)) l)) = l.
Proof.
  induction l as [| a l IH]; intros k H; [reflexivity |].
  cbn [List.length seq combine filter fst].
  rewrite (H k) by (cbn [List.length]; lia).
  cbn [map snd]. f_equal. apply IH.
  intros i Hi. apply H. cbn [List.length]. lia.
Qed.

Lemma combine_seq_remove {A : Type} (l : list A) :
  forall k index,
  map snd (filter (fun p => negb (Nat.eqb (fst p) (k + index)))
                  (combine (seq k (List.length l)) l))
  = (firstn index l ++ skipn (S index) l)%list.
Proof.
  induction l as [| a l IH]; intros k index.
  - destruct index; reflexivity.
  - cbn [List.length seq combine filter fst].
    destruct index as [| index].
    + rewrite Nat.add_0_r, Nat.eqb_refl. cbn [negb firstn skipn app].
      apply (combine_seq_kept (fun i => negb (Nat.eqb i k))).
      intros i Hi. apply negb_true_iff, Nat.eqb_neq. lia.
    + destruct (Nat.eqb_spec k (k + S index)) as [E | _]; [lia |].
      cbn [negb map snd firstn skipn app]. f_equal.
      replace (k + S index)%nat with (S k + index)%nat by lia.
      apply IH.
Qed.

(** The opening at [index] is the one left out. *)
Lemma filter_index_remove {A : Type} (index : nat) (l : list A) :
  filter_index (fun i => negb (Nat.eqb i index)) l
  = (firstn index l ++ skipn (S index) l)%list.
Proof. unfold filter_index. apply (combine_seq_remove l 0 index). Qed.

Lemma same_id_same_room (rs : list room) (r r' : room) :
  NoDup (map room_id rs) -> In r rs -> In r' rs -> room_id r' = room_id r -> r' = r.
Proof.
  induction rs as [| a rs IH]; intros ND H H' E; [destruct H |].
  cbn [map] in ND. inversion ND as [| x xs Hnot ND']; subst.
  destruct H as [-> | H], H' as [-> | H'].
  - reflexivity.
  - exfalso. apply Hnot. rewrite <- E. apply in_map. exact H'.
  - exfalso. apply Hnot. rewrite E. apply in_map. exact H.
  - apply IH; assumption.
Qed.

Lemma Forall2_map_In {A B : Type} (g : A -> B) (R : A -> B -> Prop) (l : list A) :
  (forall a, In a l -> R a (g a)) -> Forall2 R l (map g l).
Proof.
  induction l as [| a l IH]; intros H; cbn [map]; constructor.
  - apply H. left. reflexivity.
  - apply IH. intros b Hb. apply H. right. exact Hb.
Qed.

(** X3. While the rooms have distinct identifiers, the remove button of
    the form of a room takes out the opening at its index from that room
    and changes no other room; an index past the last opening removes
    nothing. *)
Theorem removeOpening_removes (r : room) (index : nat) (st : state) :
  NoDup (map room_id (rooms st)) -> In r (rooms st) ->
  Forall2
    (fun r0 r1 =>
       if String.eqb (room_id r0) (room_id r)
       then r1 = {| room_id := room_id r; room_name := room_name r;
                    room_length := room_length r; room_width := room_width r;
                    room_height := room_height r;
                    openings := (firstn index (openings r)
                                 ++ skipn (S index) (openings r))%list |}
       else r1 = r0)
    (rooms st) (rooms (removeOpening r index st)) /\
  ((List.length (openings r) <= index)%nat -> removeOpening r index st = st).
Proof.
  intros ND H. unfold removeOpening, updateRoom.
  rewrite filter_index_remove. cbn [with_rooms rooms]. split.
  - apply Forall2_map_In. intros r0 H0.
    destruct (String.eqb_spec (room_id r0) (room_id r)) as [E | _]; [| reflexivity].
    rewrite (same_id_same_room _ _ _ ND H H0 E). reflexivity.
  - intros Hi. rewrite firstn_all2, skipn_all2, app_nil_r by lia.
    rewrite map_unchanged; [destruct st; reflexivity |].
    intros r0 H0. destruct (String.eqb_spec (room_id r0) (room_id r)) as [E | _];
      [| reflexivity].
    rewrite (same_id_same_room _ _ _ ND H H0 E). destruct r; reflexivity.
Qed.

Lemma removeOpening_removes_witness :
  let st := {| unitSystem := "imperial"; rooms := exampleData_rooms;
               current_settings := exampleData_settings |} in
  removeOpening example_living_room 2 st = st.
Proof.
  refine (proj2 (removeOpening_removes example_living_room 2
                   {| unitSystem := "imperial"; rooms := exampleData_rooms;
                      current_settings := exampleData_settings |} _ _) _).
  - repeat constructor; cbn; intuition discriminate.
  - left. reflexivity.
  - cbn. lia.
Defined.

(** X4. While the rooms have distinct identifiers, adding an opening to a
    room and then pressing the remove button of that new, last opening
    gives back the state as it was. *)
Theorem addOpening_removeOpening (r : room) (o : opening) (st : state) :
  NoDup (map room_id (rooms st)) -> In r (rooms st) ->
  let st' := addOpening (Some (room_id r)) o st in
  let r' := {| room_id := room_id r; room_name := room_name r;
               room_length := room_length r; room_width := room_width r;
               room_height := room_height r;
               openings := (openings r ++ [o])%list |} in
  In r' (rooms st') /\
  removeOpening r' (List.length (openings r)) st' = st.
Proof.
  intros ND H st' r'. split.
  - unfold st', addOpening. cbn [with_rooms rooms].
    apply in_map_iff. exists r. split; [| exact H].
    cbn [is_room]. rewrite String.eqb_refl. reflexivity.
  - unfold removeOpening, updateRoom, st', addOpening, with_rooms.
    rewrite filter_index_remove. cbn [openings r' room_id rooms unitSystem current_settings].
    rewrite firstn_app, firstn_all, Nat.sub_diag, skipn_app.
    rewrite skipn_all2 by lia.
    replace (S (List.length (openings r)) - List.length (openings r))%nat with 1%nat by lia.
    cbn [firstn skipn app]. rewrite !app_nil_r.
    destruct st as [u rs cs]. cbn [rooms unitSystem current_settings] in *.
    f_equal. apply map_map_unchanged. intros r0 H0. cbn [is_room].
    destruct (String.eqb_spec (room_id r0) (room_id r)) as [E | N].
    + cbn [spread_room override upd_id room_id]. rewrite E, String.eqb_refl.
      rewrite (same_id_same_room _ _ _ ND H H0 E). destruct r; reflexivity.
    + destruct (String.eqb_spec (room_id r0) (room_id r)) as [E | _];
        [contradiction | reflexivity].
Qed.

Lemma addOpening_removeOpening_witness :
  let st := {| unitSystem := "imperial"; rooms := exampleData_rooms;
               current_settings := exampleData_settings |} in
  let o := {| opening_type_tag := "grill"; opening_width := Num (of_Z 3);
              opening_height := Num (of_Z 7); quantity := Num (of_Z 1);
              action := "add"; customFaces := Some (of_Z 2) |} in
  removeOpening
    {| room_id := "2"; room_name := "Master Bedroom";
       room_length := Num (of_Z 14); room_width := Num (of_Z 12);
       room_height := Num (of_Z 9);
       openings := (openings example_master_bedroom ++ [o])%list |}
    3 (addOpening (Some "2") o st) = st.
Proof.
  refine (proj2 (addOpening_removeOpening example_master_bedroom
                   {| opening_type_tag := "grill"; opening_width := Num (of_Z 3);
                      opening_height := Num (of_Z 7); quantity := Num (of_Z 1);
                      action := "add"; customFaces := Some (of_Z 2) |}
                   {| unitSystem := "imperial"; rooms := exampleData_rooms;
                      current_settings := exampleData_settings |} _ _)).
  - repeat constructor; cbn; intuition discriminate.
  - right. left. reflexivity.
Defined.

(** X5. No edit of a room changes which rooms there are: updateRoom with
    an update that names no identifier, addOpening, the remove button,
    handleChange and the unit toggle all keep the identifiers of the rooms,
    in their order. *)
Theorem edits_keep_room_ids
    (id : string) (u : room_updates) (roomId : option string) (o : opening)
    (r : room) (index : nat) (f : dimension) (text : string) (errs : form_errors)
    (newUnit : string) (st : state) :
  upd_id u = None ->
  let ids s := map room_id (rooms s) in
  ids (updateRoom id u st) = ids st /\
  ids (addOpening roomId o st) = ids st /\
  ids (removeOpening r index st) = ids st /\
  ids (snd (handleChange r f text errs st)) = ids st /\
  ids (handleUnitChange newUnit st) = ids st.
Proof.
  intros Hu ids. unfold ids.
  assert (U : forall i v, upd_id v = None ->
              map room_id (rooms (updateRoom i v st)) = map room_id (rooms st)).
  { intros i v Hv. unfold updateRoom. cbn [with_rooms rooms]. rewrite map_map.
    apply map_ext. intros a. destruct (String.eqb (room_id a) i); [| reflexivity].
    cbn [spread_room room_id]. rewrite Hv. reflexivity. }
  repeat split.
  - apply U. exact Hu.
  - unfold addOpening. cbn [with_rooms rooms]. rewrite map_map.
    apply map_ext. intros a. destruct (is_room roomId a); reflexivity.
  - apply U. reflexivity.
  - cbn [handleChange snd]. apply U. destruct f; reflexivity.
  - unfold handleUnitChange. destruct (String.eqb newUnit (unitSystem st)); [reflexivity |].
    cbn [rooms]. rewrite map_map. reflexivity.
Qed.

Lemma edits_keep_room_ids_witness :
  let st := {| unitSystem := "imperial"; rooms := exampleData_rooms;
               current_settings := exampleData_settings |} in
  map room_id (rooms (handleUnitChange "metric" st)) = ["1"; "2"].
Proof.
  exact (proj2 (proj2 (proj2 (proj2
           (edits_keep_room_ids "1" no_updates None
              {| opening_type_tag := "window"; opening_width := Num (of_Z 4);
                 opening_height := Num (of_Z 3); quantity := Num (of_Z 1);
                 action := "subtract"; customFaces := None |}
              example_living_room 0 length_field "12"
              {| error_length := None; error_width := None; error_height := None |}
              "metric"
              {| unitSystem := "imperial"; rooms := exampleData_rooms;
                 current_settings := exampleData_settings |} eq_refl))))).
Defined.

(** X6. addRoom names a room by the number of rooms there are, so names
    repeat: after two rooms are added, the first of them is deleted and a
    third is added, the last two rooms bear the same name. *)
Theorem addRoom_names_repeat (i1 i2 i3 : string) (st : state) :
  fresh i1 st -> i2 <> i1 ->
  let st' := addRoom i3 (deleteRoom i1 (addRoom i2 (addRoom i1 st))) in
  let name := "Room " ++ Number_toString
                (add (of_Z (Z.of_nat (List.length (rooms st)) + 1)) (of_Z 1)) in
  map room_id (rooms st') = (map room_id (rooms st) ++ [i2; i3])%list /\
  map room_name (rooms st') = (map room_name (rooms st) ++ [name; name])%list.
Proof.
  intros F N st' name.
  assert (E : rooms st' =
              (rooms st ++
               [ {| room_id := i2; room_name := name;
                    room_length := Num (if String.eqb (unitSystem st) "imperial"
                                        then of_Z 12 else of_Z 4);
                    room_width := Num (if String.eqb (unitSystem st) "imperial"
                                       then of_Z 10 else of_Z 3);
                    room_height := Num (if String.eqb (unitSystem st) "imperial"
                                        then of_Z 9 else of_decimal 27 (-1));
                    openings := [] |};
                 {| room_id := i3; room_name := name;
                    room_length := Num (if String.eqb (unitSystem st) "imperial"
                                        then of_Z 12 else of_Z 4);
                    room_width := Num (if String.eqb (unitSystem st) "imperial"
                                       then of_Z 10 else of_Z 3);
                    room_height := Num (if String.eqb (unitSystem st) "imperial"
                                        then of_Z 9 else of_decimal 27 (-1));
                    openings := [] |} ])%list).
  { assert (D : rooms (deleteRoom i1 (addRoom i2 (addRoom i1 st))) =
                (rooms st ++
                 [ {| room_id := i2; room_name := name;
                      room_length := Num (if String.eqb (unitSystem st) "imperial"
                                          then of_Z 12 else of_Z 4);
                      room_width := Num (if String.eqb (unitSystem st) "imperial"
                                         then of_Z 10 else of_Z 3);
                      room_height := Num (if String.eqb (unitSystem st) "imperial"
                                          then of_Z 9 else of_decimal 27 (-1));
                      openings := [] |} ])%list).
    { unfold addRoom, deleteRoom, with_rooms.
      cbn [rooms unitSystem current_settings].
      rewrite !filter_app. cbn [filter room_id].
      rewrite String.eqb_refl. destruct (String.eqb_spec i2 i1) as [C | _]; [contradiction |].
      cbn [negb]. rewrite filter_unchanged
        by (intros r H; rewrite (fresh_eqb i1 st r F H); reflexivity).
      rewrite app_nil_r, length_app. cbn [List.length].
      rewrite Nat2Z.inj_add. reflexivity. }
    unfold st'. unfold addRoom at 1. unfold with_rooms. cbn [rooms].
    rewrite D, <- app_assoc. cbn [app]. rewrite length_app. cbn [List.length].
    rewrite Nat2Z.inj_add. reflexivity. }
  rewrite E, !map_app. split; reflexivity.
Qed.

Lemma addRoom_names_repeat_witness :
  map room_name
      (rooms (addRoom "c" (deleteRoom "a" (addRoom "b" (addRoom "a" initial_state)))))
  = ["Room 2"; "Room 2"].
Proof.
  refine (proj2 (addRoom_names_repeat "a" "b" "c" initial_state _ _)).
  - intros r H. destruct H.
  - discriminate.
Defined.

(** ** Texts that start with an integer *)

Lemma read_digits_stop (rest : string) (acc cnt : Z) :
  no_digit_head rest = true -> read_digits rest acc cnt = (acc, cnt, rest).
Proof.
  destruct rest as [| c r]; [reflexivity |]. cbn [no_digit_head read_digits].
  intros H. apply negb_true_iff in H. rewrite H. reflexivity.
Qed.

Lemma read_digits_integer (K : nat) (M : Z) (rest : string) :
  0 <= M < 10 ^ Z.of_nat K -> no_digit_head rest = true ->
  read_digits (digits_fixed K M ++ rest) 0 0 = (M, Z.of_nat K, rest).
Proof.
  intros HM Hr. rewrite read_digits_fixed, read_digits_stop by exact Hr.
  rewrite Z.mul_0_l, !Z.add_0_l, Z.mod_small by lia. reflexivity.
Qed.

Lemma digit_char_zero (d : Z) : 0 <= d < 10 -> digit_char d = "0"%char -> d = 0.
Proof.
  intros Hd E. destruct (digit_char_spec d Hd) as (_ & V & _).
  rewrite E in V. symmetry. exact V.
Qed.

(** The first two characters of an integer's digits are not a hexadecimal
    prefix. *)
Lemma digits_no_hex_prefix (K : nat) (M : Z) (rest : string) :
  (1 <= K)%nat -> 0 < M < 10 ^ Z.of_nat K -> no_digit_head rest = true ->
  match digits_fixed K M ++ rest with
  | String "0" (String c r) =>
      if (c =? "x")%char || (c =? "X")%char then read_hex r 0 0
      else read_digits (digits_fixed K M ++ rest) 0 0
  | _ => read_digits (digits_fixed K M ++ rest) 0 0
  end = read_digits (digits_fixed K M ++ rest) 0 0.
Proof.
  intros HK HM Hr.
  destruct K as [| K']; [lia |].
  replace (S K') with (1 + K')%nat by lia.
  rewrite digits_fixed_split.
  set (d := M / 10 ^ Z.of_nat K').
  assert (P : 0 < 10 ^ Z.of_nat K') by (apply Z.pow_pos_nonneg; lia).
  assert (Hd : 0 <= d < 10).
  { unfold d. split; [apply Z.div_pos; lia |].
    apply Z.div_lt_upper_bound; [lia |].
    rewrite Nat2Z.inj_succ, Z.pow_succ_r in HM by lia. lia. }
  assert (E1 : digits_fixed 1 d = String (digit_char d) "").
  { cbn [digits_fixed append]. rewrite Z.mod_small by lia. reflexivity. }
  rewrite E1. cbn [append].
  destruct (Ascii.eqb_spec (digit_char d) "0") as [Z0 | NZ].
  - rewrite Z0. apply digit_char_zero in Z0; [| exact Hd].
    destruct K' as [| K''].
    + exfalso. unfold d in Z0. change (10 ^ Z.of_nat 0) with 1 in *.
      rewrite Z.div_1_r in Z0. lia.
    + destruct (digits_fixed_head (S K'') M ltac:(lia)) as (d2 & r2 & Hd2 & E2).
      rewrite E2. cbn [append].
      destruct (digit_char_spec d2 Hd2) as (_ & _ & _ & _ & Ex & EX & _).
      rewrite Ex, EX. reflexivity.
  - destruct (digit_char d) as [[] [] [] [] [] [] [] []]; try reflexivity.
    contradiction NZ. reflexivity.
Qed.

(** parseInt reads the integer at the head of a text and drops what
    follows it. *)
Lemma parseInt_str_integer_prefix (K : nat) (M : Z) (rest : string) :
  (1 <= K)%nat -> 0 < M < 10 ^ Z.of_nat K -> no_digit_head rest = true ->
  parseInt_str (digits_fixed K M ++ rest) = of_Z M.
Proof.
  intros HK HM Hr.
  destruct (digits_fixed_head K M HK) as (d & r & Hd & E).
  destruct (digit_char_spec d Hd) as (Dg & _ & Sp & _).
  unfold parseInt_str.
  assert (T : trim_start (digits_fixed K M ++ rest) = digits_fixed K M ++ rest).
  { rewrite E. cbn [append trim_start]. rewrite Sp. reflexivity. }
  rewrite T.
  assert (S : read_sign (digits_fixed K M ++ rest) = (false, digits_fixed K M ++ rest)).
  { rewrite E. cbn [append]. apply read_sign_digit. exact Hd. }
  rewrite S, digits_no_hex_prefix, read_digits_integer by (assumption || lia).
  destruct (Z.eqb_spec (Z.of_nat K) 0) as [Z0 | _]; [lia |].
  destruct (Z.eqb_spec M 0) as [Z0 | _]; [lia |]. reflexivity.
Qed.

Lemma of_decimal_zero_exponent (M : Z) : 0 < M -> of_decimal M 0 = of_Z M.
Proof.
  intros H. unfold of_decimal. destruct M as [| p | p]; try lia.
  rewrite Z.pow_0_r, Z.mul_1_r. reflexivity.
Qed.

(** parseFloat reads the integer at the head of a text and drops what
    follows it. *)
Lemma parseFloat_str_integer_prefix (K : nat) (M : Z) (rest : string) :
  (1 <= K)%nat -> 0 < M < 10 ^ Z.of_nat K -> no_number_head rest = true ->
  parseFloat_str (digits_fixed K M ++ rest) = of_Z M.
Proof.
  intros HK HM Hr.
  assert (Hd0 : no_digit_head rest = true).
  { destruct rest as [| c r]; [reflexivity |]. cbn [no_number_head no_digit_head] in *.
    apply negb_true_iff in Hr. apply negb_true_iff.
    destruct (is_digit c); [discriminate Hr | reflexivity]. }
  destruct (digits_fixed_head K M HK) as (d & r & Hd & E).
  destruct (digit_char_spec d Hd) as (Dg & _ & Sp & _).
  unfold parseFloat_str.
  assert (S : read_sign (trim_start (digits_fixed K M ++ rest))
              = (false, digits_fixed K M ++ rest)).
  { rewrite E. cbn [append trim_start]. rewrite Sp. apply read_sign_digit. exact Hd. }
  assert (I : prefix "Infinity" (digits_fixed K M ++ rest) = false).
  { rewrite E. cbn [append]. apply prefix_Infinity_digit. exact Hd. }
  rewrite S, I, read_digits_integer by (assumption || lia).
  destruct (Z.eqb_spec (Z.of_nat K) 0) as [Z0 | _]; [lia |].
  assert (R : (match rest with
               | String "." r0 => read_digits r0 M 0
               | _ => (M, 0, rest)
               end) = (M, 0, rest) /\ read_exponent rest = 0).
  { destruct rest as [| c r0]; [split; reflexivity |].
    cbn [no_number_head] in Hr. apply negb_true_iff in Hr.
    apply orb_false_iff in Hr as [Hr HE]. apply orb_false_iff in Hr as [Hr He].
    apply orb_false_iff in Hr as [_ Hp].
    split.
    - destruct c as [[] [] [] [] [] [] [] []]; try reflexivity; discriminate Hp.
    - cbn [read_exponent]. rewrite He, HE. reflexivity. }
  destruct R as [R1 R2]. rewrite R1, R2. cbn [andb].
  rewrite Z.sub_0_r. apply of_decimal_zero_exponent. lia.
Qed.

(** The Number of a positive integer is above zero. *)
Lemma of_Z_above_zero (n : Z) : 0 < n -> ltb (of_Z 0) (of_Z n) = true.
Proof.
  intros H. pose proof (of_Z_nonneg n H) as NN.
  assert (L : SFleb (of_Z 1) (of_Z n) = true) by (apply of_Z_mono; lia).
  destruct (nonneg_cases _ NN) as [[s E] | [P | E]].
  - rewrite E in L. discriminate L.
  - destruct (posfin_inv _ P) as (m & e & -> & _). reflexivity.
  - rewrite E. reflexivity.
Qed.

(** ** Validation *)

(** validateField has no message exactly for a value that parseFloat reads
    as a Number above zero. *)
Lemma validateField_spec (v : value) :
  validateField v = None <-> ltb (of_Z 0) (parseFloat v) = true.
Proof.
  unfold validateField. destruct (parseFloat v) as [s | s | | s m e];
    try destruct s; cbn; split; intros H; try reflexivity; discriminate H.
Qed.

(** X7. A text that starts with a positive integer passes the validation
    of the room form whatever follows the integer, as long as that is
    neither a digit, a point nor an exponent mark: the rest is dropped and
    the dimension counts as the integer. *)
Theorem validateField_accepts_integer_prefix (n : Z) (rest : string) :
  0 < n -> no_number_head rest = true ->
  validateField (Str (decimal_string n ++ rest)) = None /\
  parseFloat (Str (decimal_string n ++ rest)) = of_Z n.
Proof.
  intros Hn Hr.
  assert (P : parseFloat (Str (decimal_string n ++ rest)) = of_Z n).
  { cbn [parseFloat]. unfold decimal_string.
    destruct (num_digits_bound n ltac:(lia)) as [U K].
    apply parseFloat_str_integer_prefix; [exact K | lia | exact Hr]. }
  split; [| exact P].
  apply validateField_spec. rewrite P. apply of_Z_above_zero. exact Hn.
Qed.

Lemma validateField_accepts_integer_prefix_witness :
  validateField (Str "12 ft") = None /\ parseFloat (Str "12 ft") = of_Z 12.
Proof.
  apply (validateField_accepts_integer_prefix 12 " ft"); [lia | reflexivity].
Defined.

(** ** Settings fields *)

Lemma parseInt_str_no_digit (s : string) :
  no_leading_digit s = true -> parseInt_str s = NaN.
Proof.
  unfold no_leading_digit, parseInt_str.
  destruct (read_sign (trim_start s)) as [neg t]. cbn [snd]. intros H.
  assert (R : match t with
              | String "0" (String c r) =>
                  if (c =? "x")%char || (c =? "X")%char then read_hex r 0 0
                  else read_digits t 0 0
              | _ => read_digits t 0 0
              end = (0, 0, t)).
  { destruct t as [| c r]; [reflexivity |].
    cbn [no_digit_head] in H. apply negb_true_iff in H.
    rewrite (read_digits_no_digit c r 0 0 H).
    destruct c as [[] [] [] [] [] [] [] []]; try reflexivity; discriminate H. }
  rewrite R. reflexivity.
Qed.

(** ** A rejected value is kept *)

Lemma dimension_NaN_room (r : room) (ic : bool) :
  parseFloat (room_length r) = NaN \/ parseFloat (room_width r) = NaN \/
  parseFloat (room_height r) = NaN ->
  wallArea (calculateRoomArea r ic) = NaN /\
  totalPaintableArea (calculateRoomArea r ic) = NaN.
Proof.
  intros H.
  assert (W : calculateWallArea (room_length r) (room_width r) (room_height r) = NaN).
  { unfold calculateWallArea. destruct H as [E | [E | E]]; rewrite E.
    - rewrite add_NaN_l, mul_NaN_r, mul_NaN_l. reflexivity.
    - rewrite add_NaN_r, mul_NaN_r, mul_NaN_l. reflexivity.
    - apply mul_NaN_r. }
  unfold calculateRoomArea. rewrite W.
  destruct (fold_left opening_step (openings r) (of_Z 0, of_Z 0)) as [s a].
  cbn [wallArea totalPaintableArea]. split; reflexivity.
Qed.

(** X9. The room form validates a typed dimension but stores it either
    way.  For a non-numeric text handleChange records the message and
    still writes the text into every room with the form's identifier,
    whose wall area and total paintable area are then NaN; the other rooms
    are unchanged. *)
Theorem handleChange_keeps_rejected_value
    (r : room) (f : dimension) (text : string) (errs : form_errors) (st : state)
    (ic : bool) :
  non_numeric text = true ->
  let '(errs', st') := handleChange r f text errs st in
  error_of f errs' = Some "Must be a positive number" /\
  Forall2
    (fun r0 r1 =>
       if String.eqb (room_id r0) (room_id r)
       then dimension_of f r1 = Str text /\
            wallArea (calculateRoomArea r1 ic) = NaN /\
            totalPaintableArea (calculateRoomArea r1 ic) = NaN
       else r1 = r0)
    (rooms st) (rooms st').
Proof.
  intros H. cbn [handleChange].
  pose proof (parseFloat_str_non_numeric text H) as P.
  split.
  - unfold validateField. cbn [parseFloat]. rewrite P. destruct f; reflexivity.
  - unfold updateRoom. cbn [with_rooms rooms]. apply Forall2_map. intros r0.
    destruct (String.eqb (room_id r0) (room_id r)); [| reflexivity].
    split; [destruct f; reflexivity |].
    apply dimension_NaN_room.
    destruct f; cbn [dimension_update spread_room override upd_length upd_width
                     upd_height room_length room_width room_height parseFloat];
      rewrite P; auto.
Qed.

Lemma handleChange_keeps_rejected_value_witness :
  let st := addRoom "a1" initial_state in
  let '(errs', st') :=
    handleChange {| room_id := "a1"; room_name := "Room 1"; room_length := Num (of_Z 12);
                    room_width := Num (of_Z 10); room_height := Num (of_Z 9);
                    openings := [] |}
                 height_field "abc"
                 {| error_length := None; error_width := None; error_height := None |} st in
  error_height errs' = Some "Must be a positive number".
Proof.
  exact (proj1 (handleChange_keeps_rejected_value
                  {| room_id := "a1"; room_name := "Room 1"; room_length := Num (of_Z 12);
                     room_width := Num (of_Z 10); room_height := Num (of_Z 9);
                     openings := [] |}
                  height_field "abc"
                  {| error_length := None; error_width := None; error_height := None |}
                  (addRoom "a1" initial_state) true eq_refl)).
Defined.

(** ** Openings of a room *)

Lemma fold_opening_step_known (os : list opening) (acc : number * number) :
  fold_left opening_step (filter known_action os) acc = fold_left opening_step os acc.
Proof.
  revert acc. induction os as [| o os IH]; intros acc; [reflexivity |].
  cbn [filter fold_left]. unfold known_action, is_subtract, is_add.
  destruct (String.eqb (action o) "subtract") eqn:Es.
  - cbn [orb fold_left]. apply IH.
  - destruct (String.eqb (action o) "add") eqn:Ea.
    + cbn [orb fold_left]. apply IH.
    + cbn [orb]. rewrite IH. f_equal. unfold opening_step. rewrite Es, Ea. reflexivity.
Qed.

(** X10. An opening whose action is neither [add] nor [subtract] counts
    for nothing: calculateRoomArea returns the same six figures as for the
    room without such openings. *)
Theorem calculateRoomArea_ignores_other_actions (r : room) (ic : bool) :
  calculateRoomArea r ic
  = calculateRoomArea (with_openings r (filter known_action (openings r))) ic.
Proof.
  unfold calculateRoomArea, with_openings.
  cbn [room_length room_width room_height openings].
  rewrite fold_opening_step_known. reflexivity.
Qed.

(** ** The quantity of an opening *)

(** X11. A quantity that parseInt does not read as a number other than
    zero counts as 1: calculateOpeningArea returns the same area for a
    quantity text with no integer at its head, for the text [0], and for
    the Numbers 0 and NaN as for the quantity 1. *)
Theorem calculateOpeningArea_default_quantity (o : opening) (s : string) :
  no_leading_digit s = true ->
  let one := calculateOpeningArea (with_quantity o (Num (of_Z 1))) in
  calculateOpeningArea (with_quantity o (Str s)) = one /\
  calculateOpeningArea (with_quantity o (Str "0")) = one /\
  calculateOpeningArea (with_quantity o (Num (of_Z 0))) = one /\
  calculateOpeningArea (with_quantity o (Num NaN)) = one.
Proof.
  intros H one. unfold one, calculateOpeningArea, with_quantity.
  cbn [opening_type_tag opening_width opening_height quantity action customFaces].
  assert (E1 : or_else (parseInt (Num (of_Z 1))) (of_Z 1) = of_Z 1) by reflexivity.
  assert (Es : or_else (parseInt (Str s)) (of_Z 1) = of_Z 1).
  { unfold parseInt. cbn [ToString]. rewrite (parseInt_str_no_digit s H). reflexivity. }
  assert (E0 : or_else (parseInt (Str "0")) (of_Z 1) = of_Z 1) by reflexivity.
  assert (Ez : or_else (parseInt (Num (of_Z 0))) (of_Z 1) = of_Z 1) by reflexivity.
  assert (En : or_else (parseInt (Num NaN)) (of_Z 1) = of_Z 1) by reflexivity.
  rewrite E1, Es, E0, Ez, En. repeat split.
Qed.

Lemma calculateOpeningArea_default_quantity_witness :
  let o := {| opening_type_tag := "window"; opening_width := Num (of_Z 4);
              opening_height := Num (of_Z 3); quantity := Str "";
              action := "subtract"; customFaces := None |} in
  calculateOpeningArea o = of_Z 12.
Proof.
  exact (proj1 (calculateOpeningArea_default_quantity
                  {| opening_type_tag := "window"; opening_width := Num (of_Z 4);
                     opening_height := Num (of_Z 3); quantity := Str "";
                     action := "subtract"; customFaces := None |} "" eq_refl)).
Defined.

(** ** The loop over the rooms *)

Lemma fold_room_step (st : settings) (rs : list room) :
  forall (done : list room_result) (t : areas),
  fold_left (room_step st) rs (done, t)
  = ((done ++ map (fun r => {| source := r; calculations := room_calculation st r |}) rs)%list,
     fold_left add_areas (map (room_calculation st) rs) t).
Proof.
  induction rs as [| r rs IH]; intros done t; cbn [fold_left map].
  - rewrite app_nil_r. reflexivity.
  - unfold room_step at 2. cbn [fst snd]. rewrite IH, <- app_assoc. reflexivity.
Qed.

(** X12. calculateAll returns the rooms it was given, in their order, each
    with the figures of calculateRoomArea for it; its totals are the
    figures of the rooms added up in that order from zero; and the paint
    is calculatePaintRequired of the total paintable area. *)
Theorem calculateAll_rooms_and_totals
    (rs : list room) (st : settings) (unit : string) (res : CalculationResult) :
  calculateAll rs st unit = Returns res ->
  map source (result_rooms res) = rs /\
  map calculations (result_rooms res) = map (room_calculation st) rs /\
  totals res = fold_left add_areas (map (room_calculation st) rs) zero_totals /\
  result_paint res =
    calculatePaintRequired (totalPaintableArea (totals res))
      (ToNumber (result_coverage res)) (coats st) (wastagePercent st) /\
  result_settings res = st /\ result_unitSystem res = unit.
Proof.
  unfold calculateAll. rewrite fold_room_step. cbn [app].
  destruct (lookup PAINT_TYPES (paintType st)) as [pc |]; [| discriminate].
  intros E. injection E as <-.
  cbn [result_rooms totals result_paint result_settings result_unitSystem result_coverage].
  rewrite !map_map. cbn [source calculations]. rewrite map_id.
  repeat split.
Qed.

Lemma calculateAll_rooms_and_totals_witness :
  exists res,
    calculateAll exampleData_rooms exampleData_settings "imperial" = Returns res /\
    map source (result_rooms res) = exampleData_rooms.
Proof.
  eexists. split; [reflexivity |].
  exact (proj1 (calculateAll_rooms_and_totals exampleData_rooms exampleData_settings
                  "imperial" _ eq_refl)).
Defined.

(** ** Keys that are not in the tables *)

(** X13. calculateAll throws exactly when the paint type of the settings
    is not a key of PAINT_TYPES, whatever the rooms and the unit system. *)
Theorem calculateAll_throws_iff_unknown_paint
    (rs : list room) (st : settings) (unit : string) :
  calculateAll rs st unit = Throws_TypeError <->
  lookup PAINT_TYPES (paintType st) = None.
Proof.
  unfold calculateAll. rewrite fold_room_step.
  destruct (lookup PAINT_TYPES (paintType st)); split; intros H;
    try reflexivity; discriminate H.
Qed.

Lemma div_NaN_r (x : number) : div x NaN = NaN.
Proof. destruct x; reflexivity. Qed.

Lemma coverage_keys (key unit : string) (pt : paint_type) :
  lookup PAINT_TYPES key = Some pt ->
  unit <> "imperial" -> unit <> "metric" -> lookup (coverage pt) unit = None.
Proof.
  intros H Hi Hm.
  assert (K : forall a b : number, lookup [("imperial", a); ("metric", b)] unit = None).
  { intros a b. cbn [lookup].
    destruct (String.eqb_spec "imperial" unit) as [E | _]; [congruence |].
    destruct (String.eqb_spec "metric" unit) as [E | _]; [congruence |]. reflexivity. }
  unfold PAINT_TYPES in H. cbn [lookup] in H.
  repeat match type of H with
         | (if ?c then _ else _) = _ =>
             destruct c; [injection H as <-; apply K |]
         end.
  discriminate H.
Qed.

(** X14. For a unit system that is neither [imperial] nor [metric], and
    no name that objects inherit from [Object.prototype] either,
    calculateAll does not throw: it returns a result without a coverage,
    in which every paint figure is NaN; toCSV then throws on that
    result. *)
Theorem unknown_unit_system
    (rs : list room) (st : settings) (unit : string) (pt : paint_type) :
  unit <> "imperial" -> unit <> "metric" -> ~ In unit Object_prototype_keys ->
  lookup PAINT_TYPES (paintType st) = Some pt ->
  exists res,
    calculateAll rs st unit = Returns res /\
    result_coverage res = None /\
    base (result_paint res) = NaN /\ withCoats (result_paint res) = NaN /\
    withWastage (result_paint res) = NaN /\ rounded (result_paint res) = NaN /\
    toCSV res = Throws_TypeError.
Proof.
  intros Hi Hm _ Hp. unfold calculateAll. rewrite fold_room_step, Hp.
  rewrite (coverage_keys _ unit pt Hp Hi Hm).
  eexists. split; [reflexivity |].
  cbn [result_coverage result_paint ToNumber calculatePaintRequired base withCoats
       withWastage rounded].
  rewrite div_NaN_r, !mul_NaN_l. repeat split.
  unfold toCSV. cbn [result_unitSystem lookup UNIT_SYSTEMS].
  destruct (String.eqb_spec "imperial" unit) as [E | _]; [congruence |].
  destruct (String.eqb_spec "metric" unit) as [E | _]; [congruence |]. reflexivity.
Qed.

Lemma unknown_unit_system_witness :
  exists res,
    calculateAll exampleData_rooms exampleData_settings "yards" = Returns res /\
    rounded (result_paint res) = NaN /\ toCSV res = Throws_TypeError.
Proof.
  destruct (unknown_unit_system exampleData_rooms exampleData_settings "yards" _
              ltac:(discriminate) ltac:(discriminate)
              ltac:(cbn; intuition discriminate) eq_refl)
    as (res & E & _ & _ & _ & _ & R & T).
  exists res. repeat split; assumption.
Defined.

(** ** Unit toggle: fields that are not numbers, and small dimensions *)

(** X15. The unit toggle turns a dimension that is a non-numeric text into
    the text [NaN], which is non-numeric again: after the toggle the room
    still has no area. *)
Theorem toggle_keeps_invalid_dimension (newUnit s : string) :
  non_numeric s = true ->
  convert_dimension (conversion_factor newUnit) (Str s) = Str "NaN" /\
  non_numeric "NaN" = true /\
  forall r ic,
    room_length r = Str s \/ room_width r = Str s \/ room_height r = Str s ->
    totalPaintableArea (calculateRoomArea (convert_room newUnit r) ic) = NaN.
Proof.
  intros H.
  assert (C : convert_dimension (conversion_factor newUnit) (Str s) = Str "NaN").
  { unfold convert_dimension. cbn [parseFloat].
    rewrite (parseFloat_str_non_numeric s H), mul_NaN_l. reflexivity. }
  split; [exact C |]. split; [reflexivity |].
  intros r ic Hr. apply dimension_NaN_room.
  cbn [convert_room room_length room_width room_height].
  destruct Hr as [E | [E | E]]; rewrite E, C; auto.
Qed.

Lemma toggle_keeps_invalid_dimension_witness :
  convert_dimension (conversion_factor "metric") (Str "twelve") = Str "NaN".
Proof.
  exact (proj1 (toggle_keeps_invalid_dimension "metric" "twelve" eq_refl)).
Defined.

Section SmallDimensions.

Local Open Scope R_scope.

Lemma SFltb_not_leb (f g : spec_float) :
  posfin f = true -> posfin g = true -> SFltb f g = true -> SFleb g f = false.
Proof.
  intros Pf Pg L.
  destruct (posfin_inv _ Pf) as (m & e & -> & _).
  destruct (posfin_inv _ Pg) as (m' & e' & -> & _).
  apply SFltb_finite_inv in L.
  destruct (SFleb (S754_finite false m' e') (S754_finite false m e)) eqn:E; [| reflexivity].
  apply SFleb_finite_inv in E. lia.
Qed.

(** The real value of a positive Number as a fraction of two integers. *)
Lemma SF2R_fraction (m : positive) (e : Z) :
  SF2R (S754_finite false m e) = IZR (numer m e) / IZR (denom e).
Proof.
  cbn [SF2R cond_Zopp]. unfold numer, denom.
  destruct (Z_le_gt_dec 0 e) as [P | N].
  - rewrite Z.max_l, Z.max_r by lia. rewrite mult_IZR, <- bpow_IZR by lia.
    change (2 ^ 0)%Z with 1%Z. field.
  - rewrite Z.max_r, Z.max_l by lia. rewrite Z.pow_0_r, Z.mul_1_r.
    rewrite <- bpow_IZR by lia.
    assert (B : bpow e * bpow (- e) = 1).
    { rewrite <- bpow_plus. replace (e + - e)%Z with 0%Z by lia. apply bpow_0. }
    pose proof (bpow_gt_0 (- e)) as G.
    apply (Rmult_eq_reg_r (bpow (- e))); [| lra].
    unfold Rdiv. rewrite !Rmult_assoc, Rinv_l, B by lra. reflexivity.
Qed.

Lemma denom_pos (e : Z) : (0 < denom e)%Z.
Proof. unfold denom. apply Z.pow_pos_nonneg; lia. Qed.

Lemma numer_pos (m : positive) (e : Z) : (0 < numer m e)%Z.
Proof. unfold numer. apply Z.mul_pos_pos; [lia | apply Z.pow_pos_nonneg; lia]. Qed.

(** A positive Number below the Number 0.005 is below 5/1000. *)
Lemma below_half_cent (m : positive) (e : Z) :
  bounded prec emax m e = true ->
  SFltb (S754_finite false m e) (of_decimal 5 (-3)) = true ->
  (1000 * numer m e < 5 * denom e)%Z.
Proof.
  intros B L.
  destruct (Z_lt_le_dec (1000 * numer m e) (5 * denom e)) as [Lt | Ge]; [exact Lt | exfalso].
  assert (V : 5 / 1000 <= SF2R (S754_finite false m e)).
  { rewrite SF2R_fraction. pose proof (denom_pos e) as D. apply IZR_lt in D.
    apply IZR_le in Ge. rewrite !mult_IZR in Ge.
    apply (Rmult_le_reg_r (IZR (denom e))); [exact D |].
    unfold Rdiv at 2. rewrite Rmult_assoc, Rinv_l by lra. lra. }
  assert (R1 : Rnd (5 / 1000) (of_decimal 5 (-3))).
  { pose proof (of_decimal_Rnd 5 (-3) ltac:(lia)) as R. cbn in R. exact R. }
  pose proof (Rnd_self m e B) as R2.
  change (IZR (Z.pos m) * bpow e) with (SF2R (S754_finite false m e)) in R2.
  pose proof (Rnd_mono _ _ _ _ R1 R2 ltac:(lra) V) as Le.
  rewrite (SFltb_not_leb (S754_finite false m e) (of_decimal 5 (-3))) in Le;
    [discriminate Le | exact B | reflexivity | exact L].
Qed.

End SmallDimensions.

(** X16. A dimension whose converted value is below 0.005 does not survive
    the unit toggle: it is stored as the text [0.00], which reads back as
    0. *)
Theorem toggle_flattens_small_dimension (newUnit : string) (v : value) :
  let y := mul (parseFloat v) (conversion_factor newUnit) in
  nonneg y = true -> ltb y (of_decimal 5 (-3)) = true ->
  convert_dimension (conversion_factor newUnit) v = Str "0.00" /\
  parseFloat (Str "0.00") = zero.
Proof.
  intros y N L. split; [| reflexivity].
  unfold convert_dimension. fold y. f_equal.
  destruct (nonneg_cases _ N) as [[s E] | [P | E]].
  - rewrite E. reflexivity.
  - destruct (posfin_inv _ P) as (m & e & E & B). rewrite E in *.
    pose proof (below_half_cent m e B L) as H.
    pose proof (numer_pos m e) as Pn. pose proof (denom_pos e) as Pd.
    cbn [toFixed].
    assert (W : below_pow10 (numer m e) (denom e) 21 = true).
    { unfold below_pow10. apply Z.ltb_lt. cbn [Z.max Z.opp Z.compare].
      change (10 ^ 0) with 1. change (10 ^ 21) with 1000000000000000000000. lia. }
    rewrite W.
    replace ((2 * numer m e * 10 ^ Z.of_nat 2 + denom e) / (2 * denom e)) with 0;
      [reflexivity |].
    symmetry. apply Z.div_small. change (10 ^ Z.of_nat 2) with 100. lia.
  - rewrite E in L. discriminate L.
Qed.

Lemma toggle_flattens_small_dimension_witness :
  convert_dimension (conversion_factor "metric") (Str "0.016") = Str "0.00".
Proof.
  exact (proj1 (toggle_flattens_small_dimension "metric" (Str "0.016") eq_refl eq_refl)).
Defined.

Section Sums.

Local Open Scope R_scope.

Lemma SF2R_zero s : SF2R (S754_zero s) = 0.
Proof. reflexivity. Qed.

(** A Number that is zero or positive and finite is the nearest to its own
    value. *)
Lemma Rnd0_self (f : spec_float) :
  nonneg f = true -> is_finite f = true -> Rnd0 (SF2R f) f.
Proof.
  intros N F. destruct (nonneg_cases _ N) as [[s E] | [P | E]].
  - left. rewrite E. split; [reflexivity | exists s; reflexivity].
  - right. split; [apply posfin_value_pos; exact P |].
    destruct (posfin_inv _ P) as (m & e & -> & B). apply Rnd_self. exact B.
  - rewrite E in F. discriminate F.
Qed.

Lemma Rnd0_nonneg x f : Rnd0 x f -> nonneg f = true.
Proof.
  intros [[_ [s ->]] | [P R]]; [reflexivity | apply (Rnd_nonneg x); assumption].
Qed.

Lemma Rnd0_mono x x' f f' :
  Rnd0 x f -> Rnd0 x' f' -> x <= x' -> SFleb f f' = true.
Proof.
  intros [[E [s ->]] | [P R]] H' L.
  - apply zero_le_nonneg. apply (Rnd0_nonneg x'). exact H'.
  - destruct H' as [[E' _] | [P' R']]; [lra |].
    apply (Rnd_mono x x'); assumption.
Qed.

(** The sum of two finite Numbers that are not below zero is the Number
    nearest to the sum of their values. *)
Lemma add_Rnd0 (X Y : spec_float) :
  nonneg X = true -> is_finite X = true -> nonneg Y = true -> is_finite Y = true ->
  Rnd0 (SF2R X + SF2R Y) (add X Y).
Proof.
  intros NX FX NY FY.
  destruct (nonneg_cases _ NX) as [[s EX] | [PX | EX]];
    [| | rewrite EX in FX; discriminate FX];
    (destruct (nonneg_cases _ NY) as [[s' EY] | [PY | EY]];
     [| | rewrite EY in FY; discriminate FY]).
  - left. rewrite EX, EY. split; [cbn [SF2R]; lra |].
    destruct s, s'; eexists; reflexivity.
  - right. rewrite EX. destruct (posfin_inv _ PY) as (m & e & -> & B).
    split; [pose proof (SF2R_posfin m e); rewrite SF2R_zero; lra |].
    rewrite SF2R_zero, Rplus_0_l. apply Rnd_self. exact B.
  - right. rewrite EY, (add_posfin_zero X s' PX).
    destruct (posfin_inv _ PX) as (m & e & -> & B).
    split; [pose proof (SF2R_posfin m e); rewrite SF2R_zero; lra |].
    rewrite SF2R_zero, Rplus_0_r. apply Rnd_self. exact B.
  - right. split; [| apply add_Rnd; assumption].
    pose proof (posfin_value_pos X PX). pose proof (posfin_value_pos Y PY). lra.
Qed.

Lemma nonneg_value (f : spec_float) : nonneg f = true -> 0 <= SF2R f.
Proof.
  intros N. destruct (nonneg_cases _ N) as [[s ->] | [P | ->]]; cbn [SF2R]; try lra.
  apply Rlt_le. apply posfin_value_pos. exact P.
Qed.

(** Adding a Number that is not below zero does not give less. *)
Lemma add_not_less (X Y : spec_float) :
  nonneg X = true -> is_finite X = true -> nonneg Y = true -> is_finite Y = true ->
  SFleb X (add X Y) = true /\ nonneg (add X Y) = true.
Proof.
  intros NX FX NY FY. pose proof (add_Rnd0 X Y NX FX NY FY) as R.
  split; [| apply (Rnd0_nonneg _ _ R)].
  apply (Rnd0_mono (SF2R X) (SF2R X + SF2R Y)); [apply Rnd0_self; assumption | exact R |].
  pose proof (nonneg_value Y NY). lra.
Qed.

(** Sums of finite Numbers that are not below zero keep the order. *)
Lemma add_mono (X X' Y Y' : spec_float) :
  nonneg X = true -> is_finite X = true -> nonneg X' = true -> is_finite X' = true ->
  nonneg Y = true -> is_finite Y = true -> nonneg Y' = true -> is_finite Y' = true ->
  SFleb X X' = true -> SFleb Y Y' = true ->
  SFleb (add X Y) (add X' Y') = true.
Proof.
  intros NX FX NX' FX' NY FY NY' FY' LX LY.
  apply (Rnd0_mono (SF2R X + SF2R Y) (SF2R X' + SF2R Y')); try (apply add_Rnd0; assumption).
  pose proof (SFleb_value X X' NX NX' FX FX' LX).
  pose proof (SFleb_value Y Y' NY NY' FY FY' LY). lra.
Qed.

End Sums.

(** The recommended purchase does not decrease with the area. *)
Lemma rounded_mono_area (a a' c k w : number) :
  nonneg a = true -> is_finite a = true -> nonneg a' = true -> is_finite a' = true ->
  positive_number c = true -> positive_number k = true -> non_negative_number w = true ->
  leb a a' = true ->
  leb (rounded (calculatePaintRequired a c k w))
      (rounded (calculatePaintRequired a' c k w)) = true.
Proof.
  intros Na Fa Na' Fa' Hc Hk Hw L.
  apply non_negative_inv in Hw as [Nw Fw].
  apply positive_inv in Hc. apply positive_inv in Hk.
  pose proof (wastage_factor_posfin w Nw Fw) as Pf.
  pose proof (div_nonneg a c Na Fa Hc) as Nb.
  pose proof (div_nonneg a' c Na' Fa' Hc) as Nb'.
  unfold leb. cbn [rounded calculatePaintRequired]. fold (wastage_factor w).
  apply Math_ceil_mono; try (repeat apply mul_nonneg; assumption).
  apply mul_mono_l; try (apply mul_nonneg; assumption); try assumption.
  apply mul_mono_l; try assumption.
  apply div_mono_l; assumption.
Qed.

Lemma calculateAll_returns (rs : list room) (st : settings) (unit : string)
    (res : CalculationResult) :
  calculateAll rs st unit = Returns res ->
  totals res = fold_left add_areas (map (room_calculation st) rs) zero_totals /\
  rounded (result_paint res) =
    rounded (calculatePaintRequired (totalPaintableArea (totals res))
               (ToNumber (result_coverage res)) (coats st) (wastagePercent st)) /\
  exists pt, lookup PAINT_TYPES (paintType st) = Some pt /\
             result_coverage res = lookup (coverage pt) unit.
Proof.
  unfold calculateAll. rewrite fold_room_step.
  destruct (lookup PAINT_TYPES (paintType st)) as [pc |]; [| discriminate].
  intros E. injection E as <-. cbn [totals result_paint result_coverage].
  split; [reflexivity |]. split; [reflexivity |]. exists pc. split; reflexivity.
Qed.

(** X17. One more room never lowers the estimate.  When a room whose
    paintable area is a finite Number not below zero is added at the end of
    the list, and the totals before and after are finite Numbers, the
    total paintable area and the recommended purchase of calculateAll do
    not decrease. *)
Theorem one_more_room_never_lowers_purchase
    (rs : list room) (r : room) (st : settings) (unit : string)
    (res res' : CalculationResult) :
  calculateAll rs st unit = Returns res ->
  calculateAll (rs ++ [r]) st unit = Returns res' ->
  non_negative_number (totalPaintableArea (totals res)) = true ->
  non_negative_number (totalPaintableArea (calculateRoomArea r (includeCeiling st))) = true ->
  is_finite (totalPaintableArea (totals res')) = true ->
  positive_number (ToNumber (result_coverage res)) = true ->
  positive_number (coats st) = true ->
  non_negative_number (wastagePercent st) = true ->
  leb (totalPaintableArea (totals res)) (totalPaintableArea (totals res')) = true /\
  leb (rounded (result_paint res)) (rounded (result_paint res')) = true.
Proof.
  intros E E' HT HA F' Hc Hk Hw.
  destruct (calculateAll_returns _ _ _ _ E) as (T & P & pt & Hp & C).
  destruct (calculateAll_returns _ _ _ _ E') as (T' & P' & pt' & Hp' & C').
  assert (Ec : result_coverage res' = result_coverage res).
  { rewrite Hp in Hp'. injection Hp' as <-. rewrite C, C'. reflexivity. }
  assert (S : totalPaintableArea (totals res') =
              add (totalPaintableArea (totals res))
                  (totalPaintableArea (calculateRoomArea r (includeCeiling st)))).
  { rewrite T', T, map_app, fold_left_app. reflexivity. }
  apply non_negative_inv in HT as [NT FT]. apply non_negative_inv in HA as [NA FA].
  destruct (add_not_less _ _ NT FT NA FA) as [L N'].
  rewrite <- S in L, N'.
  split; [exact L |].
  rewrite P, P', Ec. apply rounded_mono_area; assumption.
Qed.

Lemma one_more_room_never_lowers_purchase_witness :
  exists res res',
    calculateAll [example_living_room] exampleData_settings "imperial" = Returns res /\
    calculateAll [example_living_room; example_master_bedroom] exampleData_settings
      "imperial" = Returns res' /\
    leb (rounded (result_paint res)) (rounded (result_paint res')) = true.
Proof.
  eexists. eexists. split; [reflexivity |]. split; [reflexivity |].
  exact (proj2 (one_more_room_never_lowers_purchase [example_living_room]
                  example_master_bedroom exampleData_settings "imperial" _ _
                  eq_refl eq_refl eq_refl eq_refl eq_refl eq_refl eq_refl eq_refl)).
Defined.

(** ** With and without the ceiling *)

Lemma add_nonneg (X Y : spec_float) :
  nonneg X = true -> nonneg Y = true -> nonneg (add X Y) = true.
Proof.
  intros NX NY.
  destruct (nonneg_cases _ NX) as [[s EX] | [PX | EX]];
    destruct (nonneg_cases _ NY) as [[s' EY] | [PY | EY]].
  - rewrite EX, EY. destruct s, s'; reflexivity.
  - rewrite EX. destruct (posfin_inv _ PY) as (m & e & -> & B). exact NY.
  - rewrite EX, EY. reflexivity.
  - rewrite EY, (add_posfin_zero X s' PX). exact NX.
  - apply (Rnd_nonneg (SF2R X + SF2R Y)); [| apply add_Rnd; assumption].
    pose proof (posfin_value_pos X PX). pose proof (posfin_value_pos Y PY). lra.
  - rewrite EY. destruct (posfin_inv _ PX) as (m & e & -> & B). reflexivity.
  - rewrite EX, EY. reflexivity.
  - rewrite EX. destruct (posfin_inv _ PY) as (m & e & -> & B). reflexivity.
  - rewrite EX, EY. reflexivity.
Qed.

Lemma add_finite_inv (X Y : spec_float) :
  nonneg X = true -> nonneg Y = true -> is_finite (add X Y) = true ->
  is_finite X = true /\ is_finite Y = true.
Proof.
  intros NX NY F.
  destruct (nonneg_cases _ NX) as [[s EX] | [PX | EX]];
    destruct (nonneg_cases _ NY) as [[s' EY] | [PY | EY]];
    try (destruct (posfin_inv _ PX) as (m & e & EX & B));
    try (destruct (posfin_inv _ PY) as (m' & e' & EY & B'));
    subst; try (split; reflexivity); discriminate F.
Qed.

Lemma add_zero_r_finite (X : spec_float) :
  nonneg X = true -> is_finite X = true ->
  is_finite (add X (of_Z 0)) = true /\ SFleb (add X (of_Z 0)) X = true.
Proof.
  intros N F. destruct (nonneg_cases _ N) as [[s E] | [P | E]].
  - rewrite E. destruct s; split; reflexivity.
  - change (of_Z 0) with (S754_zero false). rewrite (add_posfin_zero X false P).
    split; [exact F | apply SFleb_refl_nonneg; exact N].
  - rewrite E in F. discriminate F.
Qed.

Lemma total_of_fold (l : list areas) (t : areas) :
  totalPaintableArea (fold_left add_areas l t)
  = fold_left add (map totalPaintableArea l) (totalPaintableArea t).
Proof.
  revert t. induction l as [| a l IH]; intros t; [reflexivity |].
  cbn [fold_left map]. rewrite IH. reflexivity.
Qed.

(** Only the ceiling figure and the total depend on the ceiling switch. *)
Lemma room_total (r : room) (ic : bool) :
  totalPaintableArea (calculateRoomArea r ic)
  = add (add (netWallArea (calculateRoomArea r true))
             (if ic then ceilingArea (calculateRoomArea r true) else of_Z 0))
        (addArea (calculateRoomArea r true)).
Proof.
  unfold calculateRoomArea.
  destruct (fold_left opening_step (openings r) (of_Z 0, of_Z 0)) as [s a].
  destruct ic; reflexivity.
Qed.

Lemma room_total_ceiling (r : room) :
  areas_not_negative r ->
  is_finite (totalPaintableArea (calculateRoomArea r true)) = true ->
  let off := totalPaintableArea (calculateRoomArea r false) in
  let on := totalPaintableArea (calculateRoomArea r true) in
  nonneg off = true /\ is_finite off = true /\ nonneg on = true /\ SFleb off on = true.
Proof.
  intros (Nn & Nc & Na) F off on. unfold off, on. rewrite !room_total in *.
  set (n := netWallArea (calculateRoomArea r true)) in *.
  set (c := ceilingArea (calculateRoomArea r true)) in *.
  set (a := addArea (calculateRoomArea r true)) in *.
  pose proof (add_nonneg n c Nn Nc) as Nnc.
  destruct (add_finite_inv _ _ Nnc Na F) as [Fnc Fa].
  destruct (add_finite_inv _ _ Nn Nc Fnc) as [Fn Fc].
  destruct (add_zero_r_finite n Nn Fn) as [F0 L0].
  assert (N0 : nonneg (add n (of_Z 0)) = true) by (apply add_nonneg; [exact Nn | reflexivity]).
  assert (L : SFleb (add n (of_Z 0)) (add n c) = true).
  { apply add_mono; try assumption; try reflexivity.
    - apply SFleb_refl_nonneg. exact Nn.
    - apply zero_le_nonneg. exact Nc. }
  split; [apply add_nonneg; assumption |].
  split.
  - pose proof (add_Rnd0 _ _ N0 F0 Na Fa) as R0.
    pose proof (add_Rnd0 _ _ Nnc Fnc Na Fa) as R1.
    pose proof (add_mono _ _ _ _ N0 F0 Nnc Fnc Na Fa Na Fa L (SFleb_refl_nonneg a Na)) as LL.
    apply (nonneg_le_finite _ (add (add n c) a)); try assumption.
    + apply add_nonneg; assumption.
    + apply add_nonneg; assumption.
  - split; [apply add_nonneg; assumption |].
    apply add_mono; try assumption. apply SFleb_refl_nonneg. exact Na.
Qed.

Lemma fold_totals_ceiling (rs : list room) :
  Forall areas_not_negative rs ->
  let off := fold_left add (map (fun r => totalPaintableArea (calculateRoomArea r false)) rs)
                       (of_Z 0) in
  let on := fold_left add (map (fun r => totalPaintableArea (calculateRoomArea r true)) rs)
                      (of_Z 0) in
  is_finite on = true ->
  nonneg off = true /\ is_finite off = true /\ nonneg on = true /\ SFleb off on = true.
Proof.
  induction rs as [| r rs IH] using rev_ind; intros HF off on F.
  - repeat split.
  - unfold off, on in *. rewrite !map_app, !fold_left_app in *. cbn [map fold_left] in *.
    apply Forall_app in HF as [HF Hr]. inversion Hr as [| x l Hr' _]; subst.
    set (Son := fold_left add
                  (map (fun r0 => totalPaintableArea (calculateRoomArea r0 true)) rs)
                  (of_Z 0)) in *.
    set (Soff := fold_left add
                   (map (fun r0 => totalPaintableArea (calculateRoomArea r0 false)) rs)
                   (of_Z 0)) in *.
    assert (NSon : nonneg Son = true).
    { unfold Son. clear - HF.
      assert (G : forall acc, nonneg acc = true ->
                  nonneg (fold_left add
                            (map (fun r0 => totalPaintableArea (calculateRoomArea r0 true)) rs)
                            acc) = true).
      { induction rs as [| b rs IHrs]; intros acc Hacc; [exact Hacc |].
        cbn [map fold_left]. inversion HF as [| x l Hb HF']; subst.
        apply IHrs; [exact HF' |]. apply add_nonneg; [exact Hacc |].
        rewrite room_total. destruct Hb as (Nn & Nc & Na).
        repeat apply add_nonneg; assumption. }
      apply G. reflexivity. }
    assert (Nr : nonneg (totalPaintableArea (calculateRoomArea r true)) = true).
    { rewrite room_total. destruct Hr' as (Nn & Nc & Na). repeat apply add_nonneg; assumption. }
    destruct (add_finite_inv _ _ NSon Nr F) as [FSon Fr].
    destruct (IH HF FSon) as (NSoff & FSoff & _ & LS).
    destruct (room_total_ceiling r Hr' Fr) as (Noff & Foff & _ & Lr).
    split; [apply add_nonneg; assumption |].
    assert (LL : SFleb (add Soff (totalPaintableArea (calculateRoomArea r false)))
                       (add Son (totalPaintableArea (calculateRoomArea r true))) = true)
      by (apply add_mono; assumption).
    split; [| split; [apply add_nonneg; assumption | exact LL]].
    apply (nonneg_le_finite _ (add Son (totalPaintableArea (calculateRoomArea r true))));
      try assumption; apply add_nonneg; assumption.
Qed.

(** Every rate of the paint table is a positive Number. *)
Lemma coverage_positive (key unit : string) (pt : paint_type) :
  lookup PAINT_TYPES key = Some pt -> unit = "imperial" \/ unit = "metric" ->
  positive_number (ToNumber (lookup (coverage pt) unit)) = true.
Proof.
  intros Hp U. unfold PAINT_TYPES in Hp. cbn [lookup] in Hp.
  repeat match type of Hp with
         | (if String.eqb ?k key then _ else _) = _ =>
             destruct (String.eqb_spec k key) as [<- | _];
             [injection Hp as <-; destruct U as [-> | ->]; vm_compute; reflexivity |]
         end.
  discriminate Hp.
Qed.

(** X18. Leaving the ceiling out never raises the estimate.  In the
    imperial or the metric system, for a number of coats that is a
    positive finite Number and a wastage percentage that is a finite
    Number not below zero, for rooms whose net wall, ceiling and add areas
    are Numbers not below zero, and a finite total with the ceilings: the
    total paintable area and the recommended purchase that calculateAll
    returns without the ceilings are at most those with them. *)
Theorem ceiling_never_lowers_purchase
    (rs : list room) (st : settings) (unit : string) (off on : CalculationResult) :
  calculateAll rs (with_includeCeiling st false) unit = Returns off ->
  calculateAll rs (with_includeCeiling st true) unit = Returns on ->
  Forall areas_not_negative rs ->
  is_finite (totalPaintableArea (totals on)) = true ->
  unit = "imperial" \/ unit = "metric" ->
  positive_number (coats st) = true ->
  non_negative_number (wastagePercent st) = true ->
  leb (totalPaintableArea (totals off)) (totalPaintableArea (totals on)) = true /\
  leb (rounded (result_paint off)) (rounded (result_paint on)) = true.
Proof.
  intros E E' HF F U Hk Hw.
  destruct (calculateAll_returns _ _ _ _ E) as (T & P & pt & Hp & C).
  destruct (calculateAll_returns _ _ _ _ E') as (T' & P' & pt' & Hp' & C').
  cbn [with_includeCeiling paintType coats wastagePercent] in *.
  assert (Ec : result_coverage off = result_coverage on).
  { rewrite Hp in Hp'. injection Hp' as <-. rewrite C, C'. reflexivity. }
  assert (Hc : positive_number (ToNumber (result_coverage on)) = true).
  { rewrite C'. exact (coverage_positive _ unit pt' Hp' U). }
  assert (S : totalPaintableArea (totals off) =
              fold_left add (map (fun r => totalPaintableArea (calculateRoomArea r false)) rs)
                        (of_Z 0)).
  { rewrite T, total_of_fold, map_map. reflexivity. }
  assert (S' : totalPaintableArea (totals on) =
               fold_left add (map (fun r => totalPaintableArea (calculateRoomArea r true)) rs)
                         (of_Z 0)).
  { rewrite T', total_of_fold, map_map. reflexivity. }
  rewrite S' in F. destruct (fold_totals_ceiling rs HF F) as (N0 & F0 & N1 & L).
  rewrite <- S in N0, F0, L. rewrite <- S' in N1, L, F.
  split; [exact L |].
  rewrite P, P', Ec. apply rounded_mono_area; assumption.
Qed.

Lemma ceiling_never_lowers_purchase_witness :
  exists off on,
    calculateAll exampleData_rooms (with_includeCeiling exampleData_settings false)
      "imperial" = Returns off /\
    calculateAll exampleData_rooms (with_includeCeiling exampleData_settings true)
      "imperial" = Returns on /\
    leb (rounded (result_paint off)) (rounded (result_paint on)) = true.
Proof.
  eexists. eexists. split; [reflexivity |]. split; [reflexivity |].
  refine (proj2 (ceiling_never_lowers_purchase exampleData_rooms exampleData_settings
                   "imperial" _ _ eq_refl eq_refl _ eq_refl (or_introl eq_refl)
                   eq_refl eq_refl)).
  repeat constructor.
Defined.

(** ** Openings larger than the walls *)

Section Differences.

Local Open Scope R_scope.

(** Rounding does not look at the sign. *)
Lemma binary_round_aux_sign (m e : Z) (l : location) :
  binary_round_aux prec emax true m e l = SFopp (binary_round_aux prec emax false m e l).
Proof.
  unfold binary_round_aux.
  destruct (shr_fexp prec emax m e l) as [r1 e1].
  destruct (shr_fexp prec emax _ e1 loc_Exact) as [r2 e2].
  destruct (shr_m r2); try reflexivity.
  destruct (e2 <=? emax - prec)%Z; reflexivity.
Qed.

Lemma binary_round_sign (m : positive) (e : Z) :
  binary_round prec emax true m e = SFopp (binary_round prec emax false m e).
Proof.
  unfold binary_round.
  destruct (shl_align m e (fexp prec emax (Z.pos (digits2_pos m) + e))) as [mz ez].
  apply binary_round_aux_sign.
Qed.

(** The maximum of 0 and the opposite of a Number that is not below zero
    is +0. *)
Lemma Math_max_zero_opp (g : spec_float) :
  nonneg g = true -> Math_max (of_Z 0) (SFopp g) = zero.
Proof.
  intros N. destruct (nonneg_cases _ N) as [[s ->] | [P | ->]].
  - destruct s; reflexivity.
  - destruct (posfin_inv _ P) as (m & e & -> & _). reflexivity.
  - reflexivity.
Qed.

(** The difference of two finite Numbers not below zero, the first at most
    the second, has no positive part. *)
Lemma Math_max_zero_sub (X Y : spec_float) :
  nonneg X = true -> is_finite X = true -> nonneg Y = true -> is_finite Y = true ->
  SFleb X Y = true -> Math_max (of_Z 0) (sub X Y) = zero.
Proof.
  intros NX FX NY FY L.
  destruct (nonneg_cases _ NX) as [[s EX] | [PX | EX]];
    [| | rewrite EX in FX; discriminate FX];
    (destruct (nonneg_cases _ NY) as [[s' EY] | [PY | EY]];
     [| | rewrite EY in FY; discriminate FY]).
  - rewrite EX, EY. destruct s, s'; reflexivity.
  - rewrite EX. destruct (posfin_inv _ PY) as (m & e & -> & _). reflexivity.
  - rewrite EY in L. rewrite (posfin_not_le_zero X s' PX) in L. discriminate L.
  - pose proof (posfin_le_value X Y PX PY L) as V.
    destruct (posfin_inv _ PX) as (mx & ex & -> & BX).
    destruct (posfin_inv _ PY) as (my & ey & -> & BY).
    unfold sub, SFsub. cbn [cond_Zopp].
    set (ez := Z.min ex ey).
    pose proof (shl_align_value mx ex ez ltac:(unfold ez; lia)) as VX.
    pose proof (shl_align_value my ey ez ltac:(unfold ez; lia)) as VY.
    set (a := fst (shl_align mx ex ez)) in *.
    set (b := fst (shl_align my ey ez)) in *.
    assert (Hab : (Z.pos a <= Z.pos b)%Z).
    { apply le_IZR. pose proof (bpow_gt_0 ez) as G.
      apply (Rmult_le_reg_r (bpow ez)); [exact G |].
      rewrite VX, VY. exact V. }
    destruct (Z.pos a - Z.pos b)%Z as [| p | p] eqn:D; [reflexivity | lia |].
    cbn [binary_normalize]. rewrite binary_round_sign.
    apply Math_max_zero_opp.
    apply (Rnd_nonneg (IZR (Z.pos p) * bpow ez)); [| apply binary_round_Rnd].
    apply Rmult_lt_0_compat; [apply IZR_lt; lia | apply bpow_gt_0].
Qed.

End Differences.

(** X19. When the openings to subtract are at least as large as the walls
    (both areas finite Numbers not below zero), the net wall area of the
    room is exactly 0 and the total paintable area is what the ceiling and
    the openings to add make up. *)
Theorem netWallArea_floor (r : room) (ic : bool) :
  let a := calculateRoomArea r ic in
  non_negative_number (wallArea a) = true ->
  non_negative_number (subtractArea a) = true ->
  leb (wallArea a) (subtractArea a) = true ->
  netWallArea a = zero /\
  totalPaintableArea a = add (add zero (ceilingArea a)) (addArea a).
Proof.
  unfold calculateRoomArea.
  destruct (fold_left opening_step (openings r) (of_Z 0, of_Z 0)) as [s a].
  cbn [wallArea subtractArea netWallArea totalPaintableArea ceilingArea addArea].
  intros HW HS L.
  apply non_negative_inv in HW as [NW FW]. apply non_negative_inv in HS as [NS FS].
  rewrite (Math_max_zero_sub _ _ NW FW NS FS L). split; reflexivity.
Qed.

Lemma netWallArea_floor_witness :
  netWallArea
    (calculateRoomArea
       {| room_id := "1"; room_name := "Shed"; room_length := Num (of_Z 2);
          room_width := Num (of_Z 2); room_height := Num (of_Z 2);
          openings :=
            [ {| opening_type_tag := "slidingDoor"; opening_width := Num (of_Z 6);
                 opening_height := Num (of_Z 7); quantity := Num (of_Z 1);
                 action := "subtract"; customFaces := None |} ] |} true) = zero.
Proof.
  exact (proj1 (netWallArea_floor
                  {| room_id := "1"; room_name := "Shed"; room_length := Num (of_Z 2);
                     room_width := Num (of_Z 2); room_height := Num (of_Z 2);
                     openings :=
                       [ {| opening_type_tag := "slidingDoor";
                            opening_width := Num (of_Z 6);
                            opening_height := Num (of_Z 7); quantity := Num (of_Z 1);
                            action := "subtract"; customFaces := None |} ] |} true
                  eq_refl eq_refl eq_refl)).
Defined.

(** ** Nothing to paint, nothing to cover *)

Lemma mul_zero_posfin (s : bool) (Y : spec_float) :
  posfin Y = true -> mul (S754_zero s) Y = S754_zero s.
Proof.
  intros P. destruct (posfin_inv _ P) as (m & e & -> & _). destruct s; reflexivity.
Qed.

Lemma mul_inf_posfin (Y : spec_float) :
  posfin Y = true -> mul Infinity Y = Infinity.
Proof. intros P. destruct (posfin_inv _ P) as (m & e & -> & _). reflexivity. Qed.

(** X20. calculatePaintRequired never throws on a zero.  With positive
    coats and a wastage percent not below zero: an area of 0 gives 0 for
    every figure, the recommended purchase included, whatever the positive
    coverage; and a coverage of 0 gives Infinity for every figure when
    the area is positive, and NaN when the area is 0 too. *)
Theorem calculatePaintRequired_zeros (a c k w : number) :
  positive_number a = true -> positive_number c = true ->
  positive_number k = true -> non_negative_number w = true ->
  calculatePaintRequired (of_Z 0) c k w =
    {| base := zero; withCoats := zero; withWastage := zero; rounded := zero |} /\
  calculatePaintRequired a (of_Z 0) k w =
    {| base := Infinity; withCoats := Infinity; withWastage := Infinity;
       rounded := Infinity |} /\
  calculatePaintRequired (of_Z 0) (of_Z 0) k w =
    {| base := NaN; withCoats := NaN; withWastage := NaN; rounded := NaN |}.
Proof.
  intros Ha Hc Hk Hw.
  apply positive_inv in Ha. apply positive_inv in Hc. apply positive_inv in Hk.
  apply non_negative_inv in Hw as [Nw Fw].
  pose proof (wastage_factor_posfin w Nw Fw) as Pf.
  unfold calculatePaintRequired. fold (wastage_factor w).
  assert (D0 : div (of_Z 0) c = zero).
  { destruct (posfin_inv _ Hc) as (m & e & -> & _). reflexivity. }
  assert (Di : div a (of_Z 0) = Infinity).
  { destruct (posfin_inv _ Ha) as (m & e & -> & _). reflexivity. }
  assert (Dn : div (of_Z 0) (of_Z 0) = NaN) by reflexivity.
  rewrite D0, Di, Dn. unfold zero.
  rewrite !(mul_zero_posfin false k Hk), !(mul_zero_posfin false _ Pf).
  rewrite !(mul_inf_posfin k Hk), !(mul_inf_posfin _ Pf), !mul_NaN_l.
  repeat split.
Qed.

Lemma calculatePaintRequired_zeros_witness :
  rounded (calculatePaintRequired (of_Z 0) (of_Z 350) (of_Z 2) (of_Z 10)) = zero /\
  rounded (calculatePaintRequired (of_Z 1591) (of_Z 0) (of_Z 2) (of_Z 10)) = Infinity.
Proof.
  destruct (calculatePaintRequired_zeros (of_Z 1591) (of_Z 350) (of_Z 2) (of_Z 10)
              eq_refl eq_refl eq_refl eq_refl) as (Z0 & I & _).
  split; [exact (f_equal rounded Z0) | exact (f_equal rounded I)].
Defined.

(** ** Two conversions to feet *)

Section Conversions.

Local Open Scope R_scope.

(** A finite Number nearest to [x] is within half a unit of its last
    place. *)
Lemma Rnd_finite_error x f :
  0 < x -> Rnd x f -> is_finite f = true ->
  exists t : Z,
    (-1074 <= t)%Z /\ ((-1074 < t)%Z -> bpow (t + 52) <= x) /\
    SF2R f - bpow t / 2 <= x <= SF2R f + bpow t / 2.
Proof.
  intros Px (n & t & Ht & Hu & Hl & [Hr _] & ->) F.
  exists t. split; [exact Ht |]. split; [exact Hl |].
  pose proof (bpow_gt_0 t) as G.
  assert (V : SF2R (encode n t) = IZR n * bpow t).
  { unfold encode in *. destruct n as [| p | p].
    - cbn [SF2R]. lra.
    - destruct (Z.eqb_spec (Z.pos p) (2 ^ 53)) as [E | _].
      + unfold build in *. destruct (t + 1 <=? 971)%Z; [| discriminate F].
        cbn [SF2R cond_Zopp]. rewrite E, bpow_succ.
        change (2 ^ 53)%Z with (2 * 2 ^ 52)%Z. rewrite mult_IZR.
        change (Z.pos (2 ^ 52)) with (2 ^ 52)%Z. lra.
      + unfold build in *. destruct (t <=? 971)%Z; [| discriminate F]. reflexivity.
    - discriminate F. }
  rewrite V.
  assert (E : x = x / bpow t * bpow t) by (field; lra).
  split.
  - rewrite E at 1. nra.
  - rewrite E at 1. nra.
Qed.

Lemma SF2R_feet : SF2R (of_decimal 3048 (-4)) * 18014398509481984 = 5490788665690109.
Proof.
  change (of_decimal 3048 (-4)) with (S754_finite false 5490788665690109 (-54)).
  cbn [SF2R cond_Zopp].
  assert (B : bpow (-54) * bpow 54 = 1).
  { rewrite <- bpow_plus. apply bpow_0. }
  rewrite (bpow_IZR 54) in B by lia. change (2 ^ 54)%Z with 18014398509481984%Z in B.
  rewrite Rmult_assoc, B. lra.
Qed.

Lemma SF2R_per_metre : SF2R (of_decimal 328084 (-5)) * 2251799813685248 = 7387794900731109.
Proof.
  change (of_decimal 328084 (-5)) with (S754_finite false 7387794900731109 (-51)).
  cbn [SF2R cond_Zopp].
  assert (B : bpow (-51) * bpow 51 = 1).
  { rewrite <- bpow_plus. apply bpow_0. }
  rewrite (bpow_IZR 51) in B by lia. change (2 ^ 51)%Z with 2251799813685248%Z in B.
  rewrite Rmult_assoc, B. lra.
Qed.

Lemma SF2R_min_normal : SF2R min_normal = bpow (-1022).
Proof.
  unfold min_normal. cbn [SF2R cond_Zopp].
  change (Z.pos (2 ^ 52)) with (2 ^ 52)%Z. rewrite <- bpow_IZR by lia.
  rewrite <- bpow_plus. reflexivity.
Qed.

(** Half a unit of the last place of a value that is at least 2^-1022 is
    at most that value over 2^53. *)
Lemma ulp_bound (x : R) (t : Z) :
  bpow (-1022) <= x -> (-1074 <= t)%Z ->
  ((-1074 < t)%Z -> bpow (t + 52) <= x) ->
  bpow t * 4503599627370496 <= x.
Proof.
  intros Hx Ht Hl.
  change 4503599627370496 with (IZR (2 ^ 52)). rewrite <- bpow_IZR, <- bpow_plus by lia.
  destruct (Z.eq_dec t (-1074)) as [-> | N]; [exact Hx | apply Hl; lia].
Qed.

Lemma feet_differ (x : number) :
  posfin x = true -> SFleb min_normal x = true ->
  is_finite (mul x (of_decimal 328084 (-5))) = true ->
  div x (of_decimal 3048 (-4)) <> mul x (of_decimal 328084 (-5)).
Proof.
  intros P Hn F E.
  pose proof (div_Rnd x (of_decimal 3048 (-4)) P eq_refl) as RA.
  pose proof (mul_Rnd x (of_decimal 328084 (-5)) P eq_refl) as RB.
  rewrite E in RA.
  pose proof SF2R_feet as C1. pose proof SF2R_per_metre as C2.
  set (c1 := SF2R (of_decimal 3048 (-4))) in *.
  set (c2 := SF2R (of_decimal 328084 (-5))) in *.
  assert (E1 : c1 = 5490788665690109 / 18014398509481984) by lra.
  assert (E2 : c2 = 7387794900731109 / 2251799813685248) by lra.
  assert (HX : bpow (-1022) <= SF2R x).
  { rewrite <- SF2R_min_normal. apply posfin_le_value; [reflexivity | exact P | exact Hn]. }
  pose proof (bpow_gt_0 (-1022)) as G.
  set (X := SF2R x) in *.
  assert (Ea : X / c1 = X * (18014398509481984 / 5490788665690109)).
  { rewrite E1. field. }
  rewrite Ea in RA. rewrite E2 in RB.
  set (f := mul x (of_decimal 328084 (-5))) in *.
  assert (Pa : 0 < X * (18014398509481984 / 5490788665690109)) by nra.
  assert (Pb : 0 < X * (7387794900731109 / 2251799813685248)) by nra.
  destruct (Rnd_finite_error _ f Pa RA F) as (ta & Hta & Hla & Ha).
  destruct (Rnd_finite_error _ f Pb RB F) as (tb & Htb & Hlb & Hb).
  assert (Na : bpow (-1022) <= X * (18014398509481984 / 5490788665690109)) by nra.
  assert (Nb : bpow (-1022) <= X * (7387794900731109 / 2251799813685248)) by nra.
  pose proof (ulp_bound _ ta Na Hta Hla) as Ua.
  pose proof (ulp_bound _ tb Nb Htb Hlb) as Ub.
  pose proof (bpow_gt_0 ta). pose proof (bpow_gt_0 tb).
  nra.
Qed.

Lemma feet_le (x : number) :
  posfin x = true ->
  SFleb (div x (of_decimal 3048 (-4))) (mul x (of_decimal 328084 (-5))) = true.
Proof.
  intros Hx.
  pose proof (posfin_value_pos x Hx) as P.
  pose proof SF2R_feet as C1. pose proof SF2R_per_metre as C2.
  apply (Rnd_mono (SF2R x / SF2R (of_decimal 3048 (-4)))
                  (SF2R x * SF2R (of_decimal 328084 (-5)))).
  - apply div_Rnd; [exact Hx | reflexivity].
  - apply mul_Rnd; [exact Hx | reflexivity].
  - apply Rdiv_lt_0_compat; [exact P | lra].
  - set (c1 := SF2R (of_decimal 3048 (-4))) in *.
    set (c2 := SF2R (of_decimal 328084 (-5))) in *.
    assert (E1 : c1 = 5490788665690109 / 18014398509481984) by lra.
    assert (E2 : c2 = 7387794900731109 / 2251799813685248) by lra.
    rewrite E1, E2.
    replace (SF2R x / (5490788665690109 / 18014398509481984))
      with (SF2R x * (18014398509481984 / 5490788665690109)) by (field; lra).
    nra.
Qed.

End Conversions.

(** X21. The engine and the unit toggle do not convert metres to feet
    alike: convertLength divides by 0.3048, the toggle multiplies by
    3.28084, and for every length from 2^-1022 on whose product is finite
    the two results are different Numbers, the engine's being the
    smaller. *)
Theorem convertLength_differs_from_toggle (x : number) :
  positive_number x = true -> leb min_normal x = true ->
  is_finite (mul x (conversion_factor "imperial")) = true ->
  convertLength x "metric" "imperial" <> mul x (conversion_factor "imperial") /\
  leb (convertLength x "metric" "imperial")
      (mul x (conversion_factor "imperial")) = true.
Proof.
  intros Hx Hn F. apply positive_inv in Hx.
  change (conversion_factor "imperial") with (of_decimal 328084 (-5)) in *.
  change (convertLength x "metric" "imperial") with (div x (of_decimal 3048 (-4))).
  split; [apply feet_differ; assumption | apply feet_le; exact Hx].
Qed.

Lemma convertLength_differs_from_toggle_witness :
  convertLength (of_Z 1) "metric" "imperial" <> mul (of_Z 1) (conversion_factor "imperial").
Proof.
  exact (proj1 (convertLength_differs_from_toggle (of_Z 1) eq_refl eq_refl eq_refl)).
Defined.

(** ** Conversions keep the order *)

(** X22. convertLength and convertArea keep the order of lengths and
    areas: of two finite Numbers not below zero, the one that is at most
    the other converts to a Number that is at most the other's, whatever
    the two units. *)
Theorem conversions_keep_order (x x' : number) (fromUnit toUnit : string) :
  non_negative_number x = true -> non_negative_number x' = true ->
  leb x x' = true ->
  leb (convertLength x fromUnit toUnit) (convertLength x' fromUnit toUnit) = true /\
  leb (convertArea x fromUnit toUnit) (convertArea x' fromUnit toUnit) = true.
Proof.
  intros Hx Hx' L.
  apply non_negative_inv in Hx as [N F]. apply non_negative_inv in Hx' as [N' F'].
  unfold convertLength, convertArea, leb in *.
  destruct (String.eqb_spec fromUnit toUnit) as [_ | Ne]; [split; exact L |].
  destruct (String.eqb_spec fromUnit "imperial") as [Ef | _];
    destruct (String.eqb_spec toUnit "imperial") as [Et | _].
  - congruence.
  - split; apply mul_mono_l; try assumption; reflexivity.
  - split; apply div_mono_l; try assumption; reflexivity.
  - split; exact L.
Qed.

Lemma conversions_keep_order_witness :
  leb (convertLength (of_Z 3) "metric" "imperial")
      (convertLength (of_Z 4) "metric" "imperial") = true.
Proof.
  exact (proj1 (conversions_keep_order (of_Z 3) (of_Z 4) "metric" "imperial"
                  eq_refl eq_refl eq_refl)).
Defined.

(** ** What the unit toggle keeps *)

(** X23. The unit toggle touches nothing but the unit system and the
    dimensions: the settings, the names and identifiers of the rooms, and
    the type, quantity, action and face count of every opening stay as
    they are; and pressing the button of the unit system that is in force
    changes nothing, so that toggling twice to the same unit system is
    toggling once. *)
Theorem handleUnitChange_keeps_the_rest (newUnit : string) (st : state) :
  current_settings (handleUnitChange newUnit st) = current_settings st /\
  Forall2
    (fun r r' =>
       room_id r' = room_id r /\ room_name r' = room_name r /\
       Forall2
         (fun o o' =>
            opening_type_tag o' = opening_type_tag o /\ quantity o' = quantity o /\
            action o' = action o /\ customFaces o' = customFaces o)
         (openings r) (openings r'))
    (rooms st) (rooms (handleUnitChange newUnit st)) /\
  handleUnitChange (unitSystem st) st = st /\
  handleUnitChange newUnit (handleUnitChange newUnit st) = handleUnitChange newUnit st.
Proof.
  assert (Same : forall s, handleUnitChange (unitSystem s) s = s).
  { intros s. unfold handleUnitChange. rewrite String.eqb_refl. reflexivity. }
  assert (R : forall r : room,
            Forall2
              (fun o o' =>
                 opening_type_tag o' = opening_type_tag o /\ quantity o' = quantity o /\
                 action o' = action o /\ customFaces o' = customFaces o)
              (openings r) (openings r)).
  { intros r. rewrite <- (map_id (openings r)) at 2. apply Forall2_map.
    intros o. repeat split. }
  split; [| split; [| split]].
  - unfold handleUnitChange. destruct (String.eqb newUnit (unitSystem st)); reflexivity.
  - unfold handleUnitChange. destruct (String.eqb newUnit (unitSystem st)).
    + rewrite <- (map_id (rooms st)) at 2. apply Forall2_map. intros r.
      split; [reflexivity |]. split; [reflexivity |]. apply R.
    + cbn [rooms]. apply Forall2_map. intros r.
      cbn [convert_room room_id room_name openings].
      split; [reflexivity |]. split; [reflexivity |].
      apply Forall2_map. intros o. repeat split.
  - apply Same.
  - destruct (String.eqb newUnit (unitSystem st)) eqn:E.
    + assert (H1 : handleUnitChange newUnit st = st)
        by (unfold handleUnitChange; rewrite E; reflexivity).
      rewrite !H1. reflexivity.
    + assert (H1 : handleUnitChange newUnit st =
                   {| unitSystem := newUnit;
                      rooms := map (convert_room newUnit) (rooms st);
                      current_settings := current_settings st |})
        by (unfold handleUnitChange; rewrite E; reflexivity).
      rewrite H1.
      apply (Same {| unitSystem := newUnit;
                     rooms := map (convert_room newUnit) (rooms st);
                     current_settings := current_settings st |}).
Qed.

(** ** The unit toggle keeps the order of dimensions *)

Section ToggleOrder.

Local Open Scope R_scope.

Lemma cents_spec (m : positive) (e : Z) :
  IZR (cents m e) <= 100 * SF2R (S754_finite false m e) + / 2 < IZR (cents m e) + 1.
Proof.
  rewrite SF2R_fraction. unfold cents.
  pose proof (numer_pos m e) as Pn. pose proof (denom_pos e) as Pd.
  set (n := numer m e) in *. set (d := denom e) in *.
  change (10 ^ Z.of_nat 2)%Z with 100%Z.
  set (q := ((2 * n * 100 + d) / (2 * d))%Z).
  pose proof (Z.div_mod (2 * n * 100 + d) (2 * d) ltac:(lia)) as DM.
  pose proof (Z.mod_pos_bound (2 * n * 100 + d) (2 * d) ltac:(lia)) as MB.
  fold q in DM.
  assert (L : (2 * d * q <= 2 * n * 100 + d < 2 * d * (q + 1))%Z) by lia.
  destruct L as [L1 L2]. apply IZR_le in L1. apply IZR_lt in L2.
  rewrite !plus_IZR, !mult_IZR in L1, L2. rewrite plus_IZR in L2.
  apply IZR_lt in Pd.
  assert (E : 100 * (IZR n / IZR d) + / 2 = (2 * IZR n * 100 + IZR d) / (2 * IZR d))
    by (field; lra).
  rewrite E. split.
  - apply (Rmult_le_reg_r (2 * IZR d)); [lra |].
    unfold Rdiv. rewrite Rmult_assoc, Rinv_l by lra. lra.
  - apply (Rmult_lt_reg_r (2 * IZR d)); [lra |].
    unfold Rdiv. rewrite Rmult_assoc, Rinv_l by lra. lra.
Qed.

Lemma cents_mono (m : positive) (e : Z) (m' : positive) (e' : Z) :
  SF2R (S754_finite false m e) <= SF2R (S754_finite false m' e') ->
  (cents m e <= cents m' e')%Z.
Proof.
  intros L. pose proof (cents_spec m e) as [A _]. pose proof (cents_spec m' e') as [_ B].
  assert (H : IZR (cents m e) < IZR (cents m' e') + 1) by lra.
  rewrite <- plus_IZR in H. apply lt_IZR in H. lia.
Qed.

Lemma cents_nonneg (m : positive) (e : Z) : (0 <= cents m e)%Z.
Proof.
  unfold cents. pose proof (numer_pos m e). pose proof (denom_pos e).
  apply Z.div_pos; [| lia]. change (10 ^ Z.of_nat 2)%Z with 100%Z. lia.
Qed.

(** Two-decimal Numbers are in the order of their numerators. *)
Lemma of_decimal_cents_mono (n n' : Z) :
  (0 <= n <= n')%Z -> SFleb (of_decimal n (-2)) (of_decimal n' (-2)) = true.
Proof.
  intros [H0 H].
  destruct (Z.eq_dec n' 0) as [-> | N'].
  - replace n with 0%Z by lia. reflexivity.
  - pose proof (of_decimal_Rnd n' (-2) ltac:(lia)) as R'. cbn in R'.
    assert (P' : 0 < IZR n' / 100).
    { apply Rdiv_lt_0_compat; [apply IZR_lt; lia | lra]. }
    destruct (Z.eq_dec n 0) as [-> | N].
    + apply zero_le_nonneg. apply (Rnd_nonneg _ _ P' R').
    + pose proof (of_decimal_Rnd n (-2) ltac:(lia)) as R. cbn in R.
      apply (Rnd_mono _ _ _ _ R R').
      * apply Rdiv_lt_0_compat; [apply IZR_lt; lia | lra].
      * apply IZR_le in H. unfold Rdiv. nra.
Qed.

(** What a stored dimension reads back as. *)
Lemma toFixed_2_value (y : spec_float) :
  nonneg y = true -> fixed_range y = true ->
  parseFloat_str (toFixed 2 y) =
  match y with
  | S754_finite _ m e => of_decimal (cents m e) (-2)
  | _ => zero
  end.
Proof.
  intros N R. destruct (nonneg_cases _ N) as [[s ->] | [P | ->]].
  - reflexivity.
  - destruct (posfin_inv _ P) as (m & e & -> & _).
    cbn [toFixed]. cbn [fixed_range] in R. rewrite R.
    apply (parseFloat_str_fixed_digits (cents m e) false). apply cents_nonneg.
  - discriminate R.
Qed.

Lemma fixed_range_below (y y' : spec_float) :
  nonneg y = true -> nonneg y' = true -> SFleb y y' = true ->
  fixed_range y' = true -> fixed_range y = true.
Proof.
  intros N N' L R.
  destruct (nonneg_cases _ N) as [[s ->] | [P | ->]]; [reflexivity | |].
  - destruct (nonneg_cases _ N') as [[s' E'] | [P' | E']].
    + rewrite E' in L. rewrite (posfin_not_le_zero y s' P) in L. discriminate L.
    + pose proof (posfin_le_value y y' P P' L) as V.
      destruct (posfin_inv _ P) as (m & e & -> & _).
      destruct (posfin_inv _ P') as (m' & e' & -> & _).
      cbn [fixed_range] in *. unfold below_pow10 in *.
      apply Z.ltb_lt in R. apply Z.ltb_lt.
      cbn [Z.max Z.opp Z.compare] in *. rewrite Z.pow_0_r, Z.mul_1_r in *.
      rewrite !SF2R_fraction in V.
      pose proof (denom_pos e) as D. pose proof (denom_pos e') as D'.
      apply IZR_lt in D, D', R. rewrite mult_IZR in R.
      apply lt_IZR. rewrite mult_IZR.
      set (t := IZR (10 ^ 21)) in *.
      assert (V1 : IZR (numer m e) / IZR (denom e) < t).
      { apply Rle_lt_trans with (1 := V).
        apply (Rmult_lt_reg_r (IZR (denom e'))); [exact D' |].
        unfold Rdiv. rewrite Rmult_assoc, Rinv_l by lra. lra. }
      apply (Rmult_lt_compat_r (IZR (denom e))) in V1; [| exact D].
      unfold Rdiv in V1. rewrite Rmult_assoc, Rinv_l in V1 by lra. lra.
    + rewrite E' in R. discriminate R.
  - apply inf_le_inv in L. rewrite L in R. discriminate R.
Qed.

Lemma stored_dimension_mono (y y' : spec_float) :
  nonneg y = true -> nonneg y' = true -> SFleb y y' = true -> fixed_range y' = true ->
  SFleb (parseFloat_str (toFixed 2 y)) (parseFloat_str (toFixed 2 y')) = true.
Proof.
  intros N N' L R'.
  pose proof (fixed_range_below y y' N N' L R') as R.
  rewrite (toFixed_2_value y N R), (toFixed_2_value y' N' R').
  destruct (nonneg_cases _ N) as [[s ->] | [P | ->]]; [| | discriminate R].
  - destruct y' as [s' | s' | | s' m' e']; try reflexivity.
    apply (of_decimal_cents_mono 0). split; [lia | apply cents_nonneg].
  - destruct (nonneg_cases _ N') as [[s' E'] | [P' | E']].
    + rewrite E' in L. rewrite (posfin_not_le_zero y s' P) in L. discriminate L.
    + pose proof (posfin_le_value y y' P P' L) as V.
      destruct (posfin_inv _ P) as (m & e & -> & _).
      destruct (posfin_inv _ P') as (m' & e' & -> & _).
      apply of_decimal_cents_mono. split; [apply cents_nonneg | apply cents_mono; exact V].
    + rewrite E' in R'. discriminate R'.
Qed.

End ToggleOrder.

(** X24. The unit toggle keeps the order of dimensions.  Of two
    dimensions that read as finite Numbers not below zero, the one that is
    at most the other is stored, after the toggle, as a text that reads as
    at most the other's, as long as the larger product is below 10^21. *)
Theorem toggle_keeps_order (newUnit : string) (v v' : value) :
  let f := conversion_factor newUnit in
  non_negative_number (parseFloat v) = true ->
  non_negative_number (parseFloat v') = true ->
  leb (parseFloat v) (parseFloat v') = true ->
  fixed_range (mul (parseFloat v') f) = true ->
  leb (parseFloat (convert_dimension f v)) (parseFloat (convert_dimension f v')) = true.
Proof.
  intros f Hv Hv' L R.
  apply non_negative_inv in Hv as [N F]. apply non_negative_inv in Hv' as [N' F'].
  assert (Pf : posfin f = true).
  { unfold f, conversion_factor. destruct (String.eqb newUnit "metric"); reflexivity. }
  unfold convert_dimension. cbn [parseFloat].
  apply stored_dimension_mono; try exact R; try (apply mul_nonneg; assumption).
  apply mul_mono_l; assumption.
Qed.

Lemma toggle_keeps_order_witness :
  leb (parseFloat (convert_dimension (conversion_factor "metric") (Str "9.99")))
      (parseFloat (convert_dimension (conversion_factor "metric") (Num (of_Z 10)))) = true.
Proof.
  exact (toggle_keeps_order "metric" (Str "9.99") (Num (of_Z 10))
           eq_refl eq_refl eq_refl eq_refl).
Defined.

(** ** A negative dimension *)

Section Negatives.

Local Open Scope R_scope.

Lemma mul_posfin_nonneg (X Y : spec_float) :
  posfin X = true -> posfin Y = true -> nonneg (mul X Y) = true.
Proof.
  intros PX PY. apply (Rnd_nonneg (SF2R X * SF2R Y)); [| apply mul_Rnd; assumption].
  pose proof (posfin_value_pos X PX). pose proof (posfin_value_pos Y PY). nra.
Qed.

(** The product with the opposite is the opposite of the product. *)
Lemma mul_opp_r (Y g : spec_float) :
  posfin Y = true -> nonneg g = true ->
  exists g', nonneg g' = true /\ mul Y (SFopp g) = SFopp g'.
Proof.
  intros PY N. destruct (posfin_inv _ PY) as (my & ey & EY & BY).
  destruct (nonneg_cases _ N) as [[s ->] | [P | ->]].
  - exists (S754_zero s). split; [reflexivity |]. rewrite EY. reflexivity.
  - exists (mul Y g). split; [apply mul_posfin_nonneg; assumption |].
    destruct (posfin_inv _ P) as (m & e & -> & _). rewrite EY.
    unfold mul, SFmul. cbn [SFopp negb xorb]. apply binary_round_aux_sign.
  - exists (S754_infinity false). split; [reflexivity |]. rewrite EY. reflexivity.
Qed.

Lemma mul_opp_l (g Y : spec_float) :
  posfin Y = true -> nonneg g = true ->
  exists g', nonneg g' = true /\ mul (SFopp g) Y = SFopp g'.
Proof.
  intros PY N. destruct (posfin_inv _ PY) as (my & ey & EY & BY).
  destruct (nonneg_cases _ N) as [[s ->] | [P | ->]].
  - exists (S754_zero s). split; [reflexivity |]. rewrite EY.
    destruct s; reflexivity.
  - exists (mul g Y). split; [apply mul_posfin_nonneg; assumption |].
    destruct (posfin_inv _ P) as (m & e & -> & _). rewrite EY.
    unfold mul, SFmul. cbn [SFopp negb xorb]. apply binary_round_aux_sign.
  - exists (S754_infinity false). split; [reflexivity |]. rewrite EY. reflexivity.
Qed.

Lemma mul_opp_posfin (X Y : spec_float) :
  posfin X = true -> posfin Y = true -> mul (SFopp X) Y = SFopp (mul X Y).
Proof.
  intros PX PY.
  destruct (posfin_inv _ PX) as (m & e & -> & _).
  destruct (posfin_inv _ PY) as (m' & e' & -> & _).
  unfold mul, SFmul. cbn [SFopp negb xorb]. apply binary_round_aux_sign.
Qed.

(** The sum of the opposite of a length and a width that is not larger is
    not above zero. *)
Lemma add_opp_le (l w : spec_float) :
  posfin l = true -> posfin w = true -> SFleb w l = true ->
  exists g, nonneg g = true /\ add (SFopp l) w = SFopp g.
Proof.
  intros Pl Pw L.
  pose proof (posfin_le_value w l Pw Pl L) as V.
  destruct (posfin_inv _ Pl) as (ml & el & -> & Bl).
  destruct (posfin_inv _ Pw) as (mw & ew & -> & Bw).
  unfold add, SFadd. cbn [SFopp negb cond_Zopp].
  set (ez := Z.min el ew).
  pose proof (shl_align_value ml el ez ltac:(unfold ez; lia)) as Vl.
  pose proof (shl_align_value mw ew ez ltac:(unfold ez; lia)) as Vw.
  set (a := fst (shl_align ml el ez)) in *.
  set (b := fst (shl_align mw ew ez)) in *.
  assert (Hab : (Z.pos b <= Z.pos a)%Z).
  { apply le_IZR. pose proof (bpow_gt_0 ez) as G.
    apply (Rmult_le_reg_r (bpow ez)); [exact G |].
    rewrite Vl, Vw. exact V. }
  change (- Z.pos a)%Z with (Z.neg a).
  destruct (Z.neg a + Z.pos b)%Z as [| p | p] eqn:D; [| lia |].
  - exists (S754_zero true). split; reflexivity.
  - cbn [binary_normalize]. rewrite binary_round_sign.
    eexists. split; [| reflexivity].
    apply (Rnd_nonneg (IZR (Z.pos p) * bpow ez)); [| apply binary_round_Rnd].
    apply Rmult_lt_0_compat; [apply IZR_lt; lia | apply bpow_gt_0].
Qed.

Lemma sub_opp_zero (g : spec_float) :
  nonneg g = true ->
  exists g', nonneg g' = true /\ sub (SFopp g) (of_Z 0) = SFopp g'.
Proof.
  intros N. destruct (nonneg_cases _ N) as [[s ->] | [P | ->]].
  - destruct s; [exists (S754_zero true) | exists (S754_zero false)]; split; reflexivity.
  - exists g. split; [exact N |].
    destruct (posfin_inv _ P) as (m & e & -> & _). reflexivity.
  - exists (S754_infinity false). split; reflexivity.
Qed.

End Negatives.

(** X25. The floor at zero protects the walls only.  Take a room without
    openings, ceiling included, whose length reads as a negative Number
    [-l], whose width reads as a positive Number [w] not larger than [l],
    whose height reads as a positive Number, and for which the product
    [l*w] is a positive finite Number (it neither underflows to 0 nor
    overflows).  Its net wall area is 0, but the ceiling comes out
    negative and with it the total paintable area, which is [-(l*w)]. *)
Theorem negative_length_gives_negative_area
    (id name : string) (vl vw vh : value) (l w h : number) :
  parseFloat vl = opp l -> parseFloat vw = w -> parseFloat vh = h ->
  positive_number l = true -> positive_number w = true -> positive_number h = true ->
  leb w l = true -> positive_number (mul l w) = true ->
  let a := calculateRoomArea
             {| room_id := id; room_name := name; room_length := vl; room_width := vw;
                room_height := vh; openings := [] |} true in
  netWallArea a = zero /\
  totalPaintableArea a = opp (mul l w) /\
  ltb (totalPaintableArea a) zero = true.
Proof.
  intros El Ew Eh Hl Hw Hh L HP.
  apply positive_inv in Hl. apply positive_inv in Hw. apply positive_inv in Hh.
  apply positive_inv in HP.
  unfold calculateRoomArea, calculateWallArea, calculateCeilingArea.
  cbn [room_length room_width room_height openings fold_left
       netWallArea totalPaintableArea].
  rewrite El, Ew, Eh. unfold opp.
  destruct (add_opp_le l w Hl Hw L) as (g1 & N1 & ->).
  destruct (mul_opp_r (of_Z 2) g1 eq_refl N1) as (g2 & N2 & ->).
  destruct (mul_opp_l g2 h Hh N2) as (g3 & N3 & ->).
  destruct (sub_opp_zero g3 N3) as (g4 & N4 & ->).
  rewrite (Math_max_zero_opp g4 N4), (mul_opp_posfin l w Hl Hw).
  destruct (posfin_inv _ HP) as (m & e & -> & _).
  repeat split.
Qed.

Lemma negative_length_gives_negative_area_witness :
  totalPaintableArea
    (calculateRoomArea
       {| room_id := "1"; room_name := "Room 1"; room_length := Str "-5";
          room_width := Num (of_Z 4); room_height := Num (of_Z 9); openings := [] |} true)
  = opp (of_Z 20).
Proof.
  exact (proj1 (proj2
           (negative_length_gives_negative_area "1" "Room 1" (Str "-5") (Num (of_Z 4))
              (Num (of_Z 9)) (of_Z 5) (of_Z 4) (of_Z 9)
              eq_refl eq_refl eq_refl eq_refl eq_refl eq_refl eq_refl eq_refl))).
Defined.

(* ================================================================== *)
(** ** The figures of the report *)

Lemma count_digits_lower (fuel : nat) :
  forall n, 0 <= n ->
  count_digits fuel n = 1%nat \/ 10 ^ (Z.of_nat (count_digits fuel n) - 1) <= n.
Proof.
  induction fuel as [| f IH]; intros n H; cbn [count_digits]; [left; reflexivity |].
  destruct (Z.ltb_spec n 10) as [L | G]; [left; reflexivity | right].
  assert (H10 : 0 <= n / 10) by (apply Z.div_pos; lia).
  pose proof (Z.div_mod n 10 ltac:(lia)) as DM. pose proof (mod10_range n) as MR.
  rewrite Nat2Z.inj_succ. replace (Z.succ (Z.of_nat (count_digits f (n / 10))) - 1)
    with (Z.of_nat (count_digits f (n / 10))) by lia.
  destruct (IH (n / 10) H10) as [E | E].
  - rewrite E. change (10 ^ Z.of_nat 1) with 10. exact G.
  - set (c := count_digits f (n / 10)) in *.
    destruct c as [| c']; [cbn in E |- *; lia |].
    rewrite Nat2Z.inj_succ in E |- *.
    replace (Z.succ (Z.of_nat c') - 1) with (Z.of_nat c') in E by lia.
    rewrite Z.pow_succ_r by lia. lia.
Qed.

(** The number of digits of an integer is the only length at which its
    digits have no leading zero. *)
Lemma num_digits_unique (v : Z) (a : nat) :
  0 <= v -> (1 <= a)%nat -> v < 10 ^ Z.of_nat a ->
  (a = 1%nat \/ 10 ^ (Z.of_nat a - 1) <= v) ->
  num_digits v = a.
Proof.
  intros Hv Ha Hu Hl.
  destruct (num_digits_bound v Hv) as [U P].
  pose proof (count_digits_lower (Z.to_nat (Z.log2 v)) v Hv) as L.
  fold (num_digits v) in L. set (k := num_digits v) in *.
  destruct (Nat.lt_trichotomy k a) as [Lt | [Eq | Gt]]; [exfalso | exact Eq | exfalso].
  - destruct Hl as [-> | Hl]; [lia |].
    assert (10 ^ Z.of_nat k <= 10 ^ (Z.of_nat a - 1)) by (apply Z.pow_le_mono_r; lia).
    lia.
  - destruct L as [E | L]; [lia |].
    assert (10 ^ Z.of_nat a <= 10 ^ (Z.of_nat k - 1)) by (apply Z.pow_le_mono_r; lia).
    lia.
Qed.

(** The padded digits of [n] are the digits of [n / 100], a point, and the
    last two digits of [n]. *)
Lemma fixed_digits_2_text (n : Z) :
  0 <= n ->
  fixed_digits 2 n = decimal_string (n / 100) ++ "." ++ digits_fixed 2 n.
Proof.
  intros H. unfold fixed_digits.
  destruct (num_digits_bound n H) as [U P].
  pose proof (count_digits_lower (Z.to_nat (Z.log2 n)) n H) as Lo.
  fold (num_digits n) in Lo.
  assert (L : length (decimal_string n) = num_digits n) by apply length_digits_fixed.
  set (k := num_digits n) in *. rewrite L.
  assert (H100 : 0 <= n / 100) by (apply Z.div_pos; lia).
  assert (Pad : exists a : nat,
            (1 <= a)%nat /\ n < 10 ^ Z.of_nat (a + 2) /\
            (a = 1%nat \/ 10 ^ (Z.of_nat a - 1) <= n / 100) /\
            (if (k <=? 2)%nat then zeros (2 + 1 - k) ++ decimal_string n
             else decimal_string n) = digits_fixed (a + 2) n).
  { destruct (Nat.leb_spec k 2) as [Le | Gt].
    - exists 1%nat. split; [lia |]. split; [| split; [left; reflexivity |]].
      + apply Z.lt_le_trans with (10 ^ Z.of_nat k); [exact U |].
        apply Z.pow_le_mono_r; lia.
      + replace (1 + 2)%nat with ((2 + 1 - k) + k)%nat by lia.
        rewrite digits_fixed_split, Z.div_small by lia.
        rewrite digits_fixed_zero. reflexivity.
    - exists (k - 2)%nat. split; [lia |].
      replace (k - 2 + 2)%nat with k by lia.
      split; [exact U |]. split; [| reflexivity].
      right. destruct Lo as [E1 | Lo]; [lia |].
      apply Z.div_le_lower_bound; [lia |].
      change 100 with (10 ^ 2). rewrite <- Z.pow_add_r by lia.
      replace (2 + (Z.of_nat (k - 2) - 1)) with (Z.of_nat k - 1) by lia. exact Lo. }
  destruct Pad as (a & Ha & Ua & La & ->).
  assert (Ua' : n / 100 < 10 ^ Z.of_nat a).
  { apply Z.div_lt_upper_bound; [lia |].
    rewrite Nat2Z.inj_add, Z.pow_add_r in Ua by lia.
    change (10 ^ Z.of_nat 2) with 100 in Ua. lia. }
  rewrite length_digits_fixed. replace (a + 2 - 2)%nat with a by lia.
  rewrite digits_fixed_split. change (10 ^ Z.of_nat 2) with 100.
  rewrite <- (length_digits_fixed a (n / 100)) at 1 3.
  rewrite take_append, drop_append.
  unfold decimal_string. rewrite (num_digits_unique (n / 100) a H100 Ha Ua' La).
  reflexivity.
Qed.

Lemma digits_fixed_2_mod (n : Z) : digits_fixed 2 (n mod 100) = digits_fixed 2 n.
Proof.
  cbn [digits_fixed append].
  assert (E1 : (n mod 100 / 10) mod 10 = (n / 10) mod 10).
  { pose proof (Z.div_mod n 100 ltac:(lia)). pose proof (Z.mod_pos_bound n 100 ltac:(lia)).
    pose proof (Z.div_mod (n mod 100) 10 ltac:(lia)).
    pose proof (Z.div_mod n 10 ltac:(lia)).
    pose proof (Z.mod_pos_bound n 10 ltac:(lia)).
    pose proof (Z.mod_pos_bound (n mod 100) 10 ltac:(lia)).
    pose proof (Z.div_mod (n mod 100 / 10) 10 ltac:(lia)).
    pose proof (Z.mod_pos_bound (n mod 100 / 10) 10 ltac:(lia)).
    pose proof (Z.div_mod (n / 10) 10 ltac:(lia)).
    pose proof (Z.mod_pos_bound (n / 10) 10 ltac:(lia)).
    lia. }
  assert (E2 : (n mod 100) mod 10 = n mod 10).
  { pose proof (Z.div_mod n 100 ltac:(lia)). pose proof (Z.mod_pos_bound n 100 ltac:(lia)).
    pose proof (Z.div_mod (n mod 100) 10 ltac:(lia)).
    pose proof (Z.div_mod n 10 ltac:(lia)).
    pose proof (Z.mod_pos_bound n 10 ltac:(lia)).
    pose proof (Z.mod_pos_bound (n mod 100) 10 ltac:(lia)).
    lia. }
  rewrite E1, E2. reflexivity.
Qed.

Section ReportFigures.

Local Open Scope R_scope.

(** toFixed(2) prints a finite Number below 10^21 in magnitude to two
    decimal places. *)
Lemma toFixed_two_decimals (x : number) :
  fixed_range x = true -> to_two_decimals x (toFixed 2 x).
Proof.
  destruct x as [s | s | | s m e]; cbn [fixed_range]; intros R; try discriminate R.
  - exists 0%Z, 0%Z. split; [lia |]. split; [lia |]. split; [| reflexivity].
    cbn [SF2R]. rewrite Rabs_R0. cbn. lra.
  - pose proof (cents_nonneg m e) as Hn. pose proof (cents_spec m e) as Hs.
    exists (cents m e / 100)%Z, (cents m e mod 100)%Z.
    split; [apply Z.div_pos; lia |]. split; [apply Z.mod_pos_bound; lia |].
    assert (En : (100 * (cents m e / 100) + cents m e mod 100)%Z = cents m e).
    { symmetry. apply Z.div_mod. lia. }
    rewrite En. split.
    + assert (Ea : Rabs (SF2R (S754_finite s m e)) = SF2R (S754_finite false m e)).
      { pose proof (SF2R_posfin m e) as P. destruct s; [| apply Rabs_pos_eq; lra].
        cbn [SF2R cond_Zopp] in *. change (IZR (- Z.pos m)) with (- IZR (Z.pos m)).
        rewrite <- Ropp_mult_distr_l, Rabs_Ropp. apply Rabs_pos_eq. lra. }
      rewrite Ea. exact Hs.
    + cbn [toFixed]. rewrite R. fold (cents m e).
      rewrite (fixed_digits_2_text (cents m e) Hn), digits_fixed_2_mod.
      destruct s; reflexivity.
Qed.

(** The text [NaN] is no figure to two decimals. *)
Lemma NaN_not_two_decimals (x : number) : ~ to_two_decimals x "NaN".
Proof.
  intros (ip & fr & Hip & _ & _ & E).
  destruct (decimal_string_head ip Hip) as (d & r & Hd & Ed). rewrite Ed in E.
  destruct (digit_char_spec d Hd) as (Dg & _).
  destruct x as [s | s | | [] m e]; cbn [append] in E; try discriminate E;
    injection E as E _; rewrite <- E in Dg; discriminate Dg.
Qed.

Lemma integer_range_fixed (x : number) : integer_range x = true -> fixed_range x = true.
Proof.
  destruct x as [s | s | | s m e]; cbn [integer_range fixed_range]; intros H;
    try discriminate H; [reflexivity |].
  apply andb_true_iff in H as [_ H]. apply Z.leb_le in H.
  unfold below_pow10. apply Z.ltb_lt. cbn [Z.max Z.opp Z.compare].
  pose proof (numer_pos m e). pose proof (denom_pos e).
  rewrite Z.pow_0_r, Z.mul_1_r.
  assert ((2 ^ 53 - 1) * denom e < denom e * 10 ^ 21)%Z; [| lia].
  change (2 ^ 53 - 1)%Z with 9007199254740991%Z.
  change (10 ^ 21)%Z with 1000000000000000000000%Z. lia.
Qed.

(** The quotient by a power of two is the integer part. *)
Lemma shiftr_floor (m k : positive) :
  IZR (Z.shiftr (Z.pos m) (Z.pos k)) <= IZR (Z.pos m) * bpow (Z.neg k)
  < IZR (Z.shiftr (Z.pos m) (Z.pos k)) + 1.
Proof.
  rewrite Z.shiftr_div_pow2 by lia.
  set (u := (2 ^ Z.pos k)%Z).
  assert (Pu : (0 < u)%Z) by (apply Z.pow_pos_nonneg; lia).
  pose proof (Z.div_mod (Z.pos m) u ltac:(lia)) as DM.
  pose proof (Z.mod_pos_bound (Z.pos m) u Pu) as MB.
  set (q := (Z.pos m / u)%Z) in *. set (r := (Z.pos m mod u)%Z) in *.
  assert (Eb : bpow (Z.neg k) = / IZR u).
  { change (Z.neg k) with (- Z.pos k)%Z. unfold bpow. rewrite powerRZ_neg'.
    fold (bpow (Z.pos k)). rewrite (bpow_IZR (Z.pos k)) by lia. reflexivity. }
  assert (RPu : 0 < IZR u) by (apply IZR_lt; exact Pu).
  assert (Em : IZR (Z.pos m) = IZR u * IZR q + IZR r).
  { rewrite <- mult_IZR, <- plus_IZR. f_equal. exact DM. }
  assert (Ev : IZR (Z.pos m) * bpow (Z.neg k) = IZR q + IZR r / IZR u).
  { rewrite Eb, Em. field. lra. }
  assert (R0 : 0 <= IZR r / IZR u).
  { apply Rmult_le_pos; [apply IZR_le; lia | apply Rlt_le, Rinv_0_lt_compat; exact RPu]. }
  assert (R1 : IZR r / IZR u < 1).
  { apply Rmult_lt_reg_r with (IZR u); [exact RPu |].
    unfold Rdiv. rewrite Rmult_assoc, Rinv_l by lra.
    assert (IZR r < IZR u) by (apply IZR_lt; lia). lra. }
  rewrite Ev. lra.
Qed.

Lemma integer_range_value (s : bool) (m : positive) (e : Z) :
  (numer m e <= (2 ^ 53 - 1) * denom e)%Z ->
  IZR (Z.pos m) * bpow e <= IZR (2 ^ 53 - 1).
Proof.
  intros H. change (IZR (Z.pos m) * bpow e) with (SF2R (S754_finite false m e)).
  rewrite SF2R_fraction. pose proof (denom_pos e) as D. apply IZR_lt in D.
  apply IZR_le in H. rewrite mult_IZR in H.
  apply (Rmult_le_reg_r (IZR (denom e))); [exact D |].
  unfold Rdiv. rewrite Rmult_assoc, Rinv_l by lra. lra.
Qed.

Lemma Number_toString_opp_of_Z (q : Z) :
  (0 < q < 2 ^ 53)%Z -> Number_toString (opp (of_Z q)) = "-" ++ decimal_string q.
Proof.
  intros H. pose proof (Number_toString_of_Z q H) as T.
  rewrite of_Z_exact in T |- * by exact H.
  cbn [opp SFopp negb Number_toString append] in *. rewrite T. reflexivity.
Qed.

(** The recommended purchase is printed as the least integer that is not
    below the paint required. *)
Lemma rounded_up_text (w : number) :
  integer_range w = true ->
  exists N : Z,
    IZR N - 1 < SF2R w <= IZR N /\
    Number_toString (Math_ceil w) = integer_text N.
Proof.
  destruct w as [s | s | | s m e]; cbn [integer_range]; intros H; try discriminate H.
  - exists 0%Z. split; [cbn [SF2R]; lra | reflexivity].
  - apply andb_true_iff in H as [B H]. apply Z.leb_le in H.
    pose proof (integer_range_value s m e H) as V.
    pose proof (SF2R_posfin m e) as P. cbn [SF2R cond_Zopp] in P.
    destruct s.
    + (* below zero *)
      cbn [SF2R cond_Zopp]. change (IZR (- Z.pos m)) with (- IZR (Z.pos m)).
      rewrite <- Ropp_mult_distr_l.
      destruct e as [| p | p].
      * exists (- Z.pos m)%Z. rewrite opp_IZR, bpow_0 in *. split; [lra |].
        cbn [Math_ceil Number_toString append]. unfold positive_toString.
        cbn [exact_integer]. rewrite Z.pow_0_r, Z.mul_1_r.
        assert (L : (Z.pos m < 2 ^ 53)%Z).
        { apply lt_IZR. rewrite Rmult_1_r in V.
          apply Rle_lt_trans with (1 := V). apply IZR_lt. lia. }
        destruct (Z.ltb_spec (Z.pos m) (2 ^ 53)) as [_ | C]; [| lia]. reflexivity.
      * exists (- (Z.pos m * 2 ^ Z.pos p))%Z.
        rewrite opp_IZR, mult_IZR, <- (bpow_IZR (Z.pos p)) by lia. split; [lra |].
        cbn [Math_ceil Number_toString append]. unfold positive_toString.
        cbn [exact_integer].
        assert (L : (Z.pos m * 2 ^ Z.pos p < 2 ^ 53)%Z).
        { apply lt_IZR. rewrite mult_IZR, <- (bpow_IZR (Z.pos p)) by lia.
          apply Rle_lt_trans with (1 := V). apply IZR_lt. lia. }
        destruct (Z.ltb_spec (Z.pos m * 2 ^ Z.pos p) (2 ^ 53)) as [_ | C]; [| lia].
        unfold integer_text.
        assert (Pp : (0 < Z.pos m * 2 ^ Z.pos p)%Z)
          by (apply Z.mul_pos_pos; [lia | apply Z.pow_pos_nonneg; lia]).
        destruct (Z.ltb_spec (- (Z.pos m * 2 ^ Z.pos p)) 0) as [_ | C]; [| lia].
        rewrite Z.opp_involutive. reflexivity.
      * pose proof (shiftr_floor m p) as F.
        cbn [Math_ceil]. set (q := Z.shiftr (Z.pos m) (Z.pos p)) in *.
        exists (- q)%Z. rewrite opp_IZR. split; [lra |].
        assert (Hq : (0 <= q < 2 ^ 53)%Z).
        { split.
          - unfold q. rewrite Z.shiftr_div_pow2 by lia. apply Z.div_pos; lia.
          - apply lt_IZR. apply Rle_lt_trans with (IZR (2 ^ 53 - 1)); [lra |].
            apply IZR_lt. lia. }
        destruct q as [| q' | q'] eqn:Eq; [reflexivity | | lia].
        rewrite Number_toString_opp_of_Z by lia. reflexivity.
    + (* above zero *)
      exists (ceilZ m e). pose proof (ceilZ_spec m e) as C. pose proof (ceilZ_pos m e) as Pc.
      cbn [SF2R cond_Zopp]. split; [exact C |].
      rewrite (Math_ceil_ceilZ m e B).
      assert (L : (ceilZ m e < 2 ^ 53)%Z).
      { apply lt_IZR. apply Rlt_le_trans with (IZR (2 ^ 53 - 1) + 1); [lra |].
        rewrite <- plus_IZR. apply IZR_le. lia. }
      rewrite Number_toString_of_Z by lia.
      unfold integer_text. destruct (Z.ltb_spec (ceilZ m e) 0) as [C0 | _]; [lia | reflexivity].
Qed.

End ReportFigures.

(** The rate of a known paint type in a known unit system, as printed. *)
Lemma rate_in_table (key unit : string) (pt : paint_type) (units : unit_system) :
  lookup PAINT_TYPES key = Some pt -> lookup UNIT_SYSTEMS unit = Some units ->
  In (key, (unit, coverage_text (lookup (coverage pt) unit))) coverage_rates.
Proof.
  intros Hp Hu.
  assert (U : unit = "imperial" \/ unit = "metric").
  { unfold UNIT_SYSTEMS in Hu. cbn [lookup] in Hu.
    destruct (String.eqb_spec "imperial" unit) as [<- | _]; [left; reflexivity |].
    destruct (String.eqb_spec "metric" unit) as [<- | _]; [right; reflexivity |].
    discriminate Hu. }
  unfold PAINT_TYPES in Hp. cbn [lookup] in Hp.
  repeat match type of Hp with
         | (if String.eqb ?k key then _ else _) = _ =>
             destruct (String.eqb_spec k key) as [<- | _];
             [injection Hp as <-; destruct U as [-> | ->]; vm_compute; tauto |]
         end.
  discriminate Hp.
Qed.

(** The claim C7 as stated fails for a computed result with a figure that
    is not a finite Number: for a room whose length field was cleared the
    report has [NaN] where the claim has a figure to two decimals. *)
Lemma C7_counterexample :
  exists res,
    calculateAll [cleared_room] DEFAULT_SETTINGS "imperial" = Returns res /\
    toCSV res = Returns (
      "Paint Calculator Estimate" ++ nl ++
      nl ++
      "Room Details" ++ nl ++
      "Room Name,Wall Area,Ceiling Area,Subtract Area,Add Area,Net Paintable Area" ++ nl ++
      quote ++ "Room 1" ++ quote ++ ",NaN,NaN,0.00,0.00,NaN" ++ nl ++
      nl ++
      "Totals" ++ nl ++
      "Total Wall Area,NaN sq ft" ++ nl ++
      "Total Ceiling Area,NaN sq ft" ++ nl ++
      "Total Subtract Area,0.00 sq ft" ++ nl ++
      "Total Add Area,0.00 sq ft" ++ nl ++
      "Net Paintable Area,NaN sq ft" ++ nl ++
      nl ++
      "Paint Required" ++ nl ++
      "Coats,2" ++ nl ++
      "Wastage,10%" ++ nl ++
      "Coverage,350 sq ft/gal" ++ nl ++
      "Paint Required,NaN gal" ++ nl ++
      "Recommended Purchase,NaN gal" ++ nl) /\
    toFixed 2 (wallArea (totals res)) = "NaN" /\
    forall x, ~ to_two_decimals x "NaN".
Proof.
  eexists. split; [vm_compute; reflexivity |].
  split; [vm_compute; reflexivity |]. split; [vm_compute; reflexivity |].
  exact NaN_not_two_decimals.
Qed.

(** C7, as amended. For a result computed by calculateAll in a known unit
    system, whose room and total figures are finite Numbers below 10^21 in
    magnitude and whose paint required is a finite Number of magnitude at
    most 2^53 - 1, the CSV text is exactly: the title line and a blank
    line; the room table, headed [Room Details] and the header row, with
    one line per room holding the quoted room name and the wall, ceiling,
    subtract, add and total paintable area to two decimals; a blank line;
    the [Totals] section of five labelled lines, each figure to two
    decimals and followed by the area label; a blank line; the [Paint
    Required] section with the coats, the wastage, the coverage as
    [<rate> <area>/<volumeAbbr>] with the rate of the paint type in the
    unit system, the paint required to two decimals and the recommended
    purchase, the least integer that is not below the paint required,
    both followed by the volume abbreviation. *)
Theorem C7_csv_layout
    (rs : list room) (st : settings) (unit : string) (res : CalculationResult)
    (units : unit_system) :
  calculateAll rs st unit = Returns res ->
  lookup UNIT_SYSTEMS unit = Some units ->
  Forall (fun r => figures_in_range (calculations r)) (result_rooms res) ->
  figures_in_range (totals res) ->
  integer_range (withWastage (result_paint res)) = true ->
  exists (rows : list string) (tw tc ts ta tt rate tp : string) (N : Z),
    toCSV res = Returns (
      "Paint Calculator Estimate" ++ nl ++
      nl ++
      "Room Details" ++ nl ++
      "Room Name,Wall Area,Ceiling Area,Subtract Area,Add Area,Net Paintable Area" ++ nl ++
      String.concat "" rows ++
      nl ++
      "Totals" ++ nl ++
      "Total Wall Area," ++ tw ++ " " ++ unit_area units ++ nl ++
      "Total Ceiling Area," ++ tc ++ " " ++ unit_area units ++ nl ++
      "Total Subtract Area," ++ ts ++ " " ++ unit_area units ++ nl ++
      "Total Add Area," ++ ta ++ " " ++ unit_area units ++ nl ++
      "Net Paintable Area," ++ tt ++ " " ++ unit_area units ++ nl ++
      nl ++
      "Paint Required" ++ nl ++
      "Coats," ++ Number_toString (coats st) ++ nl ++
      "Wastage," ++ Number_toString (wastagePercent st) ++ "%" ++ nl ++
      "Coverage," ++ rate ++ " " ++ unit_area units ++ "/" ++ unit_volumeAbbr units ++ nl ++
      "Paint Required," ++ tp ++ " " ++ unit_volumeAbbr units ++ nl ++
      "Recommended Purchase," ++ integer_text N ++ " " ++ unit_volumeAbbr units ++ nl) /\
    List.length rows = List.length rs /\
    Forall2 is_row (result_rooms res) rows /\
    to_two_decimals (wallArea (totals res)) tw /\
    to_two_decimals (ceilingArea (totals res)) tc /\
    to_two_decimals (subtractArea (totals res)) ts /\
    to_two_decimals (addArea (totals res)) ta /\
    to_two_decimals (totalPaintableArea (totals res)) tt /\
    In (paintType st, (unit, rate)) coverage_rates /\
    to_two_decimals (withWastage (result_paint res)) tp /\
    (IZR N - 1 < SF2R (withWastage (result_paint res)) <= IZR N)%R.
Proof.
  intros E Hu HF HT HW.
  unfold calculateAll in E. rewrite fold_room_step in E. cbn [app] in E.
  destruct (lookup PAINT_TYPES (paintType st)) as [pc |] eqn:Hp; [| discriminate E].
  injection E as <-.
  cbn [result_rooms totals result_paint result_coverage] in *.
  set (rooms' := map (fun r => {| source := r; calculations := room_calculation st r |}) rs)
    in *.
  set (tot := fold_left add_areas (map (room_calculation st) rs) zero_totals) in *.
  set (cov := lookup (coverage pc) unit) in *.
  set (p := calculatePaintRequired (totalPaintableArea tot) (ToNumber cov) (coats st)
              (wastagePercent st)) in *.
  destruct (rounded_up_text (withWastage p) HW) as (N & HN & TN).
  change (Math_ceil (withWastage p)) with (rounded p) in TN.
  destruct HT as (T1 & T2 & T3 & T4 & T5).
  exists (map (fun r =>
                 quote ++ room_name (source r) ++ quote ++ "," ++
                 toFixed 2 (wallArea (calculations r)) ++ "," ++
                 toFixed 2 (ceilingArea (calculations r)) ++ "," ++
                 toFixed 2 (subtractArea (calculations r)) ++ "," ++
                 toFixed 2 (addArea (calculations r)) ++ "," ++
                 toFixed 2 (totalPaintableArea (calculations r)) ++ nl) rooms'),
    (toFixed 2 (wallArea tot)), (toFixed 2 (ceilingArea tot)),
    (toFixed 2 (subtractArea tot)), (toFixed 2 (addArea tot)),
    (toFixed 2 (totalPaintableArea tot)), (coverage_text cov),
    (toFixed 2 (withWastage p)), N.
  split.
  { rewrite <- TN.
    apply (toCSV_layout
             {| result_rooms := rooms'; totals := tot; result_paint := p;
                result_settings := st; result_unitSystem := unit;
                result_coverage := cov |} units Hu). }
  split; [unfold rooms'; rewrite !length_map; reflexivity |].
  split.
  { apply Forall2_map_In. intros r Hr.
    rewrite Forall_forall in HF. destruct (HF r Hr) as (F1 & F2 & F3 & F4 & F5).
    exists (toFixed 2 (wallArea (calculations r))),
      (toFixed 2 (ceilingArea (calculations r))),
      (toFixed 2 (subtractArea (calculations r))),
      (toFixed 2 (addArea (calculations r))),
      (toFixed 2 (totalPaintableArea (calculations r))).
    split; [reflexivity |].
    repeat split; apply toFixed_two_decimals; assumption. }
  repeat (split; [apply toFixed_two_decimals; assumption |]).
  split; [apply (rate_in_table _ _ pc units Hp Hu) |].
  split; [apply toFixed_two_decimals, integer_range_fixed; exact HW | exact HN].
Qed.

Lemma C7_csv_layout_witness :
  exists res,
    calculateAll [example_living_room] exampleData_settings "imperial" = Returns res /\
    toCSV res = Returns (
      "Paint Calculator Estimate" ++ nl ++
      nl ++
      "Room Details" ++ nl ++
      "Room Name,Wall Area,Ceiling Area,Subtract Area,Add Area,Net Paintable Area" ++ nl ++
      quote ++ "Living Room" ++ quote ++ ",630.00,300.00,69.00,0.00,861.00" ++ nl ++
      nl ++
      "Totals" ++ nl ++
      "Total Wall Area,630.00 sq ft" ++ nl ++
      "Total Ceiling Area,300.00 sq ft" ++ nl ++
      "Total Subtract Area,69.00 sq ft" ++ nl ++
      "Total Add Area,0.00 sq ft" ++ nl ++
      "Net Paintable Area,861.00 sq ft" ++ nl ++
      nl ++
      "Paint Required" ++ nl ++
      "Coats,2" ++ nl ++
      "Wastage,10%" ++ nl ++
      "Coverage,350 sq ft/gal" ++ nl ++
      "Paint Required,5.41 gal" ++ nl ++
      "Recommended Purchase,6 gal" ++ nl) /\
    exists (rows : list string) (tw tp rate : string) (N : Z),
      Forall2 is_row (result_rooms res) rows /\
      to_two_decimals (wallArea (totals res)) tw /\
      In ("interior", ("imperial", rate)) coverage_rates /\
      to_two_decimals (withWastage (result_paint res)) tp /\
      (IZR N - 1 < SF2R (withWastage (result_paint res)) <= IZR N)%R.
Proof.
  eexists. split; [vm_compute; reflexivity |]. split; [vm_compute; reflexivity |].
  destruct (C7_csv_layout [example_living_room] exampleData_settings "imperial" _ _
              eq_refl eq_refl
              ltac:(repeat constructor) ltac:(repeat constructor) eq_refl)
    as (rows & tw & tc & ts & ta & tt & rate & tp & N & _ & _ & R & W & _ & _ & _ & _
        & C & P & HN).
  exists rows, tw, tp, rate, N.
  split; [exact R |]. split; [exact W |]. split; [exact C |]. split; [exact P | exact HN].
Defined.

(* ================================================================== *)
(** ** Settings fields *)

(** parseInt reads a negative integer at the head of a text and drops what
    follows it. *)
Lemma parseInt_str_negative_prefix (K : nat) (M : Z) (rest : string) :
  (1 <= K)%nat -> 0 < M < 10 ^ Z.of_nat K -> no_digit_head rest = true ->
  parseInt_str ("-" ++ digits_fixed K M ++ rest) = of_Z (- M).
Proof.
  intros HK HM Hr. unfold parseInt_str. cbn [append trim_start is_space].
  change (is_space "-") with false. cbn iota. cbn [read_sign].
  rewrite digits_no_hex_prefix, read_digits_integer by (assumption || lia).
  destruct (Z.eqb_spec (Z.of_nat K) 0) as [Z0 | _]; [lia |].
  destruct (Z.eqb_spec M 0) as [Z0 | _]; [lia |]. reflexivity.
Qed.

(** The Number of a negative integer is the opposite of the Number of its
    magnitude, and is not falsy. *)
Lemma of_Z_negative (n : Z) :
  0 < n -> of_Z (- n) = opp (of_Z n) /\ truthy (of_Z (- n)) = true.
Proof.
  intros H. destruct n as [| p | p]; try lia.
  assert (E : of_Z (- Z.pos p) = opp (of_Z (Z.pos p))).
  { unfold of_Z. cbn [Z.opp binary_normalize]. apply binary_round_sign. }
  split; [exact E |]. rewrite E.
  pose proof (of_Z_above_zero (Z.pos p) H) as L.
  destruct (of_Z (Z.pos p)) as [z | z | | z m e]; try reflexivity; discriminate L.
Qed.

(** X8. What the coats and wastage fields store, by the typed text.  A
    text that starts with an unsigned decimal integer n from 1 on, written
    without leading zeros, stores n, and one that starts with a minus sign
    and such an integer stores -n, whatever follows the digits as long as
    it is not a digit (a fraction such as [.9] is dropped).  A text with
    no digit at its head after white space and an optional sign, and the
    text [0], store the default: 1 coat, respectively 0 percent.  Neither
    field changes the other settings, the rooms or the unit system.
    Hexadecimal texts are not covered. *)
Theorem settings_fields_store_integers (text rest : string) (n : Z) (st : state) :
  0 < n -> no_digit_head rest = true -> no_leading_digit text = true ->
  let s := current_settings st in
  let with_coats k :=
    {| unitSystem := unitSystem st; rooms := rooms st;
       current_settings :=
         {| coats := k; wastagePercent := wastagePercent s;
            includeCeiling := includeCeiling s; paintType := paintType s |} |} in
  let with_wastage k :=
    {| unitSystem := unitSystem st; rooms := rooms st;
       current_settings :=
         {| coats := coats s; wastagePercent := k;
            includeCeiling := includeCeiling s; paintType := paintType s |} |} in
  coats_onChange (decimal_string n ++ rest) st = with_coats (of_Z n) /\
  wastage_onChange (decimal_string n ++ rest) st = with_wastage (of_Z n) /\
  coats_onChange ("-" ++ decimal_string n ++ rest) st = with_coats (opp (of_Z n)) /\
  wastage_onChange ("-" ++ decimal_string n ++ rest) st = with_wastage (opp (of_Z n)) /\
  coats_onChange text st = with_coats (of_Z 1) /\
  wastage_onChange text st = with_wastage (of_Z 0) /\
  coats_onChange "0" st = with_coats (of_Z 1) /\
  wastage_onChange "0" st = with_wastage (of_Z 0).
Proof.
  intros Hn Hr Ht s with_coats with_wastage.
  destruct (num_digits_bound n ltac:(lia)) as [U K].
  assert (P : parseInt_str (decimal_string n ++ rest) = of_Z n).
  { unfold decimal_string. apply parseInt_str_integer_prefix; [exact K | lia | exact Hr]. }
  assert (Q : parseInt_str ("-" ++ decimal_string n ++ rest) = opp (of_Z n)).
  { unfold decimal_string.
    rewrite parseInt_str_negative_prefix by (assumption || lia).
    apply of_Z_negative. exact Hn. }
  assert (T : truthy (of_Z n) = true).
  { pose proof (of_Z_above_zero n Hn) as L.
    destruct (of_Z n) as [z | z | | z m e]; try reflexivity; discriminate L. }
  assert (T' : truthy (opp (of_Z n)) = true).
  { destruct (of_Z_negative n Hn) as [E T']. rewrite <- E. exact T'. }
  assert (Z0 : parseInt_str "0" = zero) by reflexivity.
  unfold coats_onChange, wastage_onChange, updateSettings, with_coats, with_wastage.
  cbn [override upd_coats upd_wastagePercent upd_includeCeiling upd_paintType].
  rewrite P, Q, Z0, (parseInt_str_no_digit text Ht).
  unfold or_else. rewrite T, T'. repeat split.
Qed.

Lemma settings_fields_store_integers_witness :
  coats (current_settings (coats_onChange "2.9" initial_state)) = of_Z 2 /\
  coats (current_settings (coats_onChange "-5" initial_state)) = opp (of_Z 5) /\
  coats (current_settings (coats_onChange "" initial_state)) = of_Z 1 /\
  wastagePercent (current_settings (wastage_onChange "0" initial_state)) = of_Z 0.
Proof.
  destruct (settings_fields_store_integers "" ".9" 2 initial_state
              ltac:(lia) eq_refl eq_refl) as (C & _ & _ & _ & D & _ & _ & Z0).
  destruct (settings_fields_store_integers "" "" 5 initial_state
              ltac:(lia) eq_refl eq_refl) as (_ & _ & N & _).
  split; [exact (f_equal (fun s => coats (current_settings s)) C) |].
  split; [exact (f_equal (fun s => coats (current_settings s)) N) |].
  split; [exact (f_equal (fun s => coats (current_settings s)) D) |].
  exact (f_equal (fun s => wastagePercent (current_settings s)) Z0).
Defined.
